(** * tinyproxy: the per-connection request pipeline of [src/reqs.c]

    A shallow embedding of [reqs.c] (request-line parsing, header
    collection and rewriting, connection establishment and the
    bidirectional relay) together with the properties of its specification.

    Conventions.
    - A C string is a [list ascii] without its terminating NUL; where the
      code works on the NUL bytes themselves (the tokenizer of the
      [Connection] header) the buffer is modelled with them.
    - C integers are [Z]; narrowing stores are written out with [mod].
    - Functions that return [int] status codes return the same codes.
    - Memory allocation is taken to succeed; [log_message] and [DEBUG2]
      have no effect on the modelled state and are left out.
    - The optional features ([UPSTREAM_SUPPORT], [TUNNEL_SUPPORT],
      [FILTER_ENABLE], [XTINYPROXY_ENABLE]) are compiled in; whether they
      are active is decided by the configuration, as in the code. *)

From Stdlib Require Import ZArith Lia Ascii String List Bool.
From stdpp Require Import base option list gmap.

Open Scope Z_scope.

Definition cstr := list ascii.

Definition str (s : string) : cstr := list_ascii_of_string s.

(** ** The C library, as far as [reqs.c] uses it *)

Module Libc.

Definition NUL : ascii := ascii_of_nat 0.
Definition HT : ascii := ascii_of_nat 9.
Definition LF : ascii := ascii_of_nat 10.
Definition CR : ascii := ascii_of_nat 13.
Definition SP : ascii := ascii_of_nat 32.
Definition DQUOTE : ascii := ascii_of_nat 34.
Definition BACKSLASH : ascii := ascii_of_nat 92.

Definition code (c : ascii) : Z := Z.of_N (N_of_ascii c).

Definition ascii_eqb (a b : ascii) : bool := Ascii.eqb a b.

(** [isspace] in the C locale: space, \t, \n, \v, \f, \r. *)
Definition isspace (c : ascii) : bool :=
  (code c =? 32) || ((9 <=? code c) && (code c <=? 13)).

Definition isdigit (c : ascii) : bool := (48 <=? code c) && (code c <=? 57).

Definition isupper (c : ascii) : bool := (65 <=? code c) && (code c <=? 90).

Definition tolower (c : ascii) : ascii :=
  if isupper c then ascii_of_N (N_of_ascii c + 32) else c.

Definition lower (s : cstr) : cstr := map tolower s.

Fixpoint strcmp (a b : cstr) : Z :=
  match a, b with
  | [], [] => 0
  | [], y :: _ => 0 - code y
  | x :: _, [] => code x
  | x :: a', y :: b' => if ascii_eqb x y then strcmp a' b' else code x - code y
  end.

Fixpoint strncasecmp (a b : cstr) (n : nat) : Z :=
  match n with
  | O => 0
  | S k =>
      match a, b with
      | [], [] => 0
      | [], y :: _ => 0 - code (tolower y)
      | x :: _, [] => code (tolower x)
      | x :: a', y :: b' =>
          if ascii_eqb (tolower x) (tolower y) then strncasecmp a' b' k
          else code (tolower x) - code (tolower y)
      end
  end.

Definition strcasecmp (a b : cstr) : Z :=
  strncasecmp a b (S (Nat.max (length a) (length b))).

(** [memcpy(dst, src, n)] over the first [n] bytes of a string that is at
    least [n] long. *)
Definition memcpy (dst src : cstr) (n : nat) : cstr :=
  take n src ++ drop n dst.

(** The longest prefix whose characters satisfy [p], and the rest. *)
Fixpoint span (p : ascii -> bool) (s : cstr) : cstr * cstr :=
  match s with
  | [] => ([], [])
  | c :: r =>
      if p c then let '(t, r') := span p r in (c :: t, r') else ([], s)
  end.

Definition skip_space (s : cstr) : cstr := snd (span isspace s).

Definition mem (c : ascii) (set : cstr) : bool := existsb (ascii_eqb c) set.

(** *** Numeric conversions ([strtoul], [strtol], as [scanf] and [atol]
    use them, on a platform with 64-bit [long]) *)

Definition ULONG_MAX : Z := 2 ^ 64 - 1.
Definition LONG_MAX : Z := 2 ^ 63 - 1.
Definition LONG_MIN : Z := - 2 ^ 63.

Fixpoint digits_value (acc : Z) (ds : cstr) : Z :=
  match ds with
  | [] => acc
  | d :: r => digits_value (acc * 10 + (code d - 48)) r
  end.

(** An optional sign and a non-empty run of decimal digits: the subject
    sequence of [strtoul]/[strtol] in base 10. Returns the sign, the
    digits and the unread rest. *)
Definition scan_number (s : cstr) : option (bool * cstr * cstr) :=
  let '(neg, s1) :=
    match s with
    | c :: r =>
        if ascii_eqb c "-"%char then (true, r)
        else if ascii_eqb c "+"%char then (false, r)
        else (false, s)
    | [] => (false, s)
    end in
  let '(ds, rest) := span isdigit s1 in
  match ds with
  | [] => None
  | _ => Some (neg, ds, rest)
  end.

(** [strtoul]: a magnitude out of range gives [ULONG_MAX] whatever the
    sign; a magnitude in range is negated in the unsigned type. *)
Definition strtoul_value (neg : bool) (ds : cstr) : Z :=
  let v := digits_value 0 ds in
  if ULONG_MAX <? v then ULONG_MAX
  else if neg then (0 - v) mod 2 ^ 64 else v.

Definition strtol_value (neg : bool) (ds : cstr) : Z :=
  let v := digits_value 0 ds in
  if neg then Z.max (0 - v) LONG_MIN else Z.min v LONG_MAX.

(** [atol]: leading white space, then a number; 0 when there is none. *)
Definition atol (s : cstr) : Z :=
  match scan_number (skip_space s) with
  | Some (neg, ds, _) => strtol_value neg ds
  | None => 0
  end.

(** *** [sscanf]

    The directives that occur in the formats of [reqs.c]. *)
Inductive directive :=
| DChar (c : ascii)        (* an ordinary character *)
| DWhite                   (* white space in the format *)
| DNotIn (set : cstr)      (* %[^set] *)
| DStr                     (* %s *)
| DUShort                  (* %hu *)
| DUInt.                   (* %u *)

Inductive scanned :=
| SStr (s : cstr)
| SNum (n : Z).

Definition EOF : Z := -1.

(** What [sscanf] returns when a directive fails with [done] conversions
    stored: [EOF] for an input failure (end of the string) before the
    first conversion, else the number of conversions. *)
Definition scan_fail (at_end : bool) (done : list scanned) : Z * list scanned :=
  match done with
  | [] => if at_end then (EOF, []) else (0, [])
  | _ => (Z.of_nat (length done), done)
  end.

Definition at_end (s : cstr) : bool := match s with [] => true | _ => false end.

Fixpoint scan (fmt : list directive) (input : cstr) (done : list scanned)
  : Z * list scanned :=
  match fmt with
  | [] => (Z.of_nat (length done), done)
  | DChar c :: fmt' =>
      match input with
      | x :: rest =>
          if ascii_eqb x c then scan fmt' rest done else scan_fail false done
      | [] => scan_fail true done
      end
  | DWhite :: fmt' => scan fmt' (skip_space input) done
  | DNotIn set :: fmt' =>
      let '(tok, rest) := span (fun c => negb (mem c set)) input in
      match tok with
      | [] => scan_fail (at_end input) done
      | _ => scan fmt' rest (done ++ [SStr tok])
      end
  | DStr :: fmt' =>
      let input' := skip_space input in
      let '(tok, rest) := span (fun c => negb (isspace c)) input' in
      match tok with
      | [] => scan_fail (at_end input') done
      | _ => scan fmt' rest (done ++ [SStr tok])
      end
  | DUShort :: fmt' =>
      let input' := skip_space input in
      match scan_number input' with
      | Some (neg, ds, rest) =>
          scan fmt' rest (done ++ [SNum (strtoul_value neg ds mod 2 ^ 16)])
      | None => scan_fail (at_end input') done
      end
  | DUInt :: fmt' =>
      let input' := skip_space input in
      match scan_number input' with
      | Some (neg, ds, rest) =>
          scan fmt' rest (done ++ [SNum (strtoul_value neg ds mod 2 ^ 32)])
      | None => scan_fail (at_end input') done
      end
  end.

Definition sscanf (input : cstr) (fmt : list directive) : Z * list scanned :=
  scan fmt input [].

Definition lit (s : string) : list directive := map DChar (str s).

(** *** Formatting ([printf]'s %d, %u, %hu and [snprintf]'s truncation) *)

Definition digit_char (d : Z) : ascii := ascii_of_N (Z.to_N (48 + d)).

Fixpoint dec_digits (fuel : nat) (n : Z) (acc : cstr) : cstr :=
  match fuel with
  | O => acc
  | S f =>
      let acc' := digit_char (n mod 10) :: acc in
      if n / 10 =? 0 then acc' else dec_digits f (n / 10) acc'
  end.

Definition fmt_d (n : Z) : cstr :=
  if n <? 0 then "-"%char :: dec_digits (S (Z.to_nat (Z.log2 (- n)))) (- n) []
  else dec_digits (S (Z.to_nat (Z.log2 n))) n [].

(** [snprintf(buf, size, ...)] stores at most [size - 1] characters of the
    formatted text (and a NUL). *)
Definition snprintf (size : Z) (formatted : cstr) : cstr :=
  take (Z.to_nat (size - 1)) formatted.

Definition strlen (s : cstr) : Z := Z.of_nat (length s).

End Libc.

Import Libc.

(** ** Sockets, descriptors and the connection object *)

(** What a peer sends: bytes, with [Pause] where nothing has arrived yet
    (a blocking read waits there, a non-blocking one sees EAGAIN). The end
    of the list is the peer's close. *)
Inductive wire :=
| Octet (c : ascii)
| Pause.

(** How the peer takes successive writes: at most [n] bytes, none for now,
    or an error. Once the list is used up every write is taken whole. *)
Inductive wr_event :=
| WTake (n : nat)
| WAgain
| WFail.

Record sock := {
  s_in : list wire;
  s_out : cstr;
  s_wr : list wr_event;
  s_nonblock : bool
}.

Inductive stat_kind := STAT_BADCONN | STAT_OPEN | STAT_CLOSE | STAT_REFUSED | STAT_DENIED.

(** Calls to the collaborators that leave no other mark on the state. *)
Inductive event :=
| EvStat (k : stat_kind)
| EvHttpErr (status : Z) (msg : cstr)
| EvShowStats
| EvDial (host : cstr) (port : Z) (fd : Z)
| EvSelect (tv_sec : Z) (rset wset : list Z)
| EvDestroy.

(** [struct conn_s] (declared in conns.h): the fields [reqs.c] uses. *)
Record conn_s := {
  client_fd : Z;
  server_fd : Z;
  cbuffer : cstr;
  sbuffer : cstr;
  request_line : cstr;
  connect_method : bool;
  response_message_sent : bool;
  protocol_major : Z;
  protocol_minor : Z
}.

Record state := {
  conn : conn_s;
  fds : gmap Z sock;
  trace : list event
}.

(** [struct config_s]: the fields [reqs.c] reads. A name that is not set
    is [None]. *)
Record config_s := {
  idletimeout : Z;
  upstream_name : option cstr;
  upstream_port : Z;
  tunnel_name : option cstr;
  tunnel_port : Z;
  stathost : option cstr;
  filter : bool;
  my_domain : option cstr
}.

(** One turn of the relay loop as the system decides it: the clock when
    the timeout is computed, what [select] returns and which descriptors
    it leaves set, and the clock after it. *)
Record tick := {
  t_now : Z;
  t_ret : Z;
  t_rset : list Z;
  t_wset : list Z;
  t_then : Z
}.

(** Constants of tinyproxy.h and config.h, the global [config], and the
    collaborators of other modules. *)
Class Env := {
  MAXBUFFSIZE : Z;
  PACKAGE : cstr;
  VERSION : cstr;
  config : config_s;
  check_acl : Z -> Z;
  filter_url : cstr -> Z;
  dial : cstr -> Z -> option (Z * sock);
  is_anonymous_enabled : Z;
  anonymous_search : cstr -> Z;
  gethostname : cstr;
  getpeer_ip : Z -> cstr;
  http_message : Z -> cstr -> cstr;
  stats_page : cstr;
  relay_clock : Z;
  relay_ticks : list tick
}.

(** *** Updating the records *)

Definition set_conn (c : conn_s) (st : state) : state :=
  {| conn := c; fds := fds st; trace := trace st |}.

Definition set_fds (f : gmap Z sock) (st : state) : state :=
  {| conn := conn st; fds := f; trace := trace st |}.

Definition log_event (e : event) (st : state) : state :=
  {| conn := conn st; fds := fds st; trace := trace st ++ [e] |}.

Definition set_server_fd (v : Z) (c : conn_s) : conn_s :=
  {| client_fd := client_fd c; server_fd := v; cbuffer := cbuffer c;
     sbuffer := sbuffer c; request_line := request_line c;
     connect_method := connect_method c;
     response_message_sent := response_message_sent c;
     protocol_major := protocol_major c; protocol_minor := protocol_minor c |}.

Definition set_cbuffer (v : cstr) (c : conn_s) : conn_s :=
  {| client_fd := client_fd c; server_fd := server_fd c; cbuffer := v;
     sbuffer := sbuffer c; request_line := request_line c;
     connect_method := connect_method c;
     response_message_sent := response_message_sent c;
     protocol_major := protocol_major c; protocol_minor := protocol_minor c |}.

Definition set_sbuffer (v : cstr) (c : conn_s) : conn_s :=
  {| client_fd := client_fd c; server_fd := server_fd c; cbuffer := cbuffer c;
     sbuffer := v; request_line := request_line c;
     connect_method := connect_method c;
     response_message_sent := response_message_sent c;
     protocol_major := protocol_major c; protocol_minor := protocol_minor c |}.

Definition set_request_line (v : cstr) (c : conn_s) : conn_s :=
  {| client_fd := client_fd c; server_fd := server_fd c; cbuffer := cbuffer c;
     sbuffer := sbuffer c; request_line := v;
     connect_method := connect_method c;
     response_message_sent := response_message_sent c;
     protocol_major := protocol_major c; protocol_minor := protocol_minor c |}.

Definition set_connect_method (v : bool) (c : conn_s) : conn_s :=
  {| client_fd := client_fd c; server_fd := server_fd c; cbuffer := cbuffer c;
     sbuffer := sbuffer c; request_line := request_line c;
     connect_method := v;
     response_message_sent := response_message_sent c;
     protocol_major := protocol_major c; protocol_minor := protocol_minor c |}.

Definition set_response_message_sent (v : bool) (c : conn_s) : conn_s :=
  {| client_fd := client_fd c; server_fd := server_fd c; cbuffer := cbuffer c;
     sbuffer := sbuffer c; request_line := request_line c;
     connect_method := connect_method c;
     response_message_sent := v;
     protocol_major := protocol_major c; protocol_minor := protocol_minor c |}.

Definition set_protocol_major (v : Z) (c : conn_s) : conn_s :=
  {| client_fd := client_fd c; server_fd := server_fd c; cbuffer := cbuffer c;
     sbuffer := sbuffer c; request_line := request_line c;
     connect_method := connect_method c;
     response_message_sent := response_message_sent c;
     protocol_major := v; protocol_minor := protocol_minor c |}.

Definition set_protocol_minor (v : Z) (c : conn_s) : conn_s :=
  {| client_fd := client_fd c; server_fd := server_fd c; cbuffer := cbuffer c;
     sbuffer := sbuffer c; request_line := request_line c;
     connect_method := connect_method c;
     response_message_sent := response_message_sent c;
     protocol_major := protocol_major c; protocol_minor := v |}.

Definition set_in (v : list wire) (s : sock) : sock :=
  {| s_in := v; s_out := s_out s; s_wr := s_wr s; s_nonblock := s_nonblock s |}.

Definition set_nonblock (v : bool) (s : sock) : sock :=
  {| s_in := s_in s; s_out := s_out s; s_wr := s_wr s; s_nonblock := v |}.

(** The socket after a write call that took [taken] and used up one
    entry of the peer's schedule. *)
Definition wrote (taken : cstr) (k : list wr_event) (s : sock) : sock :=
  {| s_in := s_in s; s_out := s_out s ++ taken; s_wr := k;
     s_nonblock := s_nonblock s |}.

(** *** The state monad the functions of [reqs.c] run in *)

Definition M (A : Type) : Type := state -> A * state.

Definition ret {A} (a : A) : M A := fun st => (a, st).

Definition bind {A B} (m : M A) (k : A -> M B) : M B :=
  fun st => let '(a, st') := m st in k a st'.

Definition get : M state := fun st => (st, st).

Definition modify (f : state -> state) : M unit := fun st => (tt, f st).

Declare Scope io_scope.
Delimit Scope io_scope with io.
Notation "x <- m ;; k" := (bind m (fun x => k))
  (at level 100, m at next level, right associativity) : io_scope.
Notation "m ;; k" := (bind m (fun _ => k))
  (at level 100, right associativity) : io_scope.
Open Scope io_scope.

Definition modify_conn (f : conn_s -> conn_s) : M unit :=
  modify (fun st => set_conn (f (conn st)) st).

Definition put_sock (fd : Z) (s : sock) : M unit :=
  modify (fun st => set_fds (<[fd := s]> (fds st)) st).

Definition emit (e : event) : M unit := modify (log_event e).

(** ** Helpers of other modules (sock.c, utils.c, stats.c, conns.c) *)

Section Collaborators.
Context `{Env}.

Definition HTTP_LINE_LENGTH : Z := MAXBUFFSIZE / 6.

Definition UPSTREAM_CONFIGURED : bool :=
  match upstream_name config with
  | Some _ => negb (upstream_port config =? -1)
  | None => false
  end.

Definition TUNNEL_CONFIGURED : bool :=
  match tunnel_name config with
  | Some _ => negb (tunnel_port config =? -1)
  | None => false
  end.

Definition CHECK_CRLF (header : cstr) (len : Z) : bool :=
  ((len =? 1) && bool_decide (header !! 0%nat = Some LF))
  || ((len =? 2) && bool_decide (header !! 0%nat = Some CR)
      && bool_decide (header !! 1%nat = Some LF)).

(** A buffer the network filled, read as a C string: it ends at the first
    NUL byte, if the peer sent one. *)
Definition c_string (bytes : cstr) : cstr :=
  fst (span (fun c => negb (ascii_eqb c NUL)) bytes).

(** The bytes of a line up to and including the first newline; pauses are
    waited out. *)
Fixpoint take_line (ws : list wire) : cstr * list wire :=
  match ws with
  | [] => ([], [])
  | Pause :: r => take_line r
  | Octet c :: r =>
      if ascii_eqb c LF then ([c], r)
      else let '(l, r') := take_line r in (c :: l, r')
  end.

(** Modelled from the spec: [readline] of sock.c is not under src/. It
    reads up to and including the next newline and returns the line and
    its length; it fails when the peer closed before any byte was read,
    or when the line is longer than [HTTP_LINE_LENGTH]. *)
Definition readline (fd : Z) : M (Z * cstr) :=
  st <- get ;;
  match fds st !! fd with
  | None => ret (-1, [])
  | Some s =>
      let '(line, rest) := take_line (s_in s) in
      put_sock fd (set_in rest s) ;;
      if at_end line then ret (0, [])
      else if HTTP_LINE_LENGTH <? strlen line then ret (-1, [])
      else ret (strlen line, line)
  end.

Fixpoint skip_pause (ws : list wire) : list wire :=
  match ws with
  | Pause :: r => skip_pause r
  | _ => ws
  end.

(** At most [n] bytes of what has arrived, up to the next pause. *)
Fixpoint take_run (n : nat) (ws : list wire) : cstr * list wire :=
  match n, ws with
  | S k, Octet c :: r => let '(l, r') := take_run k r in (c :: l, r')
  | _, _ => ([], ws)
  end.

(** Modelled from the spec: [safe_read] of utils.c is not under src/: a
    blocking [read] of at most [count] bytes. It returns what has
    arrived, 0 at the peer's close (and for a count of 0), -1 on a bad
    descriptor. *)
Definition safe_read (fd : Z) (count : Z) : M (Z * cstr) :=
  st <- get ;;
  match fds st !! fd with
  | None => ret (-1, [])
  | Some s =>
      if count <=? 0 then ret (0, [])
      else
        let '(got, rest) := take_run (Z.to_nat count) (skip_pause (s_in s)) in
        put_sock fd (set_in rest s) ;;
        ret (strlen got, got)
  end.

(** Modelled from the spec: [safe_write] of utils.c is not under src/: a
    blocking [write] of the whole of [data]; -1 when the peer fails the
    write or the descriptor is bad. *)
Definition safe_write (fd : Z) (data : cstr) : M Z :=
  st <- get ;;
  match fds st !! fd with
  | None => ret (-1)
  | Some s =>
      match s_wr s with
      | WFail :: k => put_sock fd (wrote [] k s) ;; ret (-1)
      | _ :: k => put_sock fd (wrote data k s) ;; ret (strlen data)
      | [] => put_sock fd (wrote data [] s) ;; ret (strlen data)
      end
  end.

(** Modelled from the spec: [write_message] of sock.c is not under src/:
    it formats like [printf] and writes the text; the callers below pass
    the formatted text. *)
Definition write_message (fd : Z) (formatted : cstr) : M Z :=
  safe_write fd formatted.

(** Modelled from the spec: [chomp] of utils.c is not under src/: it
    strips the carriage returns and newlines at the end of the buffer and
    returns how many it removed. *)
Definition chomp (buffer : cstr) : Z * cstr :=
  let '(cut, kept) :=
    span (fun c => ascii_eqb c CR || ascii_eqb c LF) (rev buffer) in
  (strlen cut, rev kept).

(** Modelled from the spec: [httperr] of utils.c is not under src/: it
    renders an HTTP error response for the client and sets
    [response_message_sent]. *)
Definition httperr (status : Z) (msg : cstr) : M Z :=
  st <- get ;;
  emit (EvHttpErr status msg) ;;
  r <- safe_write (client_fd (conn st)) (http_message status msg) ;;
  modify_conn (set_response_message_sent true) ;;
  ret r.

(** Modelled from the spec: [showstats] of stats.c is not under src/: the
    stats renderer writes its own response. *)
Definition showstats : M Z :=
  st <- get ;;
  emit EvShowStats ;;
  safe_write (client_fd (conn st)) stats_page.

Definition update_stats (k : stat_kind) : M unit := emit (EvStat k).

(** Modelled from the spec: [opensock] of sock.c is not under src/: it
    resolves the name and connects, returning the new descriptor or a
    negative value. *)
Definition opensock (host : cstr) (port : Z) : M Z :=
  match dial host port with
  | Some (fd, s) =>
      if fd <? 0 then ret fd
      else emit (EvDial host port fd) ;; put_sock fd s ;; ret fd
  | None => ret (-1)
  end.

Definition socket_nonblocking (fd : Z) : M unit :=
  st <- get ;;
  match fds st !! fd with
  | Some s => put_sock fd (set_nonblock true s)
  | None => ret tt
  end.

Definition socket_blocking (fd : Z) : M unit :=
  st <- get ;;
  match fds st !! fd with
  | Some s => put_sock fd (set_nonblock false s)
  | None => ret tt
  end.

(** Modelled from the spec: [initialize_conn] and [destroy_conn] of
    conns.c are not under src/: a new connection has no server handle,
    empty buffers and cleared flags. *)
Definition initialize_conn (fd : Z) : conn_s :=
  {| client_fd := fd; server_fd := -1; cbuffer := []; sbuffer := [];
     request_line := []; connect_method := false;
     response_message_sent := false;
     protocol_major := 0; protocol_minor := 0 |}.

Definition destroy_conn : M unit := emit EvDestroy.

(** *** Buffers (buffer.c) *)

Definition BUFFER_SIZE (b : cstr) : Z := strlen b.

(** Modelled from the spec: [read_buffer] of buffer.c is not under src/: a
    non-blocking read into the free room of the buffer. It returns the
    number of bytes added, 0 when nothing has arrived or the buffer is
    full, and a negative value once the peer has closed. *)
Definition read_buffer (fd : Z) (b : cstr) : M (Z * cstr) :=
  st <- get ;;
  match fds st !! fd with
  | None => ret (-1, b)
  | Some s =>
      if MAXBUFFSIZE <=? BUFFER_SIZE b then ret (0, b)
      else
        match s_in s with
        | [] => ret (-1, b)
        | Pause :: r => put_sock fd (set_in r s) ;; ret (0, b)
        | _ =>
            let '(got, rest) :=
              take_run (Z.to_nat (MAXBUFFSIZE - BUFFER_SIZE b)) (s_in s) in
            put_sock fd (set_in rest s) ;;
            ret (strlen got, b ++ got)
        end
  end.

(** Modelled from the spec: [write_buffer] of buffer.c is not under src/:
    one write from the head of the buffer; the buffer advances by what
    the peer took. It returns that count, 0 when the peer took nothing,
    and a negative value on a write error. *)
Definition write_buffer (fd : Z) (b : cstr) : M (Z * cstr) :=
  st <- get ;;
  match fds st !! fd with
  | None => ret (-1, b)
  | Some s =>
      if BUFFER_SIZE b =? 0 then ret (0, b)
      else
        match s_wr s with
        | WFail :: k => put_sock fd (wrote [] k s) ;; ret (-1, b)
        | WAgain :: k => put_sock fd (wrote [] k s) ;; ret (0, b)
        | WTake n :: k =>
            put_sock fd (wrote (take n b) k s) ;;
            ret (strlen (take n b), drop n b)
        | [] => put_sock fd (wrote b [] s) ;; ret (strlen b, [])
        end
  end.

End Collaborators.

(** *** The header map (hashmap.c, vector.c) *)

Module Hashmap.

(** Modelled from the spec: hashmap.c is not under src/: a multi-entry
    map from the lowercased header name to the value bytes, in insertion
    order, with case-insensitive lookup of the first match and removal by
    key. An entry holds the [len] bytes given to [hashmap_insert], here
    the value with its terminating NUL. *)
Definition hashmap_t := list (cstr * cstr).

Definition hashmap_create : hashmap_t := [].

Definition key_is (key : cstr) (e : cstr * cstr) : bool :=
  strcasecmp (fst e) key =? 0.

Definition hashmap_insert (map : hashmap_t) (key data : cstr) : hashmap_t :=
  map ++ [(lower key, data)].

Definition hashmap_search (map : hashmap_t) (key : cstr) : Z * cstr :=
  match List.find (key_is key) map with
  | Some e => (strlen (snd e), snd e)
  | None => (0, [])
  end.

Definition hashmap_remove (map : hashmap_t) (key : cstr) : hashmap_t :=
  List.filter (fun e => negb (key_is key e)) map.

Definition hashmap_keys (map : hashmap_t) : list cstr := List.map fst map.

End Hashmap.

Import Hashmap.

(** ** [reqs.c] *)

Definition CRLF : cstr := [CR; LF].

(** [struct request_s]: the information pulled from the request line. *)
Record request_s := {
  method : cstr;
  protocol : cstr;
  host : cstr;
  port : Z;
  path : cstr
}.

Definition set_protocol (v : cstr) (r : request_s) : request_s :=
  {| method := method r; protocol := v; host := host r; port := port r;
     path := path r |}.

Definition set_host (v : cstr) (r : request_s) : request_s :=
  {| method := method r; protocol := protocol r; host := v; port := port r;
     path := path r |}.

Definition set_port (v : Z) (r : request_s) : request_s :=
  {| method := method r; protocol := protocol r; host := host r; port := v;
     path := path r |}.

Definition set_path (v : cstr) (r : request_s) : request_s :=
  {| method := method r; protocol := protocol r; host := host r; port := port r;
     path := v |}.

(** The pointers a [sscanf] call is given, and the stores it makes: the
    conversions that succeeded are written, in order, also when the call
    as a whole falls short. *)
Inductive target := HOST | PORT | PATH.

Definition assign (t : target) (v : scanned) (r : request_s) : request_s :=
  match t, v with
  | HOST, SStr s => set_host s r
  | PORT, SNum n => set_port n r
  | PATH, SStr s => set_path s r
  | _, _ => r
  end.

Fixpoint store (ts : list target) (vs : list scanned) (r : request_s) : request_s :=
  match ts, vs with
  | t :: ts', v :: vs' => store ts' vs' (assign t v r)
  | _, _ => r
  end.

Definition sscanf_into (input : cstr) (fmt : list directive) (ts : list target)
    (r : request_s) : Z * request_s :=
  let '(n, vs) := sscanf input fmt in (n, store ts vs r).

Definition nth_str (vs : list scanned) (i : nat) : cstr :=
  match vs !! i with
  | Some (SStr s) => s
  | _ => []
  end.

Definition nth_num (vs : list scanned) (i : nat) (old : Z) : Z :=
  match vs !! i with
  | Some (SNum n) => n
  | _ => old
  end.

(** Pull the information out of the URL line. A failure frees (here:
    clears) [host] and [path]. *)
Definition extract_http_url (url : cstr) (request : request_s) : Z * request_s :=
  let '(n1, r1) :=
    sscanf_into url (lit "http://" ++ [DNotIn (str ":/"); DChar ":"; DUShort; DStr])
                [HOST; PORT; PATH] request in
  if n1 =? 3 then (0, r1)
  else
    let '(n2, r2) :=
      sscanf_into url (lit "http://" ++ [DNotIn (str "/"); DStr]) [HOST; PATH] r1 in
    if n2 =? 2 then (0, set_port 80 r2)
    else
      let '(n3, r3) :=
        sscanf_into url (lit "http://" ++ [DNotIn (str ":/"); DChar ":"; DUShort])
                    [HOST; PORT] r2 in
      if n3 =? 2 then (0, set_path (str "/") r3)
      else
        let '(n4, r4) :=
          sscanf_into url (lit "http://" ++ [DNotIn (str "/")]) [HOST] r3 in
        if n4 =? 1 then (0, set_path (str "/") (set_port 80 r4))
        else (-1, set_path [] (set_host [] r4)).

(** Extract the URL from a SSL connection. *)
Definition extract_ssl_url (url : cstr) (request : request_s) : Z * request_s :=
  let '(n1, r1) :=
    sscanf_into url [DNotIn (str ":"); DChar ":"; DUShort] [HOST; PORT] request in
  if n1 =? 2 then (0, r1)
  else
    let '(n2, r2) := sscanf_into url [DStr] [HOST] r1 in
    if n2 =? 1 then (0, set_port 443 r2)
    else (-1, set_host [] r2).

Section Reqs.
Context `{Env}.

(** Read in the first line from the client. [len] is a [size_t]: a
    negative result of [readline] does not pass for [len <= 0], and
    [chomp] then works on a line that was never read; that is [None]. *)
Fixpoint read_request_line_retry (fuel : nat) : M (option Z) :=
  match fuel with
  | O => ret None
  | S fuel' =>
      st <- get ;;
      r <- readline (client_fd (conn st)) ;;
      let '(ret_, line) := r in
      let len := ret_ mod 2 ^ 64 in
      if len <=? 0 then
        modify_conn (set_request_line []) ;; ret (Some (-1))
      else if ret_ <? 0 then ret None
      else
        let '(removed, line') := chomp line in
        if removed =? len then
          modify_conn (set_request_line []) ;; read_request_line_retry fuel'
        else
          modify_conn (set_request_line (c_string line')) ;; ret (Some 0)
  end.

(** Every retry has consumed a line of at least one byte, so the bytes
    the client still has to send bound the number of retries. *)
Definition read_request_line : M (option Z) :=
  st <- get ;;
  match fds st !! client_fd (conn st) with
  | Some s => read_request_line_retry (S (length (s_in s)))
  | None => read_request_line_retry 1
  end.

(** Create a connection for HTTP connections. *)
Definition establish_http_connection (request : request_s) : M Z :=
  st <- get ;;
  r1 <- write_message (server_fd (conn st))
          (method request ++ [SP] ++ path request ++ str " HTTP/1.0" ++ CRLF) ;;
  if r1 <? 0 then ret (-1)
  else
    r2 <- write_message (server_fd (conn st)) (str "Host: " ++ host request ++ CRLF) ;;
    if r2 <? 0 then ret (-1)
    else
      r3 <- safe_write (server_fd (conn st)) (str "Connection: close" ++ CRLF) ;;
      if r3 <? 0 then ret (-1) else ret 0.

Definition SSL_CONNECTION_RESPONSE : cstr :=
  str "HTTP/1.0 200 Connection established" ++ CRLF.

Definition PROXY_AGENT : cstr :=
  str "Proxy-agent: " ++ PACKAGE ++ str "/" ++ VERSION ++ CRLF.

(** Send the response that establishes a SSL connection to the client. *)
Definition send_ssl_response : M Z :=
  st <- get ;;
  r1 <- safe_write (client_fd (conn st)) SSL_CONNECTION_RESPONSE ;;
  if r1 <? 0 then ret (-1)
  else
    r2 <- safe_write (client_fd (conn st)) PROXY_AGENT ;;
    if r2 <? 0 then ret (-1)
    else
      r3 <- safe_write (client_fd (conn st)) CRLF ;;
      if r3 <? 0 then ret (-1) else ret 0.

Definition request_line_format : list directive :=
  [DNotIn [SP]; DWhite; DNotIn [SP]; DWhite; DNotIn [SP]].

(** The gates after the URL has been parsed: the domain filter, the
    stathost, and the protocol version. *)
Definition process_request_gates (request : request_s) : M (option request_s) :=
  if filter config && negb (filter_url (host request) =? 0) then
    update_stats STAT_DENIED ;;
    httperr 404 (str "Connection to filtered domain is now allowed.") ;;
    ret None
  else if match stathost config with
          | Some sh => strcmp sh (host request) =? 0
          | None => false
          end then
    showstats ;; ret None
  else if strncasecmp (protocol request) (str "http") 4 =? 0 then
    let protocol' := memcpy (protocol request) (str "HTTP") 4 in
    let '(_, vs) := sscanf protocol' (lit "HTTP/" ++ [DUInt; DChar "."; DUInt]) in
    modify_conn (fun c =>
      set_protocol_minor (nth_num vs 1 (protocol_minor c))
        (set_protocol_major (nth_num vs 0 (protocol_major c)) c)) ;;
    ret (Some (set_protocol protocol' request))
  else ret (Some request).

(** Break the request line apart and figure out where to connect. The
    result is the request, or [None] for the NULL pointer. When the line
    has only two tokens, [protocol] is storage that was never written; it
    is modelled as the empty string. The allocations are taken to
    succeed, so the second test of [url] against the null pointer, after
    the scan, never fires and has no counterpart here. *)
Definition process_request : M (option request_s) :=
  st <- get ;;
  let '(ret_, vs) := sscanf (request_line (conn st)) request_line_format in
  let request :=
    {| method := nth_str vs 0; protocol := nth_str vs 2; host := []; port := 0;
       path := [] |} in
  let url := nth_str vs 1 in
  if ret_ <? 2 then
    httperr 400 (str "Bad Request. No request found.") ;; ret None
  else if strncasecmp url (str "http://") 7 =? 0 then
    (* Make sure the first four characters are lowercase *)
    let url := memcpy url (str "http") 4 in
    let '(r, request) := extract_http_url url request in
    if r <? 0 then
      httperr 400 (str "Bad Request. Could not parse URL.") ;; ret None
    else process_request_gates request
  else if strcmp (method request) (str "CONNECT") =? 0 then
    let '(r, request) := extract_ssl_url url request in
    if r <? 0 then
      httperr 400 (str "Bad Request. Could not parse URL.") ;; ret None
    else
      modify_conn (set_connect_method true) ;;
      process_request_gates request
  else
    httperr 400 (str "Bad Request. Unknown URL type.") ;; ret None.

End Reqs.

Definition blank_request : request_s :=
  {| method := []; protocol := []; host := []; port := 0; path := [] |}.

(** *** Client headers *)

(** The separators of the [Connection] header's value, as given to
    [strpbrk]: the parentheses, the angle brackets, the square brackets,
    the braces, at, comma, semicolon, colon, backslash, double quote,
    slash, question mark, equals, space and tab. *)
Definition CONNECTION_SEPARATORS : cstr :=
  str "()<>@,;:" ++ [BACKSLASH; DQUOTE] ++ str "/[]?={} " ++ [HT].

Definition is_separator (c : ascii) : bool := mem c CONNECTION_SEPARATORS.

Definition is_nul (c : ascii) : bool := ascii_eqb c NUL.

(** The first loop of [remove_connection_headers]: every separator of the
    C string at [data] becomes a NUL. [strpbrk] stops at the string's
    terminator. *)
Fixpoint blank_separators (data : cstr) : cstr :=
  match data with
  | [] => []
  | c :: r =>
      if is_nul c then data
      else (if is_separator c then NUL else c) :: blank_separators r
  end.

(** The second loop, with [ptr] as the bytes from [ptr] to [data + len].
    Past [data + len] the inner loop reads bytes that belong to no
    object; whatever it finds there, the outer test then ends the walk. *)
Fixpoint remove_tokens (fuel : nat) (map : hashmap_t) (ptr : cstr) : hashmap_t :=
  match fuel with
  | O => map
  | S fuel' =>
      match ptr with
      | [] => map
      | _ =>
          let '(token, after) := span (fun c => negb (is_nul c)) ptr in
          let map' := hashmap_remove map token in
          (* advance ptr past the token and its NUL, then past any NULs *)
          remove_tokens fuel' map' (snd (span is_nul (drop 1 after)))
      end
  end.

(** Extract the headers to remove. [data] are the [len] bytes of the
    [Connection] value that [hashmap_search] found. The tokens are read
    off this copy: the code walks the map's own storage, which matters
    only when a token names the [Connection] header itself. *)
Definition remove_connection_headers (hashofheaders : hashmap_t) (data : cstr)
    (len : Z) : Z * hashmap_t :=
  let data' := blank_separators data in
  (0, remove_tokens (S (Z.to_nat len)) hashofheaders (take (Z.to_nat len) data')).

Definition skipheaders : list cstr :=
  [ str "host"; str "connection"; str "keep-alive"; str "proxy-authenticate";
    str "proxy-authorization"; str "te"; str "trailers";
    str "transfer-encoding"; str "upgrade" ].

Section Headers.
Context `{Env}.

(** [pull_client_data] pulls across any client data (like in a POST).
    The loop is a do-while: its body runs before [length] is tested. *)
Fixpoint pull_client_data_loop (fuel : nat) (length : Z) : M Z :=
  match fuel with
  | O => ret (-1)
  | S fuel' =>
      st <- get ;;
      r <- safe_read (client_fd (conn st)) (Z.min MAXBUFFSIZE length) ;;
      let '(len, buffer) := r in
      if len <=? 0 then ret (-1)
      else
        w <- (if negb (response_message_sent (conn st))
              then safe_write (server_fd (conn st)) buffer
              else ret 0) ;;
        if w <? 0 then ret (-1)
        else
          let length := length - len in
          if length >? 0 then pull_client_data_loop fuel' length else ret 0
  end.

(** Every turn of the loop reads at least one byte, so [length] bounds
    the number of turns. *)
Definition pull_client_data (length : Z) : M Z :=
  pull_client_data_loop (S (Z.to_nat length)) length.

(** Add the X-Tinyproxy header to the headers sent to the server. *)
Definition add_xtinyproxy_header : M Z :=
  st <- get ;;
  if server_fd (conn st) =? -1 then ret 0
  else
    write_message (server_fd (conn st))
      (str "X-Tinyproxy: " ++ getpeer_ip (client_fd (conn st)) ++ CRLF).

(** Take a complete header line and break it apart into a key and the
    data, and insert them into the map. *)
Definition add_header_to_connection (hashofheaders : hashmap_t) (header : cstr)
    (len : Z) : Z * hashmap_t :=
  (* Get rid of the new line and return at the end *)
  let header := c_string (snd (chomp header)) in
  let '(key, sep) := span (fun c => negb (ascii_eqb c ":")) header in
  match sep with
  | [] => (-1, hashofheaders)
  | _ =>
      (* Blank out colons, spaces, and tabs. *)
      let data :=
        snd (span (fun c => ascii_eqb c ":" || ascii_eqb c SP || ascii_eqb c HT) sep) in
      (0, hashmap_insert hashofheaders key (data ++ [NUL]))
  end.

(** Read all the headers from the stream. *)
Fixpoint get_all_headers_loop (fuel : nat) (fd : Z) (hashofheaders : hashmap_t)
  : M (Z * hashmap_t) :=
  match fuel with
  | O => ret (-1, hashofheaders)
  | S fuel' =>
      r <- readline fd ;;
      let '(len, header) := r in
      if len <=? 0 then ret (-1, hashofheaders)
      else if CHECK_CRLF header len then ret (0, hashofheaders)
      else
        let '(a, map') := add_header_to_connection hashofheaders header len in
        if a <? 0 then ret (-1, map')
        else get_all_headers_loop fuel' fd map'
  end.

(** Every line read is at least one byte of the peer's, so what the peer
    still has to send bounds the number of lines. *)
Definition get_all_headers (fd : Z) (hashofheaders : hashmap_t) : M (Z * hashmap_t) :=
  st <- get ;;
  match fds st !! fd with
  | Some s => get_all_headers_loop (S (length (s_in s))) fd hashofheaders
  | None => get_all_headers_loop 1 fd hashofheaders
  end.

Definition via_tail (c : conn_s) : cstr :=
  fmt_d (protocol_major c mod 2 ^ 16) ++ str "." ++ fmt_d (protocol_minor c mod 2 ^ 16)
  ++ [SP] ++ gethostname ++ str " (" ++ PACKAGE ++ str "/" ++ VERSION ++ str ")" ++ CRLF.

(** The loop over [listofheaders]: each remaining key with the first
    value found for it. *)
Fixpoint send_headers (fd : Z) (hashofheaders : hashmap_t) (keys : list cstr) : M unit :=
  match keys with
  | [] => ret tt
  | data :: keys' =>
      let header := snd (hashmap_search hashofheaders data) in
      (if (is_anonymous_enabled =? 0) || (anonymous_search data =? 0)
       then write_message fd (data ++ str ": " ++ c_string header ++ CRLF)
       else ret 0) ;;
      send_headers fd hashofheaders keys'
  end.

(** The part of [process_client_headers] after its early returns: the
    header map is rewritten and sent to the server, and the request body
    follows. *)
Definition forward_client_headers (connptr : conn_s) (hashofheaders : hashmap_t) : M Z :=
  let hashofheaders :=
    let '(len, data) := hashmap_search hashofheaders (str "connection") in
    if len >? 0 then
      hashmap_remove (snd (remove_connection_headers hashofheaders data len))
                     (str "connection")
    else hashofheaders in
  let content_length :=
    let '(len, data) := hashmap_search hashofheaders (str "content-length") in
    if len >? 0 then atol (c_string data) else -1 in
  let '(len, data) := hashmap_search hashofheaders (str "via") in
  (if len >? 0 then
     write_message (server_fd connptr)
       (str "Via: " ++ c_string data ++ str ", " ++ via_tail connptr)
   else
     write_message (server_fd connptr) (str "Via: " ++ via_tail connptr)) ;;
  let hashofheaders :=
    if len >? 0 then hashmap_remove hashofheaders (str "via") else hashofheaders in
  (* Delete the headers listed in the skipheaders list *)
  let hashofheaders := fold_left hashmap_remove skipheaders hashofheaders in
  (* Output all the remaining headers to the remote machine. *)
  send_headers (server_fd connptr) hashofheaders (hashmap_keys hashofheaders) ;;
  (match my_domain config with
   | Some _ => add_xtinyproxy_header
   | None => ret 0
   end) ;;
  (* Write the final "blank" line to signify the end of the headers *)
  safe_write (server_fd connptr) CRLF ;;
  (* Spin here pulling the data from the client. *)
  if content_length >=? 0 then pull_client_data content_length
  else ret 0.

(** Here we loop through all the headers the client is sending. *)
Definition process_client_headers : M Z :=
  st <- get ;;
  let connptr := conn st in
  (* Get all the headers from the client in a big hash. *)
  r <- get_all_headers (client_fd connptr) hashmap_create ;;
  let '(g, hashofheaders) := r in
  if g <? 0 then ret (-1)
  else if (server_fd connptr =? -1)
          || (connect_method connptr && negb UPSTREAM_CONFIGURED) then
    (* Don't send headers if there's already an error, or if this was a
       CONNECT method (unless upstream proxy is in use.) *)
    ret 0
  else forward_client_headers connptr hashofheaders.

(** Loop through all the headers (including the response code) from the
    server. *)
Fixpoint process_server_headers_loop (fuel : nat) : M Z :=
  match fuel with
  | O => ret (-1)
  | S fuel' =>
      st <- get ;;
      r <- readline (server_fd (conn st)) ;;
      let '(len, header) := r in
      if len <=? 0 then ret (-1)
      else
        w <- safe_write (client_fd (conn st)) header ;;
        if w <? 0 then ret (-1)
        else if CHECK_CRLF header len then ret 0
        else process_server_headers_loop fuel'
  end.

Definition process_server_headers : M Z :=
  st <- get ;;
  match fds st !! server_fd (conn st) with
  | Some s => process_server_headers_loop (S (length (s_in s)))
  | None => process_server_headers_loop 1
  end.

End Headers.

(** *** The relay *)

(** How [relay_connection] leaves its loop: the two [return]s inside the
    loop, a [break], or not at all within the turns given. *)
Inductive loop_exit :=
| ExitIdle
| ExitSelectError
| ExitBreak
| ExitPending (last_access : Z).

Inductive relay_status :=
| RelayReturned
| RelayPending (last_access : Z).

(** [FD_ISSET] after [select]: the descriptor was put into the set and
    [select] left it there. *)
Definition FD_ISSET (fd : Z) (set : list Z) (left : list Z) : bool :=
  bool_decide (fd ∈ set) && bool_decide (fd ∈ left).

Section Relay.
Context `{Env}.

Definition read_into_sbuffer (fd : Z) : M Z :=
  st <- get ;;
  r <- read_buffer fd (sbuffer (conn st)) ;;
  modify_conn (set_sbuffer (snd r)) ;;
  ret (fst r).

Definition read_into_cbuffer (fd : Z) : M Z :=
  st <- get ;;
  r <- read_buffer fd (cbuffer (conn st)) ;;
  modify_conn (set_cbuffer (snd r)) ;;
  ret (fst r).

Definition write_from_cbuffer (fd : Z) : M Z :=
  st <- get ;;
  r <- write_buffer fd (cbuffer (conn st)) ;;
  modify_conn (set_cbuffer (snd r)) ;;
  ret (fst r).

Definition write_from_sbuffer (fd : Z) : M Z :=
  st <- get ;;
  r <- write_buffer fd (sbuffer (conn st)) ;;
  modify_conn (set_sbuffer (snd r)) ;;
  ret (fst r).

(** The four transfers of one turn; [true] is a [break]. *)
Definition relay_transfers (rset wset : list Z) (tk : tick) : M bool :=
  st <- get ;;
  let c := conn st in
  r1 <- (if FD_ISSET (server_fd c) rset (t_rset tk)
         then read_into_sbuffer (server_fd c) else ret 0) ;;
  if r1 <? 0 then ret true
  else
    r2 <- (if FD_ISSET (client_fd c) rset (t_rset tk)
           then read_into_cbuffer (client_fd c) else ret 0) ;;
    if r2 <? 0 then ret true
    else
      r3 <- (if FD_ISSET (server_fd c) wset (t_wset tk)
             then write_from_cbuffer (server_fd c) else ret 0) ;;
      if r3 <? 0 then ret true
      else
        r4 <- (if FD_ISSET (client_fd c) wset (t_wset tk)
               then write_from_sbuffer (client_fd c) else ret 0) ;;
        if r4 <? 0 then ret true else ret false.

Definition select_wset (c : conn_s) : list Z :=
  (if BUFFER_SIZE (sbuffer c) >? 0 then [client_fd c] else [])
  ++ (if BUFFER_SIZE (cbuffer c) >? 0 then [server_fd c] else []).

Definition select_rset (c : conn_s) : list Z :=
  (if BUFFER_SIZE (sbuffer c) <? MAXBUFFSIZE then [server_fd c] else [])
  ++ (if BUFFER_SIZE (cbuffer c) <? MAXBUFFSIZE then [client_fd c] else []).

(** The loop of [relay_connection], one [tick] a turn. The clock counts
    whole seconds, so [difftime] and the conversion of the timeout to
    [tv_sec] are exact. *)
Fixpoint relay_loop (ticks : list tick) (last_access : Z) : M loop_exit :=
  match ticks with
  | [] => ret (ExitPending last_access)
  | tk :: ticks' =>
      st <- get ;;
      let c := conn st in
      let tv_sec := idletimeout config - (t_now tk - last_access) in
      let wset := select_wset c in
      let rset := select_rset c in
      emit (EvSelect tv_sec rset wset) ;;
      if t_ret tk =? 0 then
        let tdiff := t_then tk - last_access in
        if tdiff >? idletimeout config then ret ExitIdle
        else relay_loop ticks' last_access
      else if t_ret tk <? 0 then ret ExitSelectError
      else
        (* Okay, something was actually selected so mark it. *)
        let last_access := t_then tk in
        b <- relay_transfers rset wset tk ;;
        if b then ret ExitBreak else relay_loop ticks' last_access
  end.

(** Write the remainder of the server's buffer to [fd]. *)
Fixpoint flush_sbuffer (fuel : nat) (fd : Z) : M unit :=
  match fuel with
  | O => ret tt
  | S fuel' =>
      st <- get ;;
      if BUFFER_SIZE (sbuffer (conn st)) >? 0 then
        r <- write_from_sbuffer fd ;;
        if r <? 0 then ret tt else flush_sbuffer fuel' fd
      else ret tt
  end.

(** Write the remainder of the client's buffer to [fd]. *)
Fixpoint flush_cbuffer (fuel : nat) (fd : Z) : M unit :=
  match fuel with
  | O => ret tt
  | S fuel' =>
      st <- get ;;
      if BUFFER_SIZE (cbuffer (conn st)) >? 0 then
        r <- write_from_cbuffer fd ;;
        if r <? 0 then ret tt else flush_cbuffer fuel' fd
      else ret tt
  end.

(** A write that is not an error either empties the buffer or uses up an
    entry of the peer's schedule, and the write after the last entry
    empties the buffer: the schedule bounds the turns of a flush. *)
Definition flush_fuel (fd : Z) (st : state) : nat :=
  match fds st !! fd with
  | Some s => S (length (s_wr s))
  | None => 1%nat
  end.

(** Switch the sockets into nonblocking mode and relay the bytes between
    the two connections. [clock] is the first reading of [time]. *)
Definition relay_connection (clock : Z) (ticks : list tick) : M relay_status :=
  st <- get ;;
  let connptr := conn st in
  socket_nonblocking (client_fd connptr) ;;
  socket_nonblocking (server_fd connptr) ;;
  e <- relay_loop ticks clock ;;
  match e with
  | ExitPending last_access => ret (RelayPending last_access)
  | ExitIdle | ExitSelectError => ret RelayReturned
  | ExitBreak =>
      (* Here the server has closed the connection... write the
         remainder to the client and then exit. *)
      socket_blocking (client_fd connptr) ;;
      st1 <- get ;;
      flush_sbuffer (flush_fuel (client_fd connptr) st1) (client_fd connptr) ;;
      (* Try to send any remaining data to the server if we can. *)
      socket_blocking (server_fd connptr) ;;
      st2 <- get ;;
      flush_cbuffer (flush_fuel (client_fd connptr) st2) (client_fd connptr) ;;
      ret RelayReturned
  end.

End Relay.

(** *** Connecting, and the main drive of a connection *)

Inductive ending :=
| Closed                         (* the connection was destroyed *)
| StillRelaying (last_access : Z)  (* the relay outlasts the turns given *)
| Undefined.                     (* memory that was never written is read *)

Section Drive.
Context `{Env}.

(** Establish a connection to the upstream proxy server. The request's
    path is re-written so that [establish_http_connection] can be
    reused. *)
Definition connect_to_upstream (request : request_s) : M (Z * request_s) :=
  fd <- opensock (default [] (upstream_name config)) (upstream_port config) ;;
  modify_conn (set_server_fd fd) ;;
  if fd <? 0 then
    httperr 404 (str "Unable to connect to upstream proxy.") ;;
    ret (-1, request)
  else
    st <- get ;;
    let combined_string :=
      if connect_method (conn st) then
        let len := strlen (host request) + 6 in
        snprintf len (host request ++ str ":" ++ fmt_d (port request))
      else
        let len := strlen (host request) + strlen (path request) + 14 in
        snprintf len (str "http://" ++ host request ++ str ":"
                      ++ fmt_d (port request) ++ path request) in
    let request := set_path combined_string request in
    r <- establish_http_connection request ;;
    ret (r, request).

(** The look of [connect_to_tunnel] at the client's first line: a
    [recv] with [MSG_PEEK] of at most [HTTP_LINE_LENGTH - 1] bytes. The
    call blocks until the client has sent something or has closed, and
    takes nothing off the input; the result is the text up to the first
    newline, which is only logged. [None] is the failure of [recv]: [len]
    is a [size_t], so the -1 lets the scan for the newline run through a
    buffer that was never written. (A wire is finite and ends with the
    peer's close: for a client that neither sends nor closes the call
    does not return, and nothing below it runs.) *)
Definition peek_request_line : M (option cstr) :=
  st <- get ;;
  match fds st !! client_fd (conn st) with
  | None => ret None
  | Some s =>
      let ws := skip_pause (s_in s) in
      put_sock (client_fd (conn st)) (set_in ws s) ;;
      let request_buf := fst (take_run (Z.to_nat (HTTP_LINE_LENGTH - 1)) ws) in
      ret (Some (fst (span (fun c => negb (ascii_eqb c LF)) request_buf)))
  end.

(** If tunnel has been configured then redirect any connections to it.
    [None] is the undefined scan after a failed peek. *)
Definition connect_to_tunnel : M (option Z) :=
  request_buf <- peek_request_line ;;
  match request_buf with
  | None => ret None
  | Some _ =>
      fd <- opensock (default [] (tunnel_name config)) (tunnel_port config) ;;
      modify_conn (set_server_fd fd) ;;
      if fd <? 0 then
        httperr 404 (str "Unable to connect to tunnel.") ;;
        ret (Some (-1))
      else ret (Some 0)
  end.

Definition HTTP500ERROR : cstr := str "Unable to connect to remote server.".

(** From the label [relay_proxy]. *)
Definition relay_proxy : M ending :=
  r <- relay_connection relay_clock relay_ticks ;;
  match r with
  | RelayPending last_access => ret (StillRelaying last_access)
  | RelayReturned =>
      (* All done... close everything and go home... :) *)
      destroy_conn ;; ret Closed
  end.

(** From the label [send_error]. *)
Definition send_error : M ending :=
  r <- process_client_headers ;;
  st <- get ;;
  (if r <? 0 then update_stats STAT_BADCONN else ret tt) ;;
  if (r <? 0) && negb (response_message_sent (conn st)) then
    destroy_conn ;; ret Closed
  else if response_message_sent (conn st) then
    destroy_conn ;; ret Closed
  else if negb (connect_method (conn st)) || UPSTREAM_CONFIGURED then
    r <- process_server_headers ;;
    if r <? 0 then
      update_stats STAT_BADCONN ;; destroy_conn ;; ret Closed
    else relay_proxy
  else
    r <- send_ssl_response ;;
    if r <? 0 then
      update_stats STAT_BADCONN ;; destroy_conn ;; ret Closed
    else relay_proxy.

(** From the label [internal_proxy]. *)
Definition internal_proxy : M ending :=
  r <- read_request_line ;;
  match r with
  | None => ret Undefined
  | Some r =>
      if r <? 0 then
        update_stats STAT_BADCONN ;; destroy_conn ;; ret Closed
      else
        request <- process_request ;;
        match request with
        | None =>
            st <- get ;;
            if negb (response_message_sent (conn st)) then
              update_stats STAT_BADCONN ;; destroy_conn ;; ret Closed
            else send_error
        | Some request =>
            if UPSTREAM_CONFIGURED then
              connect_to_upstream request ;; send_error
            else
              fd <- opensock (host request) (port request) ;;
              modify_conn (set_server_fd fd) ;;
              if fd <? 0 then
                httperr 500 HTTP500ERROR ;; send_error
              else
                st <- get ;;
                (if negb (connect_method (conn st))
                 then establish_http_connection request
                 else ret 0) ;;
                send_error
        end
  end.

(** This is the main drive for each connection. *)
Definition handle_connection (fd : Z) : M ending :=
  modify_conn (fun _ => initialize_conn fd) ;;
  if check_acl fd <=? 0 then
    update_stats STAT_DENIED ;;
    httperr 403 (str "You do not have authorization for using this service.") ;;
    send_error
  else if TUNNEL_CONFIGURED then
    r <- connect_to_tunnel ;;
    match r with
    | None => ret Undefined
    | Some r => if r <? 0 then internal_proxy else relay_proxy
    end
  else internal_proxy.

End Drive.

(** ** A sample environment and connection, for concrete runs *)

Module Sample.

Definition cfg : config_s :=
  {| idletimeout := 10; upstream_name := None; upstream_port := -1;
     tunnel_name := None; tunnel_port := -1; stathost := None;
     filter := false; my_domain := None |}.

Definition cfg_upstream : config_s :=
  {| idletimeout := 10; upstream_name := Some (str "up"); upstream_port := 3128;
     tunnel_name := None; tunnel_port := -1; stathost := None;
     filter := false; my_domain := None |}.

Definition peer (sends : cstr) : sock :=
  {| s_in := map Octet sends; s_out := []; s_wr := []; s_nonblock := false |}.

Definition env (c : config_s) (ticks : list tick) : Env :=
  {| MAXBUFFSIZE := 98304; PACKAGE := str "tinyproxy"; VERSION := str "1.5";
     config := c;
     check_acl := fun _ => 1;
     filter_url := fun _ => 0;
     dial := fun _ _ => Some (7, peer []);
     is_anonymous_enabled := 0;
     anonymous_search := fun _ => 0;
     gethostname := str "proxy";
     getpeer_ip := fun _ => str "10.0.0.1";
     http_message := fun status msg =>
       str "HTTP/1.0 " ++ fmt_d status ++ [SP] ++ msg ++ CRLF;
     stats_page := str "stats";
     relay_clock := 0;
     relay_ticks := ticks |}.

(** A connection on descriptor 3 whose client will send [sends]. *)
Definition accepted (sends : cstr) : state :=
  {| conn := initialize_conn 3; fds := {[ 3 := peer sends ]}; trace := [] |}.

(** The same with a server on descriptor 7 that will send [replies]. *)
Definition connected (sends replies : cstr) : state :=
  {| conn := set_server_fd 7 (initialize_conn 3);
     fds := <[ 7 := peer replies ]> {[ 3 := peer sends ]}; trace := [] |}.

Definition line (s : string) : cstr := str s ++ CRLF.

(** A connection whose request line has been read. *)
Definition with_request_line (line : cstr) (st : state) : state :=
  set_conn (set_request_line line (conn st)) st.

(** A connection that was asked for with CONNECT. *)
Definition with_connect_method (st : state) : state :=
  set_conn (set_connect_method true (conn st)) st.

End Sample.

(** Concrete relay runs. *)
Module SampleRelay.
Import Sample.


(** The client sends one byte and closes. *)
Definition close_ticks : list tick :=
  [ {| t_now := 0; t_ret := 1; t_rset := [3]; t_wset := []; t_then := 0 |};
    {| t_now := 0; t_ret := 1; t_rset := [3]; t_wset := []; t_then := 1 |} ].


(** One quiet turn: [select] times out after four seconds. *)
Definition quiet_ticks : list tick :=
  [ {| t_now := 0; t_ret := 0; t_rset := []; t_wset := []; t_then := 4 |} ].

End SampleRelay.

(** Concrete header blocks. *)
Module SampleHeaders.
Import Sample.

Definition lines : list cstr :=
  [ line "Host: example.org"; line "Connection: close, Foo";
    line "Foo: bar"; line "Accept: x" ].

Definition block : cstr := concat lines ++ CRLF.

Definition request : request_s :=
  {| method := str "GET"; protocol := str "HTTP/1.1"; host := str "example.org";
     port := 80; path := str "/" |}.

End SampleHeaders.

(** ** Notions the properties are stated with *)

(** The time of the last activity after the turns [past] of the relay
    loop: the clock after the latest [select] that reported a ready
    descriptor, or the reading taken before the loop. *)
Definition last_activity (clock : Z) (past : list tick) : Z :=
  fold_left (fun la tk => if 0 <? t_ret tk then t_then tk else la) past clock.

(** The peer never fails a write. *)
Definition takes_writes (s : sock) : Prop := WFail ∉ s_wr s.

(** The state a relay starts its loop in: both sockets non-blocking. *)
Definition relay_entry `{Env} (st : state) : state :=
  snd ((socket_nonblocking (client_fd (conn st)) ;;
        socket_nonblocking (server_fd (conn st))) st).



(** A computation that leaves a part [f] of the state as it found it. *)
Definition keeps {A X} (f : state -> X) (m : M A) : Prop :=
  forall st, f (snd (m st)) = f st.

(** The four shapes of an absolute URL as the specification words them,
    for a URL that begins with [http://]: a host [H] (a non-empty run
    without colon and slash), an optional [:P] with [P] a decimal number,
    and an optional path that begins with a slash. The result is the host,
    the port ([80] when absent) and the path (["/"] when absent); any
    other shape is [None]. *)
Definition spec_http_url_shape (url : cstr) : option (cstr * Z * cstr) :=
  let '(h, r1) := span (fun c => negb (mem c (str ":/"))) (drop 7 url) in
  match h, r1 with
  | [], _ => None
  | _, [] => Some (h, 80, str "/")
  | _, c :: r2 =>
      if ascii_eqb c "/" then Some (h, 80, r1)
      else
        let '(p, r3) := span isdigit r2 in
        match p, r3 with
        | [], _ => None
        | _, [] => Some (h, digits_value 0 p, str "/")
        | _, c' :: _ =>
            if ascii_eqb c' "/" then Some (h, digits_value 0 p, r3) else None
        end
  end.

(** The URL parser as the specification words it: it accepts exactly the
    four shapes, with the host, port and path they name. *)
Definition extract_http_url_as_specified : Prop :=
  forall url request,
    strncasecmp url (str "http://") 7 = 0 ->
    let url' := memcpy url (str "http") 4 in
    match spec_http_url_shape url' with
    | Some (h, p, pa) =>
        extract_http_url url' request
        = (0, set_path pa (set_port p (set_host h request)))
    | None => fst (extract_http_url url' request) = -1
    end.

(** The tokens of a request line: what the [sscanf] of [process_request]
    returns and stores. *)
Definition request_tokens (line : cstr) : Z * cstr * cstr * cstr :=
  let '(n, vs) := sscanf line request_line_format in
  (n, nth_str vs 0, nth_str vs 1, nth_str vs 2).

(** The request [process_request] starts from. *)
Definition fresh_request (method_ protocol_ : cstr) : request_s :=
  {| method := method_; protocol := protocol_; host := []; port := 0; path := [] |}.

(** A decimal numeral: a non-empty run of digits. *)
Definition numeral (p : cstr) : Prop :=
  p <> [] /\ Forall (fun c => isdigit c = true) p.

Definition no_space (s : cstr) : Prop := Forall (fun c => isspace c = false) s.

(** The authority form of a CONNECT target as the specification words
    it: a host [H] (a non-empty run without colon and slash), and an
    optional [:P] with [P] a decimal number; the result is the host and
    the port ([443] when absent), any other shape is [None]. *)
Definition spec_authority_form (url : cstr) : option (cstr * Z) :=
  let '(h, r) := span (fun c => negb (mem c (str ":/"))) url in
  match h, r with
  | [], _ => None
  | _, [] => Some (h, 443)
  | _, c :: p =>
      if ascii_eqb c ":" then
        let '(ds, r') := span isdigit p in
        match ds, r' with
        | _ :: _, [] => Some (h, digits_value 0 ds)
        | _, _ => None
        end
      else None
  end.

(** The CONNECT branch of [process_request] as the specification words
    it: a CONNECT request whose url does not begin with [http://] has its
    url parsed as the authority form and sets [connect_method]; and
    [connect_method] is set only for a CONNECT request whose url is an
    authority form. *)
Definition connect_as_specified : Prop :=
  forall (E : Env) st n method_ url protocol_,
    request_tokens (request_line (conn st)) = (n, method_, url, protocol_) ->
    connect_method (conn st) = false ->
    (2 <= n -> strncasecmp url (str "http://") 7 <> 0 ->
     strcmp method_ (str "CONNECT") = 0 ->
     connect_method (conn (snd (process_request st))) = true
     /\ forall h p, spec_authority_form url = Some (h, p) ->
          extract_ssl_url url (fresh_request method_ protocol_)
          = (0, set_port p (set_host h (fresh_request method_ protocol_))))
    /\ (connect_method (conn (snd (process_request st))) = true ->
        strcmp method_ (str "CONNECT") = 0 /\ spec_authority_form url <> None).

(** *** The client's header block *)

(** A line as it arrives: some bytes without a newline, then the
    newline. *)
Definition is_line (l : cstr) : Prop := exists b, l = b ++ [LF] /\ LF ∉ b.

Definition add_header (m : hashmap_t) (l : cstr) : hashmap_t :=
  snd (add_header_to_connection m l (strlen l)).

(** A header line: a line within the length limit that is not the blank
    line and has a colon. *)
Definition header_line `{Env} (l : cstr) : Prop :=
  is_line l /\ strlen l <= HTTP_LINE_LENGTH /\ CHECK_CRLF l (strlen l) = false
  /\ forall m, fst (add_header_to_connection m l (strlen l)) = 0.

(** The line that ends the headers. *)
Definition end_of_headers `{Env} (t : cstr) : Prop :=
  (t = [LF] \/ t = CRLF) /\ strlen t <= HTTP_LINE_LENGTH.


(** The map that [get_all_headers] collects from the lines. *)
Definition header_map (lines : list cstr) : hashmap_t :=
  fold_left add_header lines hashmap_create.

(** The bytes of [s] on the wire, without pauses. *)
Definition octets (s : cstr) : list wire := map Octet s.

(** The state after the client's socket [s] has been read up to [rest]. *)
Definition client_read_to (rest : list wire) (s : sock) (st : state) : state :=
  set_fds (<[client_fd (conn st) := set_in rest s]> (fds st)) st.

(** A computation after which the state is related to the one before. *)
Definition evolves {A} (R : state -> state -> Prop) (m : M A) : Prop :=
  forall st, R st (snd (m st)).

(** Descriptor [fd] is only read from and written to: what is left of its
    input is a suffix of what was, and what was written is a prefix of
    what is. *)
Definition grows (fd : Z) (st st' : state) : Prop :=
  forall s, fds st !! fd = Some s ->
    exists s', fds st' !! fd = Some s'
      /\ s_in s' `suffix_of` s_in s /\ s_out s `prefix_of` s_out s'.

(** Between two states [text] was written to descriptor [fd], whose peer
    takes the writes, and nothing else happened. *)
Definition sent_to (fd : Z) (text : cstr) (st st' : state) : Prop :=
  exists s s',
    fds st !! fd = Some s /\ fds st' = <[fd := s']> (fds st)
    /\ s_out s' = s_out s ++ text /\ s_in s' = s_in s
    /\ s_nonblock s' = s_nonblock s /\ takes_writes s'
    /\ conn st' = conn st /\ trace st' = trace st.

(** *** The header rewriting of [process_client_headers], step by step *)

Definition without_connection_tokens (h : hashmap_t) : hashmap_t :=
  let '(len, data) := hashmap_search h (str "connection") in
  if len >? 0 then
    hashmap_remove (snd (remove_connection_headers h data len)) (str "connection")
  else h.

Definition content_length_of (h : hashmap_t) : Z :=
  let '(len, data) := hashmap_search h (str "content-length") in
  if len >? 0 then atol (c_string data) else -1.

Definition via_line `{Env} (c : conn_s) (h : hashmap_t) : cstr :=
  let '(len, data) := hashmap_search h (str "via") in
  if len >? 0 then str "Via: " ++ c_string data ++ str ", " ++ via_tail c
  else str "Via: " ++ via_tail c.

Definition without_via (h : hashmap_t) : hashmap_t :=
  let '(len, data) := hashmap_search h (str "via") in
  if len >? 0 then hashmap_remove h (str "via") else h.

(** The headers that are left to forward. *)
Definition remaining_headers (h : hashmap_t) : hashmap_t :=
  fold_left hashmap_remove skipheaders (without_via (without_connection_tokens h)).

(** The keys that pass the anonymity filter. *)
Definition allowed_keys `{Env} (keys : list cstr) : list cstr :=
  List.filter (fun k => (is_anonymous_enabled =? 0) || (anonymous_search k =? 0)) keys.

Definition header_value (h : hashmap_t) (key : cstr) : cstr :=
  c_string (snd (hashmap_search h key)).

(** A header as it is written: name, colon, space, value, CRLF. *)
Definition render_header (e : cstr * cstr) : cstr :=
  fst e ++ str ": " ++ snd e ++ CRLF.

(** The client's headers that are forwarded, as names and values. *)
Definition forwarded_headers `{Env} (h : hashmap_t) : list (cstr * cstr) :=
  map (fun k => (k, header_value (remaining_headers h) k))
      (allowed_keys (hashmap_keys (remaining_headers h))).

Definition xtinyproxy_headers `{Env} (c : conn_s) : list (cstr * cstr) :=
  match my_domain config with
  | Some _ => [(str "X-Tinyproxy", getpeer_ip (client_fd c))]
  | None => []
  end.

(** How many headers of a list have the name [name], in any case. *)
Definition count_name (name : cstr) (headers : list (cstr * cstr)) : nat :=
  length (List.filter (fun e => strcasecmp (fst e) name =? 0) headers).

(** The non-empty runs of [s] between characters that satisfy [sep]:
    the tokens of a tokenizer with these separators. [cur] is the run
    being read. *)
Fixpoint runs (sep : ascii -> bool) (cur : cstr) (s : cstr) : list cstr :=
  match s with
  | [] => match cur with [] => [] | _ => [cur] end
  | c :: r =>
      if sep c then
        match cur with [] => runs sep [] r | _ => cur :: runs sep [] r end
      else runs sep (cur ++ [c]) r
  end.

(** The tokens of a [Connection] value by the separator set. *)
Definition connection_tokens (value : cstr) : list cstr :=
  runs is_separator [] value.

(** The value of the [Via] header that is sent: the client's own, if it
    sent one, then the proxy's entry. *)
Definition via_value `{Env} (c : conn_s) (h : hashmap_t) : cstr :=
  let '(len, data) := hashmap_search h (str "via") in
  let own :=
    fmt_d (protocol_major c mod 2 ^ 16) ++ str "." ++ fmt_d (protocol_minor c mod 2 ^ 16)
    ++ [SP] ++ gethostname ++ str " (" ++ PACKAGE ++ str "/" ++ VERSION ++ str ")" in
  if len >? 0 then c_string data ++ str ", " ++ own else own.

(** The headers [process_client_headers] sends for the header map [h]:
    [Via], the client's headers that remain, and [X-Tinyproxy]. *)
Definition rewritten_headers `{Env} (c : conn_s) (h : hashmap_t) : list (cstr * cstr) :=
  [(str "Via", via_value c (without_connection_tokens h))]
  ++ forwarded_headers h ++ xtinyproxy_headers c.

Definition render_headers (hs : list (cstr * cstr)) : cstr :=
  concat (map render_header hs).

(** The values of a header map as [add_header_to_connection] stores
    them: the value's bytes, without a NUL, and the terminating NUL. *)
Definition well_stored (h : hashmap_t) : Prop :=
  Forall (fun e => exists v, snd e = v ++ [NUL] /\ Forall (fun c => is_nul c = false) v) h.

(** No entry of the map has the name [name], in any case. *)
Definition absent (name : cstr) (h : hashmap_t) : Prop :=
  Forall (fun e => key_is name e = false) h.

(** The names of the hop-by-hop headers the proxy never forwards. *)
Definition hop_by_hop (name : cstr) : Prop := name ∈ skipheaders.

(** The headers of a forwarded request, in the order they are written:
    the proxy's own [Host] and [Connection], then the rewritten client
    headers. *)
Definition emitted_headers `{Env} (c : conn_s) (request : request_s) (h : hashmap_t)
  : list (cstr * cstr) :=
  [(str "Host", host request); (str "Connection", str "close")]
  ++ rewritten_headers c h.

(** The headers of a list with the name [name], in any case. *)
Definition named (name : cstr) (headers : list (cstr * cstr)) : list (cstr * cstr) :=
  List.filter (fun e => strcasecmp (fst e) name =? 0) headers.

(** Checks that decide [is_line] and [header_line] on a given line. *)
Definition is_lineb (l : cstr) : bool :=
  match rev l with
  | c :: b => ascii_eqb c LF && forallb (fun x => negb (ascii_eqb x LF)) b
  | [] => false
  end.

Definition has_colon (l : cstr) : bool :=
  match snd (span (fun c => negb (ascii_eqb c ":")) (c_string (snd (chomp l)))) with
  | [] => false
  | _ => true
  end.

Definition header_lineb `{Env} (l : cstr) : bool :=
  is_lineb l && (strlen l <=? HTTP_LINE_LENGTH) && negb (CHECK_CRLF l (strlen l))
  && has_colon l.

(** The parts of the connection object that reading leaves alone. *)
Definition conn_core (st : state) : Z * Z * bool * bool :=
  (client_fd (conn st), server_fd (conn st), connect_method (conn st),
   response_message_sent (conn st)).

(** The bytes a peer sends, whatever the pauses between them. *)
Fixpoint arrived (ws : list wire) : cstr :=
  match ws with
  | [] => []
  | Octet c :: r => c :: arrived r
  | Pause :: r => arrived r
  end.

(** ** Further notions *)

(** A line of carriage returns and a newline only, within the length
    limit: what [read_request_line] skips. *)
Definition blank_line `{Env} (l : cstr) : Prop :=
  is_line l /\ strlen l <= HTTP_LINE_LENGTH /\ Forall (fun c => c = CR \/ c = LF) l.

(** The three writes of [establish_http_connection], in order. *)
Definition request_head (request : request_s) : list cstr :=
  [ method request ++ [SP] ++ path request ++ str " HTTP/1.0" ++ CRLF;
    str "Host: " ++ host request ++ CRLF;
    str "Connection: close" ++ CRLF ].

(** More sample environments: the configuration, the peers that can be
    reached, the domain filter and the anonymity list are given. *)
Module SampleMore.
Import Sample.

Definition env_with (c : config_s) (reach : cstr -> Z -> option (Z * sock))
    (blocked : cstr -> Z) (anonymous : Z) (kept : cstr -> Z) : Env :=
  {| MAXBUFFSIZE := 98304; PACKAGE := str "tinyproxy"; VERSION := str "1.5";
     config := c;
     check_acl := fun _ => 1;
     filter_url := blocked;
     dial := reach;
     is_anonymous_enabled := anonymous;
     anonymous_search := kept;
     gethostname := str "proxy";
     getpeer_ip := fun _ => str "10.0.0.1";
     http_message := fun status msg =>
       str "HTTP/1.0 " ++ fmt_d status ++ [SP] ++ msg ++ CRLF;
     stats_page := str "stats";
     relay_clock := 0;
     relay_ticks := [] |}.

(** The access control turns every client down. *)
Definition env_denied : Env :=
  {| MAXBUFFSIZE := 98304; PACKAGE := str "tinyproxy"; VERSION := str "1.5";
     config := cfg;
     check_acl := fun _ => 0;
     filter_url := fun _ => 0;
     dial := fun _ _ => Some (7, peer []);
     is_anonymous_enabled := 0;
     anonymous_search := fun _ => 0;
     gethostname := str "proxy";
     getpeer_ip := fun _ => str "10.0.0.1";
     http_message := fun status msg =>
       str "HTTP/1.0 " ++ fmt_d status ++ [SP] ++ msg ++ CRLF;
     stats_page := str "stats";
     relay_clock := 0;
     relay_ticks := [] |}.

(** Only [Accept] is on the anonymity list. *)
Definition env_anonymous : Env :=
  env_with cfg (fun _ _ => Some (7, peer [])) (fun _ => 0) 1
    (fun k => if strcasecmp k (str "accept") =? 0 then 0 else 1).

(** The domain [blocked.test] is filtered. *)
Definition cfg_filter : config_s :=
  {| idletimeout := 10; upstream_name := None; upstream_port := -1;
     tunnel_name := None; tunnel_port := -1; stathost := None;
     filter := true; my_domain := None |}.

Definition env_filter : Env :=
  env_with cfg_filter (fun _ _ => Some (7, peer []))
    (fun h => if strcmp h (str "blocked.test") =? 0 then 1 else 0) 0 (fun _ => 0).

(** No server can be reached. *)
Definition env_unreachable (c : config_s) : Env :=
  env_with c (fun _ _ => None) (fun _ => 0) 0 (fun _ => 0).

(** Every connection is redirected to [tunnel.test:119]. *)
Definition cfg_tunnel : config_s :=
  {| idletimeout := 10; upstream_name := None; upstream_port := -1;
     tunnel_name := Some (str "tunnel.test"); tunnel_port := 119; stathost := None;
     filter := false; my_domain := None |}.

Definition env_tunnel : Env :=
  env_with cfg_tunnel (fun _ _ => Some (7, peer [])) (fun _ => 0) 0 (fun _ => 0).

Definition post_lines : list cstr :=
  [ line "Host: example.org"; line "Content-Length: 4" ].

Definition get_lines : list cstr :=
  [ line "Host: example.org"; line "Via: 1.0 cache"; line "Cookie: a=b";
    line "Accept: x" ].

End SampleMore.

(** A line of the server's header block: a line within the length limit
    that is not the blank line. *)
Definition response_line `{Env} (l : cstr) : Prop :=
  is_line l /\ strlen l <= HTTP_LINE_LENGTH /\ CHECK_CRLF l (strlen l) = false.

Definition response_lineb `{Env} (l : cstr) : bool :=
  is_lineb l && (strlen l <=? HTTP_LINE_LENGTH) && negb (CHECK_CRLF l (strlen l)).

(** *** The two streams of the relay *)

(** What is on its way from the peer on [src] to the peer on [dst]
    through the buffer [buf]: the bytes already written to [dst], the
    bytes in the buffer, and the bytes [src] has sent that are not read
    yet. *)
Definition in_transit (src dst : Z) (buf : cstr) (f : gmap Z sock) : option cstr :=
  match f !! src, f !! dst with
  | Some s, Some d => Some (s_out d ++ buf ++ arrived (s_in s))
  | _, _ => None
  end.

(** From the server to the client, through [sbuffer]. *)
Definition downstream (st : state) : option cstr :=
  in_transit (server_fd (conn st)) (client_fd (conn st)) (sbuffer (conn st)) (fds st).

(** From the client to the server, through [cbuffer]. *)
Definition upstream (st : state) : option cstr :=
  in_transit (client_fd (conn st)) (server_fd (conn st)) (cbuffer (conn st)) (fds st).

(** Between two states of the connection on the descriptors [cfd] and
    [sfd], both streams are what they were. *)
Definition conserved (cfd sfd : Z) (st st' : state) : Prop :=
  client_fd (conn st) = cfd -> server_fd (conn st) = sfd ->
  client_fd (conn st') = cfd /\ server_fd (conn st') = sfd
  /\ downstream st' = downstream st /\ upstream st' = upstream st.

(** *** What the header stage leaves alone *)

(** Between two states of the connection on the descriptors [cfd] and
    [sfd]: the connection object and the trace are the same, nothing was
    written to the client and nothing was read from the server. *)
Definition one_way (cfd sfd : Z) (st st' : state) : Prop :=
  client_fd (conn st) = cfd -> server_fd (conn st) = sfd ->
  conn st' = conn st /\ trace st' = trace st
  /\ (s_out <$> fds st' !! cfd) = (s_out <$> fds st !! cfd)
  /\ (s_in <$> fds st' !! sfd) = (s_in <$> fds st !! sfd).

(** Between two states the trace has grown, and not by [EvDestroy]. *)
Definition undestroyed (st st' : state) : Prop :=
  exists evs, trace st' = trace st ++ evs /\ EvDestroy ∉ evs.

(** A computation that ends a connection destroys it once, as its last
    act, and one that does not end it does not destroy it. *)
Definition ends_once (m : M ending) : Prop :=
  forall st,
    exists evs,
      trace (snd (m st)) = trace st ++ evs
      /\ match fst (m st) with
         | Closed => exists evs', evs = evs' ++ [EvDestroy] /\ EvDestroy ∉ evs'
         | _ => EvDestroy ∉ evs
         end.

(** The names under which [process_client_headers] takes headers out
    of the map before it forwards the rest: the tokens of the
    [Connection] value, the empty name (the tokenizer removes it when the
    value is empty or begins with a separator), [connection], [via] and
    the names of [skipheaders]. *)
Definition dropped_names (h : hashmap_t) : list cstr :=
  [] :: str "connection" :: str "via"
  :: connection_tokens (header_value h (str "connection")) ++ skipheaders.

(** * Properties *)

(** ** The model on concrete inputs *)

Example sscanf_request_line :
  sscanf (str "GET http://a/ HTTP/1.0")
         [DNotIn [SP]; DWhite; DNotIn [SP]; DWhite; DNotIn [SP]]
  = (3, [SStr (str "GET"); SStr (str "http://a/"); SStr (str "HTTP/1.0")]).
Proof. reflexivity. Qed.

Example sscanf_port :
  sscanf (str "h:8080/x") [DNotIn (str ":/"); DChar ":"; DUShort; DStr]
  = (3, [SStr (str "h"); SNum 8080; SStr (str "/x")]).
Proof. reflexivity. Qed.

Example sscanf_eof : sscanf [] [DNotIn [SP]] = (EOF, []).
Proof. reflexivity. Qed.

Example fmt_d_examples :
  fmt_d 0 = str "0" /\ fmt_d 80 = str "80" /\ fmt_d 65535 = str "65535"
  /\ fmt_d 10000 = str "10000" /\ fmt_d (-7) = str "-7".
Proof. repeat split; reflexivity. Qed.

Example extract_http_url_full :
  extract_http_url (str "http://x.test:8080/a?b") blank_request
  = (0, {| method := []; protocol := []; host := str "x.test"; port := 8080;
           path := str "/a?b" |}).
Proof. reflexivity. Qed.

Example extract_http_url_host_path :
  extract_http_url (str "http://example.org/") blank_request
  = (0, {| method := []; protocol := []; host := str "example.org"; port := 80;
           path := str "/" |}).
Proof. reflexivity. Qed.

Example extract_http_url_host_port :
  extract_http_url (str "http://h:81") blank_request
  = (0, {| method := []; protocol := []; host := str "h"; port := 81;
           path := str "/" |}).
Proof. reflexivity. Qed.

Example extract_http_url_host :
  extract_http_url (str "http://h") blank_request
  = (0, {| method := []; protocol := []; host := str "h"; port := 80;
           path := str "/" |}).
Proof. reflexivity. Qed.

Example extract_http_url_empty :
  fst (extract_http_url (str "http:///x") blank_request) = -1.
Proof. reflexivity. Qed.

Example extract_ssl_url_examples :
  extract_ssl_url (str "secure.test:443") blank_request
  = (0, set_port 443 (set_host (str "secure.test") blank_request))
  /\ extract_ssl_url (str "secure.test") blank_request
  = (0, set_port 443 (set_host (str "secure.test") blank_request)).
Proof. split; reflexivity. Qed.

(** ** What a computation leaves alone *)

Lemma keeps_ret {A X} (f : state -> X) (a : A) : keeps f (ret a).
Proof. by intros st. Qed.

Lemma keeps_get {X} (f : state -> X) : keeps f get.
Proof. by intros st. Qed.

Lemma keeps_bind {A B X} (f : state -> X) (m : M A) (k : A -> M B) :
  keeps f m -> (forall a, keeps f (k a)) -> keeps f (bind m k).
Proof.
  intros Hm Hk st. unfold bind. specialize (Hm st).
  destruct (m st) as [a st']. cbn in Hm. by rewrite Hk.
Qed.

Lemma keeps_eq {A X} (f : state -> X) (m : M A) st a st' :
  keeps f m -> m st = (a, st') -> f st' = f st.
Proof. intros Hk Hm. specialize (Hk st). by rewrite Hm in Hk. Qed.

(** One step of a proof that a computation keeps [f]: through a bind,
    into the branches of a test, or by computation for a primitive. *)
Ltac keeps_step :=
  first
    [ apply keeps_ret | apply keeps_get
    | apply keeps_bind; [|intros ?]
    | match goal with
      | |- keeps _ (if ?b then _ else _) => destruct b
      | |- keeps _ (match ?x with _ => _ end) => destruct x
      end
    | by intros ? ].


(** ** The relay *)

Section RelayFacts.
Context `{Env}.

Lemma relay_loop_cons tk ticks la st :
  relay_loop (tk :: ticks) la st =
  let st0 := log_event (EvSelect (idletimeout config - (t_now tk - la))
                          (select_rset (conn st)) (select_wset (conn st))) st in
  if t_ret tk =? 0 then
    if t_then tk - la >? idletimeout config then (ExitIdle, st0)
    else relay_loop ticks la st0
  else if t_ret tk <? 0 then (ExitSelectError, st0)
  else
    let '(b, st1) := relay_transfers (select_rset (conn st)) (select_wset (conn st)) tk st0 in
    if b then (ExitBreak, st1) else relay_loop ticks (t_then tk) st1.
Proof.
  cbn [relay_loop]. unfold bind at 1 2, get at 1, emit, modify. cbn beta iota zeta.
  destruct (t_ret tk =? 0).
  - destruct (_ >? _); reflexivity.
  - destruct (t_ret tk <? 0); [reflexivity|].
    unfold bind at 1.
    destruct (relay_transfers _ _ _ _) as [[] st1]; reflexivity.
Qed.

Lemma relay_loop_app past more la st :
  relay_loop (past ++ more) la st =
  match relay_loop past la st with
  | (ExitPending la', st') => relay_loop more la' st'
  | r => r
  end.
Proof.
  revert la st. induction past as [|tk past IH]; intros la st; [reflexivity|].
  rewrite <- app_comm_cons, !relay_loop_cons. cbn zeta.
  destruct (t_ret tk =? 0).
  - destruct (_ >? _); [reflexivity | apply IH].
  - destruct (t_ret tk <? 0); [reflexivity|].
    destruct (relay_transfers _ _ _ _) as [[] st']; [reflexivity | apply IH].
Qed.

Lemma relay_loop_pending_last_activity past la st la' st' :
  relay_loop past la st = (ExitPending la', st') ->
  la' = last_activity la past.
Proof.
  revert la st. induction past as [|tk past IH]; intros la st.
  - cbn. by intros [= <- _].
  - rewrite relay_loop_cons. cbn zeta.
    destruct (t_ret tk =? 0) eqn:E0.
    + destruct (_ >? _); [discriminate|].
      intros Hl. apply IH in Hl. subst la'.
      apply Z.eqb_eq in E0. cbn. rewrite E0. reflexivity.
    + destruct (t_ret tk <? 0) eqn:E1; [discriminate|].
      destruct (relay_transfers _ _ _ _) as [[] st1]; [discriminate|].
      intros Hl. apply IH in Hl. subst la'. cbn.
      assert ((0 <? t_ret tk) = true) as ->; [|reflexivity].
      apply Z.ltb_lt. apply Z.eqb_neq in E0. apply Z.ltb_ge in E1. lia.
Qed.

Lemma relay_connection_unfold clock ticks st :
  relay_connection clock ticks st =
  let connptr := conn st in
  match relay_loop ticks clock (relay_entry st) with
  | (ExitPending la, st1) => (RelayPending la, st1)
  | (ExitIdle, st1) | (ExitSelectError, st1) => (RelayReturned, st1)
  | (ExitBreak, st1) =>
      let sa := snd (socket_blocking (client_fd connptr) st1) in
      let sb := snd (flush_sbuffer (flush_fuel (client_fd connptr) sa) (client_fd connptr) sa) in
      let sc := snd (socket_blocking (server_fd connptr) sb) in
      let sd := snd (flush_cbuffer (flush_fuel (client_fd connptr) sc) (client_fd connptr) sc) in
      (RelayReturned, sd)
  end.
Proof.
  unfold relay_connection, relay_entry, bind, get, ret. cbn zeta.
  destruct (socket_nonblocking (client_fd (conn st)) st) as [[] sa].
  destruct (socket_nonblocking (server_fd (conn st)) sa) as [[] sb]. cbn [snd].
  destruct (relay_loop ticks clock sb) as [[] sc]; try reflexivity.
  destruct (socket_blocking _ sc) as [[] s1]. cbn [snd].
  destruct (flush_sbuffer _ _ s1) as [[] s2]. cbn [snd].
  destruct (socket_blocking _ s2) as [[] s3]. cbn [snd].
  destruct (flush_cbuffer _ _ s3) as [[] s4]. reflexivity.
Qed.

Lemma takes_writes_wrote taken e k s :
  takes_writes s -> s_wr s = e :: k -> takes_writes (wrote taken k s).
Proof.
  unfold takes_writes. intros Hs He. cbn. rewrite He in Hs.
  intros Hin. apply Hs. by right.
Qed.




Lemma takes_writes_tail taken s :
  takes_writes s -> takes_writes (wrote taken (tail (s_wr s)) s).
Proof.
  unfold takes_writes. cbn. intros Hs Hin. apply Hs.
  destruct (s_wr s); [done | by right].
Qed.

Lemma strlen_nonneg (s : cstr) : 0 <= strlen s.
Proof. unfold strlen. lia. Qed.






(** *** The trace only grows *)

Lemma keeps_trace_read_buffer fd b : keeps trace (read_buffer fd b).
Proof. unfold read_buffer. repeat keeps_step. Qed.

Lemma keeps_trace_write_buffer fd b : keeps trace (write_buffer fd b).
Proof. unfold write_buffer. repeat keeps_step. Qed.

Lemma keeps_trace_relay_transfers rset wset tk :
  keeps trace (relay_transfers rset wset tk).
Proof.
  unfold relay_transfers, read_into_sbuffer, read_into_cbuffer,
    write_from_cbuffer, write_from_sbuffer.
  repeat first [ apply keeps_trace_read_buffer | apply keeps_trace_write_buffer
               | keeps_step ].
Qed.

Lemma keeps_trace_flush_sbuffer fuel fd : keeps trace (flush_sbuffer fuel fd).
Proof.
  induction fuel as [|fuel IH]; cbn [flush_sbuffer]; [apply keeps_ret|].
  unfold write_from_sbuffer.
  repeat first [ apply IH | apply keeps_trace_write_buffer | keeps_step ].
Qed.

Lemma keeps_trace_flush_cbuffer fuel fd : keeps trace (flush_cbuffer fuel fd).
Proof.
  induction fuel as [|fuel IH]; cbn [flush_cbuffer]; [apply keeps_ret|].
  unfold write_from_cbuffer.
  repeat first [ apply IH | apply keeps_trace_write_buffer | keeps_step ].
Qed.

Lemma keeps_trace_socket_blocking fd : keeps trace (socket_blocking fd).
Proof. unfold socket_blocking. repeat keeps_step. Qed.

Lemma relay_loop_trace ticks la st e st' :
  relay_loop ticks la st = (e, st') -> exists later, trace st' = trace st ++ later.
Proof.
  revert la st. induction ticks as [|tk ticks IH]; intros la st.
  - intros [= _ <-]. exists []. by rewrite app_nil_r.
  - rewrite relay_loop_cons. cbn zeta.
    set (st0 := log_event _ st).
    assert (H0 : forall st2 later, trace st2 = trace st0 ++ later ->
                 exists later', trace st2 = trace st ++ later').
    { intros st2 later ->. subst st0. cbn. rewrite <- app_assoc. eauto. }
    destruct (t_ret tk =? 0).
    + destruct (_ >? _).
      * intros [= _ <-]. apply (H0 _ []). by rewrite app_nil_r.
      * intros Hl. apply IH in Hl as [later Hl]. eauto.
    + destruct (t_ret tk <? 0).
      * intros [= _ <-]. apply (H0 _ []). by rewrite app_nil_r.
      * pose proof (keeps_trace_relay_transfers (select_rset (conn st))
                      (select_wset (conn st)) tk st0) as Hk.
        destruct (relay_transfers _ _ _ _) as [[] st1]; cbn in Hk.
        -- intros [= _ <-]. apply (H0 _ []). by rewrite Hk, app_nil_r.
        -- intros Hl. apply IH in Hl as [later Hl]. rewrite Hk in Hl. eauto.
Qed.

Lemma relay_connection_pending clock ticks st la st1 :
  relay_connection clock ticks st = (RelayPending la, st1) <->
  relay_loop ticks clock (relay_entry st) = (ExitPending la, st1).
Proof.
  rewrite relay_connection_unfold. cbn zeta.
  destruct (relay_loop ticks clock (relay_entry st)) as [[] st2];
    split; intros [= ]; by subst.
Qed.

Lemma relay_connection_trace clock ticks st r st' :
  relay_connection clock ticks st = (r, st') ->
  forall e st1, relay_loop ticks clock (relay_entry st) = (e, st1) ->
  trace st' = trace st1.
Proof.
  rewrite relay_connection_unfold. cbn zeta. intros Hr e st1 Hl. rewrite Hl in Hr.
  destruct e; try (by injection Hr as _ <-).
  injection Hr as _ <-.
  by rewrite keeps_trace_flush_cbuffer, keeps_trace_socket_blocking,
    keeps_trace_flush_sbuffer, keeps_trace_socket_blocking.
Qed.

(** C9. While the relay is running, the next [select] is given the
    timeout [idletimeout - (now - last_activity)], where the last
    activity is the clock after the latest [select] that reported a ready
    descriptor; when [select] then times out and more than [idletimeout]
    seconds have passed since the last activity the relay returns, at
    once and without an error; and a [select] that reports a ready
    descriptor makes the clock read after it the new last activity. *)
Theorem relay_idle_timeout clock past tk future st la st1 :
  relay_connection clock past st = (RelayPending la, st1) ->
  let tv_sec := idletimeout config - (t_now tk - la) in
  let st1' :=
    log_event (EvSelect tv_sec (select_rset (conn st1)) (select_wset (conn st1))) st1 in
  la = last_activity clock past
  /\ (exists r st2 later,
        relay_connection clock (past ++ tk :: future) st = (r, st2)
        /\ trace st2 = trace st1' ++ later)
  /\ (t_ret tk = 0 -> t_then tk - la > idletimeout config ->
      relay_connection clock (past ++ tk :: future) st = (RelayReturned, st1'))
  /\ (t_ret tk = 0 -> t_then tk - la <= idletimeout config ->
      relay_connection clock (past ++ [tk]) st = (RelayPending la, st1'))
  /\ (0 < t_ret tk -> forall la' st2,
      relay_connection clock (past ++ [tk]) st = (RelayPending la', st2) ->
      la' = t_then tk).
Proof.
  intros Hp tv_sec st1'. apply relay_connection_pending in Hp.
  split; [by eapply relay_loop_pending_last_activity|].
  assert (Hstep : forall more,
            relay_loop (past ++ tk :: more) clock (relay_entry st) =
            if t_ret tk =? 0 then
              if t_then tk - la >? idletimeout config then (ExitIdle, st1')
              else relay_loop more la st1'
            else if t_ret tk <? 0 then (ExitSelectError, st1')
            else
              let '(b, st2) := relay_transfers (select_rset (conn st1))
                                 (select_wset (conn st1)) tk st1' in
              if b then (ExitBreak, st2) else relay_loop more (t_then tk) st2).
  { intros more. by rewrite relay_loop_app, Hp, relay_loop_cons. }
  split; [|split; [|split]].
  - destruct (relay_connection clock (past ++ tk :: future) st) as [r st2] eqn:Er.
    destruct (relay_loop (past ++ tk :: future) clock (relay_entry st)) as [e st3] eqn:El.
    pose proof (relay_connection_trace _ _ _ _ _ Er _ _ El) as Ht.
    exists r, st2. rewrite Ht. rewrite Hstep in El.
    assert (Hfin : exists later, trace st3 = trace st1' ++ later);
      [|destruct Hfin as [l Hl]; by exists l].
    destruct (t_ret tk =? 0).
    + destruct (_ >? _).
      * injection El as _ <-. exists []. by rewrite app_nil_r.
      * by apply relay_loop_trace in El.
    + destruct (t_ret tk <? 0).
      * injection El as _ <-. exists []. by rewrite app_nil_r.
      * pose proof (keeps_trace_relay_transfers (select_rset (conn st1))
                      (select_wset (conn st1)) tk st1') as Hk.
        destruct (relay_transfers _ _ _ _) as [[] st4]; cbn in Hk.
        -- injection El as _ <-. exists []. by rewrite Hk, app_nil_r.
        -- apply relay_loop_trace in El as [l Hl]. rewrite Hk in Hl. eauto.
  - intros H0 Hgt. rewrite relay_connection_unfold, Hstep. cbn zeta.
    rewrite H0. cbn.
    assert ((t_then tk - la >? idletimeout config) = true) as ->; [|done].
    apply Z.gtb_lt. lia.
  - intros H0 Hle. rewrite relay_connection_unfold, Hstep. cbn zeta.
    rewrite H0. cbn.
    assert ((t_then tk - la >? idletimeout config) = false) as ->; [|done].
    rewrite Z.gtb_ltb. apply Z.ltb_ge. lia.
  - intros Hpos la' st2 Hr. apply relay_connection_pending in Hr.
    rewrite Hstep in Hr.
    assert ((t_ret tk =? 0) = false) as E0 by (apply Z.eqb_neq; lia).
    assert ((t_ret tk <? 0) = false) as E1 by (apply Z.ltb_ge; lia).
    rewrite E0, E1 in Hr.
    destruct (relay_transfers _ _ _ _) as [[] st4]; [discriminate|].
    cbn in Hr. by injection Hr as <- _.
Qed.

End RelayFacts.

(** *** Concrete relay runs *)



(** After a [break], what is left in the client's buffer goes to the
    client's own socket: the second flush loop is given [client_fd]. The
    client sends a byte and closes; the byte comes back to it and the
    server receives nothing. *)
Example relay_client_buffer_run :
  let E := Sample.env Sample.cfg [] in
  let st := Sample.connected (str "y") [] in
  let st2 := snd (relay_connection 0 SampleRelay.close_ticks st) in
  (s_out <$> fds st2 !! 3) = Some (str "y")
  /\ (s_out <$> fds st2 !! 7) = Some []
  /\ cbuffer (conn st2) = [].
Proof. vm_compute. repeat split; reflexivity. Qed.

Lemma relay_idle_timeout_witness :
  let E := Sample.env Sample.cfg [] in
  let st := Sample.connected [] [] in
  let tk := {| t_now := 4; t_ret := 0; t_rset := []; t_wset := []; t_then := 11 |} in
  let st1 := snd (relay_connection 0 SampleRelay.quiet_ticks st) in
  relay_connection 0 (SampleRelay.quiet_ticks ++ [tk]) st
  = (RelayReturned, log_event (EvSelect (10 - (4 - 0)) [7; 3] []) st1).
Proof.
  intros E st tk st1.
  refine (proj1 (proj2 (proj2 (relay_idle_timeout (H:=E) 0 SampleRelay.quiet_ticks tk []
                                 st 0 st1 _))) _ _).
  - vm_compute. reflexivity.
  - reflexivity.
  - vm_compute. reflexivity.
Defined.

(** ** Parsing the request line *)

Lemma span_app p (a b : cstr) :
  Forall (fun c => p c = true) a ->
  (forall c r, b = c :: r -> p c = false) ->
  span p (a ++ b) = (a, b).
Proof.
  intros Ha Hb. induction Ha as [|c a Hc Ha IH]; cbn.
  - destruct b as [|c r]; [done|]. cbn. by rewrite (Hb c r eq_refl).
  - by rewrite Hc, IH.
Qed.

Lemma span_inv p (s a b : cstr) :
  span p s = (a, b) ->
  s = a ++ b /\ Forall (fun c => p c = true) a
  /\ (forall c r, b = c :: r -> p c = false).
Proof.
  revert a b. induction s as [|x s IH]; intros a b; cbn.
  - intros [= <- <-]. by repeat split.
  - destruct (p x) eqn:Ex.
    + destruct (span p s) as [t r]. intros [= <- <-].
      destruct (IH t r eq_refl) as (-> & Ht & Hr). repeat split; auto.
    + intros [= <- <-]. repeat split; auto. by intros c r [= <- _].
Qed.

Lemma span_all p (a : cstr) :
  Forall (fun c => p c = true) a -> span p a = (a, []).
Proof.
  intros Ha. rewrite <- (app_nil_r a) at 1. by apply span_app.
Qed.

Lemma ascii_eqb_refl c : ascii_eqb c c = true.
Proof. apply Ascii.eqb_refl. Qed.

Lemma ascii_eqb_eq a b : ascii_eqb a b = true <-> a = b.
Proof. apply Ascii.eqb_eq. Qed.

Lemma scan_lit (s : cstr) fmt rest done :
  scan (map DChar s ++ fmt) (s ++ rest) done = scan fmt rest done.
Proof.
  induction s as [|c s IH]; [done|]. cbn. by rewrite ascii_eqb_refl.
Qed.

(** The characters that [tolower] maps to a non-letter are that
    non-letter. *)
Lemma tolower_fixed x c :
  isupper c = false -> (97 <=? code c) && (code c <=? 122) = false ->
  tolower x = c -> x = c.
Proof.
  intros Hu Hl. unfold tolower. destruct (isupper x) eqn:Ex.
  - intros <-. exfalso. revert Hl.
    unfold isupper in Ex. apply andb_true_iff in Ex as [E1 E2].
    apply Z.leb_le in E1, E2.
    assert (Hc : code (ascii_of_N (N_of_ascii x + 32)) = code x + 32).
    { unfold code in *. rewrite N_ascii_embedding by lia. lia. }
    rewrite Hc. intros Hl. apply andb_false_iff in Hl as [Hl|Hl].
    + apply Z.leb_gt in Hl. lia.
    + apply Z.leb_gt in Hl. lia.
  - done.
Qed.

Lemma tolower_lower_letter x c :
  (97 <=? code c) && (code c <=? 122) = true ->
  ascii_eqb (tolower x) (tolower c) = true -> tolower x = c.
Proof.
  intros Hc He. apply ascii_eqb_eq in He. rewrite He.
  unfold tolower, isupper. apply andb_true_iff in Hc as [H1 H2].
  apply Z.leb_le in H1, H2.
  assert ((code c <=? 90) = false) as -> by (apply Z.leb_gt; lia).
  by rewrite andb_false_r.
Qed.

Lemma code_inj a b : code a = code b -> a = b.
Proof.
  unfold code. intros Hc. apply N2Z.inj in Hc.
  rewrite <- (ascii_N_embedding a), <- (ascii_N_embedding b). by rewrite Hc.
Qed.

Lemma strncasecmp_cons_inv x a y b n :
  strncasecmp (x :: a) (y :: b) (S n) = 0 ->
  tolower x = tolower y /\ strncasecmp a b n = 0.
Proof.
  cbn [strncasecmp]. destruct (ascii_eqb _ _) eqn:E.
  - apply ascii_eqb_eq in E. by split.
  - intros Hc. assert (tolower x = tolower y) as Ht by (apply code_inj; lia).
    rewrite Ht, ascii_eqb_refl in E. discriminate.
Qed.

(** A URL that passes the [strncasecmp] test reads [http://] once its
    first four bytes are overwritten. *)
Lemma http_prefix_normalised url :
  strncasecmp url (str "http://") 7 = 0 ->
  memcpy url (str "http") 4 = str "http://" ++ drop 7 url.
Proof.
  intros Hc.
  destruct url as [|c1 [|c2 [|c3 [|c4 [|c5 [|c6 [|c7 rest]]]]]]];
    try (vm_compute in Hc; discriminate);
    change (str "http://") with ["h"; "t"; "t"; "p"; ":"; "/"; "/"]%char in Hc;
    repeat (apply strncasecmp_cons_inv in Hc as [? Hc]);
    try (vm_compute in Hc; discriminate).
  assert (c5 = ":"%char) as -> by (by apply tolower_fixed).
  assert (c6 = "/"%char) as -> by (by apply tolower_fixed).
  assert (c7 = "/"%char) as -> by (by apply tolower_fixed).
  reflexivity.
Qed.

(** *** [sscanf], directive by directive *)

Lemma scan_notin set fmt input done tok rest :
  span (fun c => negb (mem c set)) input = (tok, rest) -> tok <> [] ->
  scan (DNotIn set :: fmt) input done = scan fmt rest (done ++ [SStr tok]).
Proof. intros Hs Ht. cbn [scan]. rewrite Hs. by destruct tok. Qed.

Lemma scan_notin_fail set fmt input done rest :
  span (fun c => negb (mem c set)) input = ([], rest) ->
  scan (DNotIn set :: fmt) input done = scan_fail (at_end input) done.
Proof. intros Hs. cbn [scan]. by rewrite Hs. Qed.

Lemma scan_str fmt (input : cstr) done :
  input <> [] -> Forall (fun c => isspace c = false) input ->
  scan (DStr :: fmt) input done = scan fmt [] (done ++ [SStr input]).
Proof.
  intros Hne Hall. cbn [scan].
  assert (Hsk : skip_space input = input).
  { unfold skip_space. destruct input as [|c r]; [done|]. cbn.
    apply Forall_cons in Hall as [Hc _]. by rewrite Hc. }
  rewrite Hsk, span_all.
  - by destruct input.
  - eapply Forall_impl; [exact Hall|]. cbn. by intros c ->.
Qed.

Lemma scan_str_end fmt done :
  scan (DStr :: fmt) [] done = scan_fail true done.
Proof. reflexivity. Qed.

Lemma isdigit_not_space c : isdigit c = true -> isspace c = false.
Proof.
  unfold isdigit, isspace. intros Hd. apply andb_true_iff in Hd as [H1 H2].
  apply Z.leb_le in H1, H2.
  assert ((code c =? 32) = false) as -> by (apply Z.eqb_neq; lia).
  assert ((code c <=? 13) = false) as -> by (apply Z.leb_gt; lia).
  by rewrite andb_false_r.
Qed.

Lemma isdigit_not_sign c :
  isdigit c = true -> ascii_eqb c "-" = false /\ ascii_eqb c "+" = false.
Proof.
  unfold isdigit. intros Hd. apply andb_true_iff in Hd as [H1 H2].
  apply Z.leb_le in H1, H2.
  split; apply not_true_is_false; intros He; apply ascii_eqb_eq in He; subst c;
    vm_compute in H1; by apply H1.
Qed.

(** [%hu] on a plain decimal number below 65536. *)
Lemma scan_ushort fmt (input p rest : cstr) done :
  span isdigit input = (p, rest) -> p <> [] -> digits_value 0 p < 65536 ->
  0 <= digits_value 0 p ->
  scan (DUShort :: fmt) input done
  = scan fmt rest (done ++ [SNum (digits_value 0 p)]).
Proof.
  intros Hs Hp Hlt Hge. cbn [scan].
  destruct (span_inv _ _ _ _ Hs) as (-> & Hd & _).
  destruct p as [|d p]; [done|]. apply Forall_cons in Hd as [Hd0 Hd].
  assert (Hsk : skip_space ((d :: p) ++ rest) = (d :: p) ++ rest).
  { unfold skip_space. cbn. by rewrite (isdigit_not_space d). }
  rewrite Hsk. unfold scan_number.
  destruct (isdigit_not_sign d Hd0) as [Hm Hpl].
  cbn [app]. rewrite Hm, Hpl. change (d :: p ++ rest) with ((d :: p) ++ rest).
  rewrite Hs. unfold strtoul_value, ULONG_MAX. cbv zeta.
  destruct (Z.ltb_spec (2 ^ 64 - 1) (digits_value 0 (d :: p))) as [Hov|_]; [lia|].
  rewrite Z.mod_small by lia. reflexivity.
Qed.

Lemma scan_char_ok c fmt rest done :
  scan (DChar c :: fmt) (c :: rest) done = scan fmt rest done.
Proof. cbn [scan]. by rewrite ascii_eqb_refl. Qed.

Lemma scan_char_other c x fmt rest done :
  x <> c -> scan (DChar c :: fmt) (x :: rest) done = scan_fail false done.
Proof.
  intros Hne. cbn [scan]. destruct (ascii_eqb x c) eqn:E; [|done].
  by apply ascii_eqb_eq in E.
Qed.

Lemma sscanf_http fmt rest :
  sscanf (str "http://" ++ rest) (lit "http://" ++ fmt) = scan fmt rest [].
Proof. unfold sscanf, lit. apply scan_lit. Qed.

Lemma digits_value_nonneg ds acc :
  0 <= acc -> Forall (fun c => isdigit c = true) ds -> 0 <= digits_value acc ds.
Proof.
  intros Ha Hd. revert acc Ha. induction Hd as [|d ds Hd0 Hd IH]; intros acc Ha; [done|].
  cbn. apply IH. unfold isdigit in Hd0. apply andb_true_iff in Hd0 as [H1 H2].
  apply Z.leb_le in H1, H2. lia.
Qed.


(** *** The absolute URL *)

Lemma not_in_colon_slash c :
  negb (mem c (str ":/")) = true <-> c <> ":"%char /\ c <> "/"%char.
Proof.
  cbn. rewrite orb_false_r, negb_true_iff, orb_false_iff.
  split.
  - intros [H1 H2]. split; intros ->; by rewrite ascii_eqb_refl in *.
  - intros [H1 H2]. split; apply not_true_is_false; intros He;
      apply ascii_eqb_eq in He; done.
Qed.

Lemma not_in_slash c : negb (mem c (str "/")) = true <-> c <> "/"%char.
Proof.
  cbn. rewrite orb_false_r, negb_true_iff.
  split.
  - intros H1 ->. by rewrite ascii_eqb_refl in *.
  - intros H1. apply not_true_is_false; intros He; by apply ascii_eqb_eq in He.
Qed.

(** Without a host (nothing, or a slash, after [http://]) every pattern
    of [extract_http_url] fails. *)
Lemma extract_http_url_no_host rest request :
  rest = [] \/ (exists r, rest = "/"%char :: r) ->
  fst (extract_http_url (str "http://" ++ rest) request) = -1.
Proof.
  intros Hr. unfold extract_http_url, sscanf_into. rewrite !sscanf_http.
  assert (H1 : span (fun c => negb (mem c (str ":/"))) rest = ([], rest)).
  { destruct Hr as [->|[r ->]]; reflexivity. }
  assert (H2 : span (fun c => negb (mem c (str "/"))) rest = ([], rest)).
  { destruct Hr as [->|[r ->]]; reflexivity. }
  rewrite !(scan_notin_fail _ _ _ _ _ H1), !(scan_notin_fail _ _ _ _ _ H2).
  destruct Hr as [->|[r ->]]; reflexivity.
Qed.

(** With a first character that is no slash, the last pattern, if it is
    reached, succeeds. *)
Lemma extract_http_url_some_host c r request :
  c <> "/"%char ->
  fst (extract_http_url (str "http://" ++ c :: r) request) = 0.
Proof.
  intros Hc. unfold extract_http_url, sscanf_into. rewrite !sscanf_http.
  destruct (scan _ (c :: r) []) as [n1 v1]. destruct (n1 =? 3); [done|].
  destruct (scan _ (c :: r) []) as [n2 v2]. destruct (n2 =? 2); [done|].
  destruct (scan _ (c :: r) []) as [n3 v3]. destruct (n3 =? 2); [done|].
  destruct (span (fun c => negb (mem c (str "/"))) (c :: r)) as [tok rest] eqn:Es.
  assert (tok <> []) as Ht.
  { cbn [span] in Es. apply not_in_slash in Hc. rewrite Hc in Es.
    destruct (span _ r). by injection Es as <- _. }
  rewrite (scan_notin _ _ _ _ _ _ Es Ht). reflexivity.
Qed.

Lemma extract_http_url_status url request :
  fst (extract_http_url url request) = 0 \/ fst (extract_http_url url request) = -1.
Proof.
  unfold extract_http_url.
  destruct (sscanf_into _ _ _ _) as [n1 r1]. destruct (n1 =? 3); [by left|].
  destruct (sscanf_into _ _ _ _) as [n2 r2]. destruct (n2 =? 2); [by left|].
  destruct (sscanf_into _ _ _ _) as [n3 r3]. destruct (n3 =? 2); [by left|].
  destruct (sscanf_into _ _ _ _) as [n4 r4]. destruct (n4 =? 1); [by left|by right].
Qed.

(** A URL of one of the four shapes, with a port below 65536 and no white
    space in the path, is parsed to the host, port and path it names. *)
Lemma extract_http_url_well_formed rest request h p pa :
  spec_http_url_shape (str "http://" ++ rest) = Some (h, p, pa) ->
  p < 65536 -> Forall (fun c => isspace c = false) pa ->
  extract_http_url (str "http://" ++ rest) request
  = (0, set_path pa (set_port p (set_host h request))).
Proof.
  unfold spec_http_url_shape. change (drop 7 (str "http://" ++ rest)) with rest.
  destruct (span _ rest) as [h0 r1] eqn:Eh.
  destruct (span_inv _ _ _ _ Eh) as (-> & Hh & Hstop).
  destruct h0 as [|c0 h0]; [done|]. set (hh := c0 :: h0) in *.
  assert (Hhne : hh <> []) by done.
  assert (Hh2 : Forall (fun c => negb (mem c (str "/")) = true) hh).
  { eapply Forall_impl; [exact Hh|]. cbn beta. intros c Hc.
    apply not_in_slash. by apply not_in_colon_slash in Hc as [_ ?]. }
  unfold extract_http_url, sscanf_into. rewrite !sscanf_http.
  destruct r1 as [|c r2].
  { (* http://H *)
    intros [= <- <- <-] _ _. rewrite !app_nil_r.
    rewrite !(scan_notin _ _ _ _ hh [] (span_all _ _ Hh) Hhne).
    rewrite !(scan_notin _ _ _ _ hh [] (span_all _ _ Hh2) Hhne).
    reflexivity. }
  destruct (ascii_eqb c "/") eqn:Ec.
  { (* http://H/Pa *)
    apply ascii_eqb_eq in Ec. subst c. intros [= <- <- <-] _ Hpa.
    rewrite !(scan_notin _ _ _ _ hh ("/"%char :: r2) Eh Hhne).
    rewrite scan_char_other by done. cbn [scan_fail app length Z.of_nat].
    change (Z.pos (Pos.of_succ_nat 0) =? 3) with false. cbn iota.
    assert (Es2 : span (fun c => negb (mem c (str "/"))) (hh ++ "/"%char :: r2)
                  = (hh, "/"%char :: r2)).
    { apply span_app; [done|]. by intros c r [= <- _]. }
    rewrite (scan_notin _ _ _ _ _ _ Es2 Hhne).
    rewrite scan_str by done. reflexivity. }
  assert (c = ":"%char) as ->.
  { specialize (Hstop c r2 eq_refl). cbn in Hstop.
    rewrite Ec in Hstop. cbn in Hstop. rewrite orb_false_r in Hstop.
    apply negb_false_iff in Hstop. by apply ascii_eqb_eq in Hstop. }
  destruct (span isdigit r2) as [pd r3] eqn:Ep.
  destruct (span_inv _ _ _ _ Ep) as (-> & Hd & Hdstop).
  destruct pd as [|d0 pd]; [done|]. set (pp := d0 :: pd) in *.
  assert (Hpne : pp <> []) by done.
  assert (Hp0 : 0 <= digits_value 0 pp) by (by apply digits_value_nonneg).
  assert (Es2 : forall tl, (forall c r, tl = c :: r -> c <> "/"%char -> False) ->
            span (fun c => negb (mem c (str "/"))) (hh ++ ":"%char :: pp ++ tl)
            = (hh ++ ":"%char :: pp, tl)).
  { intros tl Htl.
    change (hh ++ ":"%char :: pp ++ tl) with (hh ++ (":"%char :: pp) ++ tl).
    rewrite app_assoc. apply span_app.
    - apply Forall_app. split; [done|]. apply Forall_cons. split; [done|].
      eapply Forall_impl; [exact Hd|]. cbn beta. intros c Hc. apply not_in_slash.
      intros ->. vm_compute in Hc. discriminate.
    - intros c r -> . apply not_true_is_false. intros Hn. apply not_in_slash in Hn.
      by eapply Htl. }
  destruct r3 as [|c' r4].
  { (* http://H:P *)
    intros [= <- <- <-] Hlt _. rewrite !app_nil_r in *.
    rewrite !(scan_notin _ _ _ _ hh (":"%char :: pp) Eh Hhne).
    rewrite !scan_char_ok.
    rewrite !(scan_ushort _ _ pp [] _ Ep Hpne Hlt Hp0).
    rewrite scan_str_end. cbn [scan_fail app length Z.of_nat].
    change (Z.pos (Pos.of_succ_nat 1) =? 3) with false. cbn iota.
    specialize (Es2 [] ltac:(done)). rewrite app_nil_r in Es2.
    assert (Hne2 : hh ++ ":"%char :: pp <> []) by (by destruct hh).
    rewrite (scan_notin _ _ _ _ _ _ Es2 Hne2).
    rewrite scan_str_end. reflexivity. }
  destruct (ascii_eqb c' "/") eqn:Ec'; [|done].
  (* http://H:P/Pa *)
  apply ascii_eqb_eq in Ec'. subst c'. intros [= <- <- <-] Hlt Hpa.
  rewrite !(scan_notin _ _ _ _ hh (":"%char :: pp ++ "/"%char :: r4) Eh Hhne).
  rewrite !scan_char_ok.
  rewrite !(scan_ushort _ _ pp ("/"%char :: r4) _ Ep Hpne Hlt Hp0).
  rewrite scan_str by done. reflexivity.
Qed.

(** *** [process_request] *)

Section RequestFacts.
Context `{Env}.

Lemma process_request_unfold st :
  process_request st =
  let '(n, method_, url, protocol_) := request_tokens (request_line (conn st)) in
  let request := fresh_request method_ protocol_ in
  if n <? 2 then
    (httperr 400 (str "Bad Request. No request found.") ;; ret None) st
  else if strncasecmp url (str "http://") 7 =? 0 then
    let '(r, request) := extract_http_url (memcpy url (str "http") 4) request in
    if r <? 0 then
      (httperr 400 (str "Bad Request. Could not parse URL.") ;; ret None) st
    else process_request_gates request st
  else if strcmp method_ (str "CONNECT") =? 0 then
    let '(r, request) := extract_ssl_url url request in
    if r <? 0 then
      (httperr 400 (str "Bad Request. Could not parse URL.") ;; ret None) st
    else (modify_conn (set_connect_method true) ;; process_request_gates request) st
  else (httperr 400 (str "Bad Request. Unknown URL type.") ;; ret None) st.
Proof.
  unfold process_request, request_tokens, fresh_request.
  unfold bind at 1, get at 1. cbn beta iota.
  destruct (sscanf _ _) as [n vs].
  destruct (n <? 2); [reflexivity|].
  destruct (_ =? 0).
  - destruct (extract_http_url _ _) as [r rq]. by destruct (r <? 0).
  - destruct (_ =? 0); [|reflexivity].
    destruct (extract_ssl_url _ _) as [r rq]. by destruct (r <? 0).
Qed.

Lemma keeps_connect_method_safe_write fd data :
  keeps (fun st => connect_method (conn st)) (safe_write fd data).
Proof. unfold safe_write. repeat keeps_step. Qed.

Lemma keeps_connect_method_httperr status msg :
  keeps (fun st => connect_method (conn st)) (httperr status msg).
Proof.
  unfold httperr, emit.
  repeat first [apply keeps_connect_method_safe_write | keeps_step].
Qed.

Lemma keeps_connect_method_gates request :
  keeps (fun st => connect_method (conn st)) (process_request_gates request).
Proof.
  unfold process_request_gates, update_stats, showstats, emit.
  repeat first [ apply keeps_connect_method_httperr
               | apply keeps_connect_method_safe_write | keeps_step ].
Qed.

(** A blocking write: the peer takes all of it, or fails it. *)
Lemma safe_write_spec fd data st :
  match fds st !! fd with
  | None => safe_write fd data st = (-1, st)
  | Some s =>
      exists r taken,
        safe_write fd data st
        = (r, set_fds (<[fd := wrote taken (tail (s_wr s)) s]> (fds st)) st)
        /\ ((taken = data /\ r = strlen data /\ head (s_wr s) <> Some WFail)
            \/ (taken = [] /\ r = -1 /\ head (s_wr s) = Some WFail))
  end.
Proof.
  unfold safe_write, bind, get, ret, put_sock, modify. cbn beta iota.
  destruct (fds st !! fd) as [s|]; [|done].
  destruct (s_wr s) as [|[] k]; eexists _, _; (split; [reflexivity|]); cbn;
    (by left) || (by right).
Qed.

(** What [httperr] does to the state. *)
Lemma httperr_spec status msg st :
  exists r st',
    httperr status msg st = (r, st')
    /\ trace st' = trace st ++ [EvHttpErr status msg]
    /\ conn st' = set_response_message_sent true (conn st)
    /\ (forall fd, fd <> client_fd (conn st) -> fds st' !! fd = fds st !! fd)
    /\ (s_in <$> fds st' !! client_fd (conn st)) = (s_in <$> fds st !! client_fd (conn st)).
Proof.
  unfold httperr, emit, bind, get, ret, modify_conn, modify. cbn beta iota.
  set (st0 := log_event _ st).
  pose proof (safe_write_spec (client_fd (conn st)) (http_message status msg) st0) as Hw.
  change (fds st0) with (fds st) in Hw.
  destruct (fds st !! client_fd (conn st)) as [s|] eqn:Es.
  - destruct Hw as (r & taken & -> & _). eexists _, _. split; [reflexivity|]. cbn.
    repeat split.
    + intros fd Hne. by apply lookup_insert_ne.
    + by rewrite lookup_insert_eq.
  - rewrite Hw. eexists _, _. split; [reflexivity|]. cbn. by rewrite ?Es.
Qed.

(** The three ways [process_request] turns a request line down before it
    looks at a host: fewer than two tokens, a URL without a host after
    [http://], and a URL that is neither absolute nor asked for with
    CONNECT. Each answers 400 and returns NULL; nothing else happens. *)
Lemma process_request_bad_line st :
  let '(n, method_, url, protocol_) := request_tokens (request_line (conn st)) in
  n < 2
  \/ (strncasecmp url (str "http://") 7 = 0
      /\ (drop 7 url = [] \/ exists r, drop 7 url = "/"%char :: r))
  \/ (strncasecmp url (str "http://") 7 <> 0 /\ strcmp method_ (str "CONNECT") <> 0) ->
  exists st' msg,
    process_request st = (None, st')
    /\ trace st' = trace st ++ [EvHttpErr 400 msg]
    /\ conn st' = set_response_message_sent true (conn st)
    /\ (forall fd, fd <> client_fd (conn st) -> fds st' !! fd = fds st !! fd)
    /\ (s_in <$> fds st' !! client_fd (conn st)) = (s_in <$> fds st !! client_fd (conn st)).
Proof.
  rewrite process_request_unfold.
  destruct (request_tokens _) as [[[n method_] url] protocol_].
  intros Hbad. cbn zeta.
  assert (Hgo : forall msg, exists st' msg',
             (httperr 400 msg ;; ret None) st = (@None request_s, st')
             /\ trace st' = trace st ++ [EvHttpErr 400 msg']
             /\ conn st' = set_response_message_sent true (conn st)
             /\ (forall fd, fd <> client_fd (conn st) -> fds st' !! fd = fds st !! fd)
             /\ (s_in <$> fds st' !! client_fd (conn st))
                = (s_in <$> fds st !! client_fd (conn st))).
  { intros msg. destruct (httperr_spec 400 msg st) as (r & st' & He & Hrest).
    exists st', msg. unfold bind. rewrite He. by split. }
  destruct (n <? 2) eqn:En; [apply Hgo|].
  destruct Hbad as [Hn|[[Hh Hrest]|[Hh Hm]]].
  - apply Z.ltb_ge in En. lia.
  - rewrite Hh. change (0 =? 0) with true. cbn iota.
    rewrite (http_prefix_normalised _ Hh).
    pose proof (extract_http_url_no_host _ (fresh_request method_ protocol_) Hrest) as Hx.
    destruct (extract_http_url _ _) as [r rq]. cbn in Hx. subst r. apply Hgo.
  - apply Z.eqb_neq in Hh, Hm. rewrite Hh, Hm. apply Hgo.
Qed.

(** C3 (as amended). For a URL that begins, in any case, with [http://]:
    a URL of one of the four shapes, with a port below 65536 and a path
    free of white space, is parsed to the host, the port (80 when absent)
    and the path (a slash when absent) it names; the parser rejects a URL
    exactly when nothing or a slash follows [http://], and
    [process_request] then answers 400 and returns no request. Every
    other URL is accepted, whatever its shape. *)
Theorem extract_http_url_shapes url request :
  strncasecmp url (str "http://") 7 = 0 ->
  let url' := memcpy url (str "http") 4 in
  (forall h p pa,
      spec_http_url_shape url' = Some (h, p, pa) -> p < 65536 -> no_space pa ->
      extract_http_url url' request
      = (0, set_path pa (set_port p (set_host h request))))
  /\ (fst (extract_http_url url' request) = -1
      <-> drop 7 url = [] \/ exists r, drop 7 url = "/"%char :: r)
  /\ (fst (extract_http_url url' request) = -1
      \/ fst (extract_http_url url' request) = 0)
  /\ (forall st n method_ protocol_,
        request_tokens (request_line (conn st)) = (n, method_, url, protocol_) ->
        2 <= n ->
        fst (extract_http_url url' request) = -1 ->
        exists st' msg,
          process_request st = (None, st')
          /\ trace st' = trace st ++ [EvHttpErr 400 msg]).
Proof.
  intros Hh url'. subst url'. rewrite (http_prefix_normalised _ Hh).
  assert (Hrej : fst (extract_http_url (str "http://" ++ drop 7 url) request) = -1
                 <-> drop 7 url = [] \/ exists r, drop 7 url = "/"%char :: r).
  { split; [|apply extract_http_url_no_host].
    destruct (drop 7 url) as [|c r]; [by left|].
    destruct (decide (c = "/"%char)) as [->|Hc]; [right; by exists r|].
    rewrite (extract_http_url_some_host c r request Hc). done. }
  split; [|split; [exact Hrej|split]].
  - intros h p pa Hs Hp Hpa. by apply extract_http_url_well_formed.
  - destruct (extract_http_url_status (str "http://" ++ drop 7 url) request); auto.
  - intros st n method_ protocol_ Ht Hn Hx. apply Hrej in Hx.
    pose proof (process_request_bad_line st) as Hb. rewrite Ht in Hb.
    destruct Hb as (st' & msg & Hp & Htr & _); [right; left; by split|].
    by exists st', msg.
Qed.

(** The second token of a request line starts with a character that is
    not white space. *)
Lemma request_tokens_url line n m u p :
  request_tokens line = (n, m, u, p) -> 2 <= n ->
  exists c r, u = c :: r /\ isspace c = false.
Proof.
  unfold request_tokens, sscanf, request_line_format. cbn [scan].
  destruct (span _ line) as [tok1 rest1].
  destruct tok1 as [|a1 tok1].
  { unfold scan_fail, EOF. destruct (at_end line); intros [= <- _ _ _]; cbn; lia. }
  unfold skip_space at 1.
  destruct (span isspace rest1) as [sp r1] eqn:Esp. cbn [snd].
  destruct (span_inv _ _ _ _ Esp) as (_ & _ & Hstop).
  destruct (span _ r1) as [tok2 rest2] eqn:Et2.
  destruct tok2 as [|a2 tok2].
  { cbn. intros [= <- _ _ _]. lia. }
  destruct (span_inv _ _ _ _ Et2) as (-> & _ & _).
  specialize (Hstop a2 _ eq_refl).
  destruct (span _ (skip_space rest2)) as [tok3 rest3].
  destruct tok3; cbn; intros [= _ _ <- _] _; eauto.
Qed.

(** [%s] on a string that starts with a character that is not white
    space: [extract_ssl_url] cannot fail on it. *)
Lemma extract_ssl_url_succeeds c r request :
  isspace c = false -> fst (extract_ssl_url (c :: r) request) = 0.
Proof.
  intros Hc. unfold extract_ssl_url, sscanf_into, sscanf.
  destruct (scan _ (c :: r) []) as [n1 v1]. destruct (n1 =? 2); [done|].
  cbn [scan]. unfold skip_space. cbn [span]. rewrite Hc. cbn [snd].
  cbn [span]. rewrite Hc. cbn [negb].
  destruct (span _ r) as [t r']. reflexivity.
Qed.

Lemma not_colon c : negb (mem c (str ":")) = true <-> c <> ":"%char.
Proof.
  cbn. rewrite orb_false_r, negb_true_iff.
  split.
  - intros H1 ->. by rewrite ascii_eqb_refl in *.
  - intros H1. apply not_true_is_false; intros He; by apply ascii_eqb_eq in He.
Qed.

(** The authority form [H:P]. *)
Lemma extract_ssl_url_host_port (h p : cstr) request :
  h <> [] -> ":"%char ∉ h -> numeral p -> digits_value 0 p < 65536 ->
  extract_ssl_url (h ++ ":"%char :: p) request
  = (0, set_port (digits_value 0 p) (set_host h request)).
Proof.
  intros Hh Hc [Hp Hd] Hlt. unfold extract_ssl_url, sscanf_into, sscanf.
  assert (Es : span (fun c => negb (mem c (str ":"))) (h ++ ":"%char :: p)
               = (h, ":"%char :: p)).
  { apply span_app.
    - apply Forall_forall. intros c Hin. apply not_colon. intros ->. done.
    - by intros c r [= <- _]. }
  rewrite (scan_notin _ _ _ _ _ _ Es Hh), scan_char_ok.
  rewrite (scan_ushort _ p p [] _ (span_all _ _ Hd) Hp Hlt (digits_value_nonneg _ _ ltac:(done) Hd)).
  reflexivity.
Qed.

(** The authority form without a port. *)
Lemma extract_ssl_url_host_only (u : cstr) request :
  u <> [] -> ":"%char ∉ u -> no_space u ->
  extract_ssl_url u request = (0, set_port 443 (set_host u request)).
Proof.
  intros Hu Hc Hs. unfold extract_ssl_url, sscanf_into, sscanf.
  assert (Es : span (fun c => negb (mem c (str ":"))) u = (u, [])).
  { apply span_all. apply Forall_forall. intros c Hin. apply not_colon. by intros ->. }
  rewrite (scan_notin _ _ _ _ _ _ Es Hu).
  change (scan [DChar ":"%char; DUShort] [] ([] ++ [SStr u])) with (1, [SStr u]).
  change (1 =? 2) with false. cbn iota.
  rewrite scan_str by done. reflexivity.
Qed.

(** The request that passes the gates is the request that was parsed;
    only its protocol is normalised. *)
Lemma process_request_gates_request request st rq :
  fst (process_request_gates request st) = Some rq ->
  method rq = method request /\ host rq = host request
  /\ port rq = port request /\ path rq = path request.
Proof.
  unfold process_request_gates.
  destruct (_ && _).
  { unfold bind. destruct (update_stats _ st) as [u s1].
    destruct (httperr _ _ s1) as [r s2]. discriminate. }
  destruct (match stathost config with Some _ => _ | None => _ end).
  { unfold bind. destruct (showstats st) as [u s1]. discriminate. }
  destruct (_ =? 0).
  - destruct (sscanf _ _) as [n vs]. unfold bind, modify_conn, modify, ret.
    cbn. by intros [= <-].
  - unfold ret. cbn. by intros [= <-].
Qed.

(** C4 (as amended). A request whose URL does not begin with [http://]
    and whose method is CONNECT always has its URL accepted and
    [connect_method] set: a URL [H:P], with [H] not empty and without a
    colon and [P] a decimal number below 65536, gives host [H] and port
    [P]; a URL without a colon gives the URL as host and port 443.
    Conversely [process_request] sets [connect_method] only for a request
    whose method is CONNECT and whose URL does not begin with [http://],
    whatever the form of the URL. *)
Theorem connect_sets_connect_method st n method_ url protocol_ :
  request_tokens (request_line (conn st)) = (n, method_, url, protocol_) ->
  (2 <= n -> strncasecmp url (str "http://") 7 <> 0 ->
   strcmp method_ (str "CONNECT") = 0 ->
   exists request,
     extract_ssl_url url (fresh_request method_ protocol_) = (0, request)
     /\ connect_method (conn (snd (process_request st))) = true
     /\ (forall rq, fst (process_request st) = Some rq ->
           host rq = host request /\ port rq = port request)
     /\ (forall h p, url = h ++ ":"%char :: p -> h <> [] -> ":"%char ∉ h ->
           numeral p -> digits_value 0 p < 65536 ->
           host request = h /\ port request = digits_value 0 p)
     /\ (":"%char ∉ url -> no_space url ->
           host request = url /\ port request = 443))
  /\ (connect_method (conn st) = false ->
      connect_method (conn (snd (process_request st))) = true ->
      2 <= n /\ strncasecmp url (str "http://") 7 <> 0
      /\ strcmp method_ (str "CONNECT") = 0).
Proof.
  intros Ht. split.
  - intros Hn Hh Hm.
    destruct (request_tokens_url _ _ _ _ _ Ht Hn) as (c & r & -> & Hc).
    pose proof (extract_ssl_url_succeeds c r (fresh_request method_ protocol_) Hc) as Hx.
    destruct (extract_ssl_url (c :: r) _) as [x request] eqn:Ex. cbn in Hx. subst x.
    exists request. split; [done|].
    assert (Hp : process_request st
                 = (modify_conn (set_connect_method true) ;;
                    process_request_gates request) st).
    { rewrite process_request_unfold, Ht. cbn zeta.
      assert ((n <? 2) = false) as -> by (apply Z.ltb_ge; lia).
      apply Z.eqb_neq in Hh. rewrite Hh, Hm. change (0 =? 0) with true. cbn iota.
      by rewrite Ex. }
    rewrite Hp. unfold bind at 1 2, modify_conn at 1 2, modify. cbn beta iota.
    set (st1 := set_conn _ st).
    split; [|split; [|split]].
    + pose proof (keeps_connect_method_gates request st1) as Hk. cbn beta in Hk.
      by rewrite Hk.
    + intros rq Hrq. apply process_request_gates_request in Hrq. tauto.
    + intros h p Hu Hhne Hcol Hnum Hlt.
      rewrite Hu, extract_ssl_url_host_port in Ex by done. by injection Ex as <-.
    + intros Hcol Hsp.
      rewrite extract_ssl_url_host_only in Ex by done. by injection Ex as <-.
  - intros Hf Htrue. rewrite process_request_unfold, Ht in Htrue. cbn zeta in Htrue.
    assert (Herr : forall msg,
              connect_method (conn (snd ((httperr 400 msg ;; ret (@None request_s)) st)))
              = true -> False).
    { intros msg. unfold bind, ret.
      pose proof (keeps_connect_method_httperr 400 msg st) as Hk. cbn beta in Hk.
      destruct (httperr 400 msg st) as [r s1]. cbn in *. congruence. }
    destruct (n <? 2) eqn:En; [by apply Herr in Htrue|].
    apply Z.ltb_ge in En.
    destruct (strncasecmp url (str "http://") 7 =? 0) eqn:Eh.
    { destruct (extract_http_url _ _) as [r rq]. destruct (r <? 0).
      - by apply Herr in Htrue.
      - pose proof (keeps_connect_method_gates rq st) as Hk. cbn beta in Hk.
        congruence. }
    apply Z.eqb_neq in Eh.
    destruct (strcmp method_ (str "CONNECT") =? 0) eqn:Em;
      [|by apply Herr in Htrue].
    apply Z.eqb_eq in Em. done.
Qed.

End RequestFacts.

(** C3 (as stated) fails: a port followed by text that is no path is none
    of the four shapes, and the parser accepts it, with a path that does
    not begin with a slash. *)
Lemma extract_http_url_counterexample : ~ extract_http_url_as_specified.
Proof.
  intros Hc. specialize (Hc (str "http://h:80x") blank_request eq_refl).
  vm_compute in Hc. discriminate.
Qed.

Example extract_http_url_loose :
  extract_http_url (str "http://h:80x") blank_request
  = (0, set_path (str "x") (set_port 80 (set_host (str "h") blank_request)))
  /\ extract_http_url (str "http://h:/x") blank_request
  = (0, set_path (str "/x") (set_port 80 (set_host (str "h:") blank_request)))
  /\ extract_http_url (str "http://h:65616/") blank_request
  = (0, set_path (str "/") (set_port 80 (set_host (str "h") blank_request)))
  /\ extract_http_url (str "http://h:18446744073709551696/") blank_request
  = (0, set_path (str "/") (set_port 65535 (set_host (str "h") blank_request))).
Proof. repeat split; reflexivity. Qed.

(** C4 (as stated) fails: a CONNECT whose target is a path, not an
    authority, is accepted with the path as host, and sets
    [connect_method]. *)
Lemma connect_authority_counterexample : ~ connect_as_specified.
Proof.
  intros Hc.
  destruct (Hc (Sample.env Sample.cfg [])
              (Sample.with_request_line (str "CONNECT /index.html HTTP/1.0")
                 (Sample.accepted []))
              3 (str "CONNECT") (str "/index.html") (str "HTTP/1.0") eq_refl eq_refl)
    as [_ Hconv].
  destruct (Hconv eq_refl) as [_ Hform]. by apply Hform.
Qed.

(** What [extract_ssl_url] makes of targets outside the well-formed
    authority: a port of 70000 is stored in sixteen bits, a colon without
    a port stays in the host, and a path is taken as the host. *)
Example extract_ssl_url_loose :
  extract_ssl_url (str "h:70000") blank_request
  = (0, set_port 4464 (set_host (str "h") blank_request))
  /\ extract_ssl_url (str "host:") blank_request
  = (0, set_port 443 (set_host (str "host:") blank_request))
  /\ extract_ssl_url (str "/index.html") blank_request
  = (0, set_port 443 (set_host (str "/index.html") blank_request)).
Proof. repeat split; reflexivity. Qed.

Lemma extract_http_url_shapes_witness :
  extract_http_url (memcpy (str "HTTP://x.test:8080/a?b") (str "http") 4) blank_request
  = (0, set_path (str "/a?b") (set_port 8080 (set_host (str "x.test") blank_request))).
Proof.
  refine (proj1 (extract_http_url_shapes (H:=Sample.env Sample.cfg [])
                   (str "HTTP://x.test:8080/a?b") blank_request _)
            (str "x.test") 8080 (str "/a?b") _ _ _).
  - reflexivity.
  - reflexivity.
  - reflexivity.
  - unfold no_space. repeat constructor.
Defined.

Lemma connect_sets_connect_method_witness :
  let E := Sample.env Sample.cfg [] in
  let st := Sample.with_request_line (str "CONNECT secure.test:443 HTTP/1.1") (Sample.accepted []) in
  exists request,
    extract_ssl_url (str "secure.test:443")
      (fresh_request (str "CONNECT") (str "HTTP/1.1")) = (0, request)
    /\ connect_method (conn (snd (process_request st))) = true
    /\ (forall rq, fst (process_request st) = Some rq ->
          host rq = host request /\ port rq = port request)
    /\ (forall h p, str "secure.test:443" = h ++ ":"%char :: p -> h <> [] ->
          ":"%char ∉ h -> numeral p -> digits_value 0 p < 65536 ->
          host request = h /\ port request = digits_value 0 p)
    /\ (":"%char ∉ str "secure.test:443" -> no_space (str "secure.test:443") ->
          host request = str "secure.test:443" /\ port request = 443).
Proof.
  intros E st.
  refine (proj1 (connect_sets_connect_method (H:=E) st 3 (str "CONNECT")
                   (str "secure.test:443") (str "HTTP/1.1") _) _ _ _).
  - reflexivity.
  - lia.
  - vm_compute. discriminate.
  - reflexivity.
Defined.

(** ** The request target sent to an upstream proxy *)

Lemma dec_digits_length_ge fuel n acc :
  (length acc <= length (dec_digits fuel n acc))%nat.
Proof.
  revert n acc. induction fuel as [|f IH]; intros n acc; cbn; [lia|].
  destruct (n / 10 =? 0); cbn; [lia|].
  etrans; [|apply IH]. cbn. lia.
Qed.

(** A number below [10^k] prints in at most [k] digits. *)
Lemma dec_digits_length_le fuel n acc (k : nat) :
  (1 <= k)%nat -> 0 <= n < 10 ^ Z.of_nat k ->
  (length (dec_digits fuel n acc) <= length acc + k)%nat.
Proof.
  revert n acc k. induction fuel as [|f IH]; intros n acc k Hk Hn; cbn; [lia|].
  destruct (n / 10 =? 0) eqn:E; cbn; [lia|].
  apply Z.eqb_neq in E.
  destruct k as [|[|k]]; [lia| |].
  - exfalso. apply E. apply Z.div_small. change (10 ^ Z.of_nat 1) with 10 in Hn. lia.
  - etrans; [apply (IH (n / 10) _ (S k))|cbn; lia]; [lia|].
    split; [apply Z.div_pos; lia|].
    apply Z.div_lt_upper_bound; [lia|].
    replace (Z.of_nat (S (S k))) with (Z.succ (Z.of_nat (S k))) in Hn by lia.
    rewrite Z.pow_succ_r in Hn by lia. lia.
Qed.

(** With fuel for them, a number from [10^(k-1)] on prints in at least
    [k] digits. *)
Lemma dec_digits_length_lower fuel n acc (k : nat) :
  (1 <= k <= fuel)%nat -> 10 ^ (Z.of_nat k - 1) <= n ->
  (length acc + k <= length (dec_digits fuel n acc))%nat.
Proof.
  revert fuel n acc. induction k as [|k IH]; intros fuel n acc Hk Hn; [lia|].
  destruct fuel as [|f]; [lia|]. cbn [dec_digits].
  destruct k as [|k].
  - destruct (n / 10 =? 0); [cbn; lia|].
    etrans; [|apply dec_digits_length_ge]. cbn. lia.
  - replace (Z.of_nat (S (S k)) - 1) with (Z.succ (Z.of_nat (S k) - 1)) in Hn by lia.
    rewrite Z.pow_succ_r in Hn by lia.
    assert (H10 : 10 ^ (Z.of_nat (S k) - 1) <= n / 10).
    { apply Z.div_le_lower_bound; lia. }
    assert (0 < 10 ^ (Z.of_nat (S k) - 1)) by (apply Z.pow_pos_nonneg; lia).
    assert ((n / 10 =? 0) = false) as -> by (apply Z.eqb_neq; lia).
    etrans; [|apply (IH f (n / 10)); [lia|done]]. cbn. lia.
Qed.

Lemma fmt_d_port_length n : 0 <= n < 65536 -> (length (fmt_d n) <= 5)%nat.
Proof.
  intros Hn. unfold fmt_d.
  assert ((n <? 0) = false) as -> by (apply Z.ltb_ge; lia).
  apply (dec_digits_length_le _ n [] 5); [lia|]. change (10 ^ Z.of_nat 5) with 100000. lia.
Qed.

Lemma fmt_d_short_port_length n : 0 <= n < 10000 -> (length (fmt_d n) <= 4)%nat.
Proof.
  intros Hn. unfold fmt_d.
  assert ((n <? 0) = false) as -> by (apply Z.ltb_ge; lia).
  apply (dec_digits_length_le _ n [] 4); [lia|]. change (10 ^ Z.of_nat 4) with 10000. lia.
Qed.

Lemma fmt_d_long_port_length n : 10000 <= n < 65536 -> length (fmt_d n) = 5%nat.
Proof.
  intros Hn. apply Nat.le_antisymm; [apply fmt_d_port_length; lia|].
  unfold fmt_d.
  assert ((n <? 0) = false) as -> by (apply Z.ltb_ge; lia).
  apply (dec_digits_length_lower _ n [] 5).
  - split; [lia|].
    assert (13 <= Z.log2 n).
    { change 13 with (Z.log2 10000). apply Z.log2_le_mono. lia. }
    lia.
  - change (10 ^ (Z.of_nat 5 - 1)) with 10000. lia.
Qed.

Lemma snprintf_fits size (s : cstr) : strlen s <= size - 1 -> snprintf size s = s.
Proof. unfold snprintf, strlen. intros Hl. apply take_ge. lia. Qed.

(** The absolute form [http://H:P/Pa] always fits the buffer
    [connect_to_upstream] allows for it: a 16-bit port has at most five
    digits. *)
Lemma upstream_absolute_form_fits (h pa : cstr) p :
  0 <= p < 65536 ->
  snprintf (strlen h + strlen pa + 14) (str "http://" ++ h ++ str ":" ++ fmt_d p ++ pa)
  = str "http://" ++ h ++ str ":" ++ fmt_d p ++ pa.
Proof.
  intros Hp. apply snprintf_fits. unfold strlen.
  rewrite !length_app. pose proof (fmt_d_port_length p Hp). cbn [length str list_ascii_of_string].
  lia.
Qed.

(** The authority form [H:P] fits when the port has at most four
    digits. *)
Lemma upstream_authority_fits (h : cstr) p :
  0 <= p < 10000 ->
  snprintf (strlen h + 6) (h ++ str ":" ++ fmt_d p) = h ++ str ":" ++ fmt_d p.
Proof.
  intros Hp. apply snprintf_fits. unfold strlen.
  rewrite !length_app. pose proof (fmt_d_short_port_length p Hp).
  cbn [length str list_ascii_of_string]. lia.
Qed.

(** With a port of five digits the authority form loses its last
    digit. *)
Lemma upstream_authority_truncated (h : cstr) p :
  10000 <= p < 65536 ->
  snprintf (strlen h + 6) (h ++ str ":" ++ fmt_d p) = h ++ str ":" ++ take 4 (fmt_d p)
  /\ take 4 (fmt_d p) <> fmt_d p.
Proof.
  intros Hp. pose proof (fmt_d_long_port_length p Hp) as Hl. split.
  - unfold snprintf, strlen.
    replace (Z.to_nat (Z.of_nat (length h) + 6 - 1)) with (length h + 5)%nat by lia.
    rewrite take_app_add' by done. reflexivity.
  - intros He. apply (f_equal length) in He. rewrite length_take in He. lia.
Qed.

(** C2, at an input where the code departs from it: a CONNECT for port
    10000 through an upstream proxy. The request target is cut to
    [h:1000]: [snprintf] is given the size [strlen(host) + 6], which
    leaves room for a port of four digits. *)
Theorem connect_to_upstream_truncates_port :
  let E := Sample.env Sample.cfg_upstream [] in
  let st := Sample.with_connect_method (Sample.accepted []) in
  let request :=
    {| method := str "CONNECT"; protocol := str "HTTP/1.0"; host := str "h";
       port := 10000; path := [] |} in
  let '((r, request'), st') := connect_to_upstream request st in
  r = 0
  /\ path request' = str "h:1000"
  /\ (s_out <$> fds st' !! 7)
     = Some (str "CONNECT h:1000 HTTP/1.0" ++ CRLF ++ str "Host: h" ++ CRLF
             ++ str "Connection: close" ++ CRLF).
Proof. vm_compute. repeat split; reflexivity. Qed.

(** The same request for a port of four digits, and a GET, are sent
    whole. *)
Example connect_to_upstream_whole :
  let E := Sample.env Sample.cfg_upstream [] in
  let request (m : string) p pa :=
    {| method := str m; protocol := str "HTTP/1.0"; host := str "x.test";
       port := p; path := pa |} in
  (s_out <$> fds (snd (connect_to_upstream (request "CONNECT"%string 8443 [])
                         (Sample.with_connect_method (Sample.accepted []))))
     !! 7)
  = Some (str "CONNECT x.test:8443 HTTP/1.0" ++ CRLF ++ str "Host: x.test" ++ CRLF
          ++ str "Connection: close" ++ CRLF)
  /\ (s_out <$> fds (snd (connect_to_upstream (request "GET"%string 65535 (str "/a?b"))
                            (Sample.accepted []))) !! 7)
  = Some (str "GET http://x.test:65535/a?b HTTP/1.0" ++ CRLF ++ str "Host: x.test"
          ++ CRLF ++ str "Connection: close" ++ CRLF).
Proof. vm_compute. split; reflexivity. Qed.

(** ** The client's headers *)

Section HeaderFacts.
Context `{Env}.

Lemma take_line_octets (b : cstr) rest :
  LF ∉ b -> take_line (octets (b ++ [LF]) ++ rest) = (b ++ [LF], rest).
Proof.
  induction b as [|c b IH]; intros Hb.
  - reflexivity.
  - cbn. assert (ascii_eqb c LF = false) as ->.
    { apply not_true_is_false. intros He. apply ascii_eqb_eq in He. subst c.
      apply Hb. by left. }
    unfold octets in IH. rewrite IH; [done|]. intros Hin. apply Hb. by right.
Qed.

Lemma readline_line fd st s l rest :
  fds st !! fd = Some s -> s_in s = octets l ++ rest ->
  is_line l -> strlen l <= HTTP_LINE_LENGTH ->
  readline fd st = ((strlen l, l), set_fds (<[fd := set_in rest s]> (fds st)) st).
Proof.
  intros Hfd Hin (b & -> & Hb) Hlen.
  unfold readline, bind, get, ret, put_sock, modify. cbn beta iota.
  rewrite Hfd, Hin, take_line_octets by done.
  assert (at_end (b ++ [LF]) = false) as -> by (by destruct b).
  assert ((HTTP_LINE_LENGTH <? strlen (b ++ [LF])) = false) as ->
    by (apply Z.ltb_ge; lia).
  reflexivity.
Qed.

Lemma is_line_length l : is_line l -> (1 <= length l)%nat.
Proof. intros (b & -> & _). rewrite length_app. cbn. lia. Qed.

Lemma is_line_positive l : is_line l -> (strlen l <=? 0) = false.
Proof.
  intros Hl. apply is_line_length in Hl. unfold strlen. apply Z.leb_gt. lia.
Qed.

Lemma end_of_headers_line t : end_of_headers t -> is_line t /\ CHECK_CRLF t (strlen t) = true.
Proof.
  intros [[->| ->] _]; split; try reflexivity.
  - exists []. split; [done|]. apply not_elem_of_nil.
  - exists [CR]. split; [done|]. intros Hin. apply list_elem_of_singleton in Hin.
    discriminate.
Qed.

(** [get_all_headers] on a well-formed block: every line goes into the
    map, and the client's input is read up to the end of the blank
    line. *)
Lemma get_all_headers_loop_block fuel fd st s lines t rest m :
  fds st !! fd = Some s ->
  s_in s = octets (concat lines ++ t) ++ rest ->
  Forall header_line lines -> end_of_headers t ->
  (length lines < fuel)%nat ->
  get_all_headers_loop fuel fd m st
  = ((0, fold_left add_header lines m),
     set_fds (<[fd := set_in rest s]> (fds st)) st).
Proof.
  intros Hfd Hin Hl Ht. revert fuel st s m Hfd Hin.
  induction Hl as [|l lines Hl0 Hl IH]; intros fuel st s m Hfd Hin Hfuel.
  - destruct fuel as [|fuel]; [cbn in Hfuel; lia|].
    cbn [get_all_headers_loop concat app] in *. unfold bind at 1.
    destruct (end_of_headers_line t Ht) as [Htl Hcr].
    rewrite (readline_line fd st s t rest Hfd Hin Htl (proj2 Ht)).
    rewrite (is_line_positive t Htl), Hcr. reflexivity.
  - destruct fuel as [|fuel]; [cbn in Hfuel; lia|].
    cbn [get_all_headers_loop]. unfold bind at 1.
    destruct Hl0 as (Hline & Hlen & Hncr & Hadd).
    assert (Hin' : s_in s = octets l ++ (octets (concat lines ++ t) ++ rest)).
    { rewrite Hin. unfold octets. cbn [concat]. by rewrite <- !app_assoc, !map_app, <- !app_assoc. }
    rewrite (readline_line fd st s l _ Hfd Hin' Hline Hlen).
    rewrite (is_line_positive l Hline), Hncr.
    specialize (Hadd m).
    destruct (add_header_to_connection m l (strlen l)) as [a m'] eqn:Ea.
    cbn in Hadd. subst a. change (0 <? 0) with false. cbn iota.
    set (st1 := set_fds _ st).
    rewrite (IH fuel st1 (set_in (octets (concat lines ++ t) ++ rest) s) m').
    + cbn [fold_left].
      replace (add_header m l) with m' by (unfold add_header; by rewrite Ea).
      subst st1. cbn. by rewrite insert_insert_eq.
    + subst st1. cbn. apply lookup_insert_eq.
    + reflexivity.
    + cbn in Hfuel. lia.
Qed.

Lemma get_all_headers_block st s lines t rest :
  fds st !! client_fd (conn st) = Some s ->
  s_in s = octets (concat lines ++ t) ++ rest ->
  Forall header_line lines -> end_of_headers t ->
  get_all_headers (client_fd (conn st)) hashmap_create st
  = ((0, header_map lines), client_read_to rest s st).
Proof.
  intros Hfd Hin Hl Ht. unfold get_all_headers, bind, get. cbn beta iota.
  rewrite Hfd. apply get_all_headers_loop_block with (t := t); try done.
  rewrite Hin. unfold octets. rewrite length_app, length_map, length_app.
  destruct (end_of_headers_line t Ht) as [Htl _]. apply is_line_length in Htl.
  assert (length lines <= length (concat lines))%nat; [|lia].
  clear -Hl. induction Hl as [|l lines Hl0 Hl IH]; cbn; [lia|].
  destruct Hl0 as (Hline & _). apply is_line_length in Hline.
  rewrite length_app. lia.
Qed.

End HeaderFacts.

(** ** Reading and writing only *)

Lemma evolves_ret {A} R `{!Reflexive R} (a : A) : evolves R (ret a).
Proof. intros st. cbn. reflexivity. Qed.

Lemma evolves_get R `{!Reflexive R} : evolves R get.
Proof. intros st. cbn. reflexivity. Qed.

Lemma evolves_bind {A B} R `{!Transitive R} (m : M A) (k : A -> M B) :
  evolves R m -> (forall a, evolves R (k a)) -> evolves R (bind m k).
Proof.
  intros Hm Hk st. unfold bind. specialize (Hm st).
  destruct (m st) as [a st']. cbn in Hm. etrans; [exact Hm|]. apply Hk.
Qed.

Lemma evolves_eq {A} R (m : M A) st a st' :
  evolves R m -> m st = (a, st') -> R st st'.
Proof. intros He Hm. specialize (He st). by rewrite Hm in He. Qed.

#[global] Instance grows_refl fd : Reflexive (grows fd).
Proof. intros st s Hs. eauto. Qed.

#[global] Instance grows_trans fd : Transitive (grows fd).
Proof.
  intros a b c Hab Hbc s Hs.
  destruct (Hab s Hs) as (s1 & H1 & Hi1 & Ho1).
  destruct (Hbc s1 H1) as (s2 & H2 & Hi2 & Ho2).
  exists s2. split; [done|]. split; etrans; eauto.
Qed.

Lemma grows_same_fds fd st st' : fds st' = fds st -> grows fd st st'.
Proof. intros He s Hs. rewrite He. eauto. Qed.

Lemma grows_put fd fd' st s0 s1 :
  fds st !! fd' = Some s0 ->
  s_in s1 `suffix_of` s_in s0 -> s_out s0 `prefix_of` s_out s1 ->
  grows fd st (set_fds (<[fd' := s1]> (fds st)) st).
Proof.
  intros H0 Hi Ho s Hs. cbn. destruct (decide (fd = fd')) as [->|Hne].
  - rewrite lookup_insert_eq. rewrite H0 in Hs. injection Hs as <-. eauto.
  - rewrite lookup_insert_ne by done. eauto.
Qed.

Lemma skip_pause_suffix ws : skip_pause ws `suffix_of` ws.
Proof.
  induction ws as [|[c|] ws IH]; cbn; try done.
  by apply suffix_cons_r.
Qed.

Lemma take_run_suffix n ws : snd (take_run n ws) `suffix_of` ws.
Proof.
  revert ws. induction n as [|n IH]; intros ws; cbn; [by destruct ws|].
  destruct ws as [|[c|] ws]; cbn; try done.
  specialize (IH ws). destruct (take_run n ws) as [l r]. cbn in *.
  by apply suffix_cons_r.
Qed.

Lemma take_line_suffix ws : snd (take_line ws) `suffix_of` ws.
Proof.
  induction ws as [|[c|] ws IH]; cbn; try done.
  - destruct (ascii_eqb c LF); cbn.
    + apply suffix_cons_r. done.
    + destruct (take_line ws) as [l r]. cbn in *. by apply suffix_cons_r.
  - by apply suffix_cons_r.
Qed.

Section GrowFacts.
Context `{Env}.

Lemma evolves_safe_write fd fd' data : evolves (grows fd) (safe_write fd' data).
Proof.
  intros st. pose proof (safe_write_spec fd' data st) as Hw.
  destruct (fds st !! fd') as [s0|] eqn:E0.
  - destruct Hw as (r & taken & -> & _). cbn [snd].
    apply grows_put with (s0 := s0); cbn; [done..|]. by apply prefix_app_r.
  - rewrite Hw. cbn. reflexivity.
Qed.

Lemma evolves_safe_read fd fd' count : evolves (grows fd) (safe_read fd' count).
Proof.
  intros st. unfold safe_read, bind, get, ret, put_sock, modify. cbn beta iota.
  destruct (fds st !! fd') as [s0|] eqn:E0; [|cbn; reflexivity].
  destruct (count <=? 0); [cbn; reflexivity|].
  pose proof (take_run_suffix (Z.to_nat count) (skip_pause (s_in s0))) as Hs.
  destruct (take_run _ _) as [got rest]. cbn [snd] in *.
  apply grows_put with (s0 := s0); cbn; [done| |done].
  etrans; [exact Hs|apply skip_pause_suffix].
Qed.

Lemma evolves_readline fd fd' : evolves (grows fd) (readline fd').
Proof.
  intros st. unfold readline, bind, get, ret, put_sock, modify. cbn beta iota.
  destruct (fds st !! fd') as [s0|] eqn:E0; [|cbn; reflexivity].
  pose proof (take_line_suffix (s_in s0)) as Hs.
  destruct (take_line _) as [l rest]. cbn [snd] in *.
  assert (Hg : grows fd st (set_fds (<[fd' := set_in rest s0]> (fds st)) st)).
  { apply grows_put with (s0 := s0); cbn; done. }
  destruct (at_end l); [exact Hg|]. destruct (_ <? _); exact Hg.
Qed.

(** One step of a proof that a computation only reads and writes. *)
Ltac evolves_step :=
  first
    [ apply evolves_ret; apply _ | apply evolves_get; apply _
    | apply evolves_safe_write | apply evolves_safe_read | apply evolves_readline
    | apply evolves_bind; [apply _| |intros ?]
    | match goal with
      | |- evolves _ (if ?b then _ else _) => destruct b
      | |- evolves _ (match ?x with _ => _ end) => destruct x
      end ].

Lemma evolves_pull_client_data_loop fd fuel length :
  evolves (grows fd) (pull_client_data_loop fuel length).
Proof.
  revert length. induction fuel as [|fuel IH]; intros length; cbn [pull_client_data_loop].
  - apply evolves_ret. apply _.
  - repeat first [apply IH | evolves_step].
Qed.

Lemma evolves_send_headers fd fd' h keys :
  evolves (grows fd) (send_headers fd' h keys).
Proof.
  induction keys as [|k keys IH]; cbn [send_headers].
  - apply evolves_ret. apply _.
  - unfold write_message. repeat first [apply IH | evolves_step].
Qed.

Lemma evolves_get_all_headers_loop fd fuel fd' m :
  evolves (grows fd) (get_all_headers_loop fuel fd' m).
Proof.
  revert m. induction fuel as [|fuel IH]; intros m; cbn [get_all_headers_loop].
  - apply evolves_ret. apply _.
  - repeat first [apply IH | evolves_step].
Qed.

Lemma evolves_forward_client_headers fd c h :
  evolves (grows fd) (forward_client_headers c h).
Proof.
  unfold forward_client_headers, add_xtinyproxy_header, pull_client_data, write_message.
  repeat first [ apply evolves_send_headers | apply evolves_pull_client_data_loop
               | evolves_step ].
Qed.

(** [process_client_headers] only reads from and writes to sockets. *)
Lemma evolves_process_client_headers fd :
  evolves (grows fd) process_client_headers.
Proof.
  unfold process_client_headers, get_all_headers.
  repeat first [ apply evolves_get_all_headers_loop
               | apply evolves_forward_client_headers | evolves_step ].
Qed.

End GrowFacts.

(** ** Forwarding the client's headers *)

Section ForwardFacts.
Context `{Env}.

Lemma sent_to_refl fd st s :
  fds st !! fd = Some s -> takes_writes s -> sent_to fd [] st st.
Proof.
  intros Hs Ht. exists s, s. rewrite app_nil_r. repeat split; auto.
  by rewrite insert_id.
Qed.

Lemma sent_to_trans fd a b st st1 st2 :
  sent_to fd a st st1 -> sent_to fd b st1 st2 -> sent_to fd (a ++ b) st st2.
Proof.
  intros (s & s1 & Hs & Hf1 & Ho1 & Hi1 & Hn1 & Ht1 & Hc1 & Htr1)
         (s1' & s2 & Hs1 & Hf2 & Ho2 & Hi2 & Hn2 & Ht2 & Hc2 & Htr2).
  assert (s1' = s1) as ->.
  { rewrite Hf1, lookup_insert_eq in Hs1. by injection Hs1. }
  exists s, s2. repeat split; auto; try congruence.
  - by rewrite Hf2, Hf1, insert_insert_eq.
  - by rewrite Ho2, Ho1, app_assoc.
Qed.

Lemma sent_to_sock fd text st st' :
  sent_to fd text st st' -> exists s', fds st' !! fd = Some s' /\ takes_writes s'.
Proof.
  intros (s & s' & Hs & Hf & _ & _ & _ & Ht & _). exists s'. split; [|done].
  by rewrite Hf, lookup_insert_eq.
Qed.

Lemma safe_write_sent fd data st s :
  fds st !! fd = Some s -> takes_writes s ->
  exists st', safe_write fd data st = (strlen data, st') /\ sent_to fd data st st'.
Proof.
  intros Hs Ht. pose proof (safe_write_spec fd data st) as Hw. rewrite Hs in Hw.
  destruct Hw as (r & taken & Hw & [(-> & -> & _)|(_ & _ & Hf)]).
  - eexists. split; [exact Hw|]. exists s, (wrote data (tail (s_wr s)) s).
    repeat split; auto. by apply takes_writes_tail.
  - exfalso. apply Ht. destruct (s_wr s) as [|e k]; [done|]. injection Hf as ->. by left.
Qed.

Lemma send_headers_sent fd h keys st s :
  fds st !! fd = Some s -> takes_writes s ->
  exists st',
    send_headers fd h keys st = (tt, st')
    /\ sent_to fd (render_headers (map (fun k => (k, header_value h k)) (allowed_keys keys)))
         st st'.
Proof.
  revert st s. induction keys as [|k keys IH]; intros st s Hs Ht.
  - exists st. split; [done|]. by eapply sent_to_refl.
  - cbn [send_headers allowed_keys List.filter]. unfold bind at 1.
    destruct ((is_anonymous_enabled =? 0) || (anonymous_search k =? 0)).
    + unfold write_message.
      destruct (safe_write_sent fd (k ++ str ": " ++ c_string (snd (hashmap_search h k)) ++ CRLF)
                  st s Hs Ht) as (st1 & -> & Hsent).
      destruct (sent_to_sock _ _ _ _ Hsent) as (s1 & Hs1 & Ht1).
      destruct (IH st1 s1 Hs1 Ht1) as (st2 & -> & Hsent2).
      exists st2. split; [done|].
      cbn [map render_headers concat]. eapply sent_to_trans; [exact Hsent|exact Hsent2].
    + unfold ret. destruct (IH st s Hs Ht) as (st2 & -> & Hsent2). eauto.
Qed.

Lemma via_line_render c h : via_line c h = render_header (str "Via", via_value c h).
Proof.
  unfold via_line, via_value, via_tail, render_header. cbn [fst snd].
  destruct (hashmap_search h (str "via")) as [len data].
  destruct (len >? 0); by rewrite <- ?app_assoc.
Qed.

(** [process_client_headers] when it forwards: once the header block is
    read, the rewritten headers and the blank line are written to the
    server, and the body pump follows when there is a content length. *)
Lemma process_client_headers_forward st sc ss lines t rest :
  fds st !! client_fd (conn st) = Some sc ->
  s_in sc = octets (concat lines ++ t) ++ rest ->
  Forall header_line lines -> end_of_headers t ->
  server_fd (conn st) <> -1 ->
  connect_method (conn st) && negb UPSTREAM_CONFIGURED = false ->
  server_fd (conn st) <> client_fd (conn st) ->
  fds st !! server_fd (conn st) = Some ss -> takes_writes ss ->
  let h := header_map lines in
  let length := content_length_of (without_connection_tokens h) in
  exists st1,
    sent_to (server_fd (conn st))
      (render_headers (rewritten_headers (conn st) h) ++ CRLF)
      (client_read_to rest sc st) st1
    /\ process_client_headers st
       = (if length >=? 0 then pull_client_data length else ret 0) st1.
Proof.
  intros Hc Hin Hl Ht Hsfd Hcm Hne Hs Hts h length.
  unfold process_client_headers. unfold bind at 1, get at 1. cbn beta iota.
  unfold bind at 1. rewrite (get_all_headers_block st sc lines t rest) by done.
  change (0 <? 0) with false. cbn iota.
  assert ((server_fd (conn st) =? -1) = false) as -> by (by apply Z.eqb_neq).
  rewrite Hcm. cbn [orb]. unfold forward_client_headers.
  fold h. fold (without_connection_tokens h).
  set (h1 := without_connection_tokens h).
  fold (content_length_of h1). fold length.
  set (st0 := client_read_to rest sc st).
  assert (Hs0 : fds st0 !! server_fd (conn st) = Some ss).
  { subst st0. unfold client_read_to. cbn. by rewrite lookup_insert_ne. }
  destruct (hashmap_search h1 (str "via")) as [len data] eqn:Ev.
  set (h3 := fold_left hashmap_remove skipheaders _).
  assert (Hh3 : h3 = remaining_headers h).
  { subst h3. unfold remaining_headers, without_via. fold h1. by rewrite Ev. }
  assert (Hvia : (if len >? 0
                  then str "Via: " ++ c_string data ++ str ", " ++ via_tail (conn st)
                  else str "Via: " ++ via_tail (conn st))
                 = render_header (str "Via", via_value (conn st) h1)).
  { rewrite <- via_line_render. unfold via_line. by rewrite Ev. }
  (* the Via header *)
  assert (Hwa : exists sa,
            (if len >? 0
             then write_message (server_fd (conn st))
                    (str "Via: " ++ c_string data ++ str ", " ++ via_tail (conn st))
             else write_message (server_fd (conn st))
                    (str "Via: " ++ via_tail (conn st))) st0
            = (strlen (render_header (str "Via", via_value (conn st) h1)), sa)
            /\ sent_to (server_fd (conn st))
                 (render_header (str "Via", via_value (conn st) h1)) st0 sa).
  { rewrite <- Hvia. unfold write_message.
    destruct (len >? 0); by eapply safe_write_sent. }
  destruct Hwa as (sa & Hwa & Hsa).
  unfold bind at 1. rewrite Hwa.
  (* the remaining headers *)
  destruct (sent_to_sock _ _ _ _ Hsa) as (s1 & Hs1 & Ht1).
  destruct (send_headers_sent (server_fd (conn st)) h3 (hashmap_keys h3) sa s1 Hs1 Ht1)
    as (sb & Hwb & Hsb).
  unfold bind at 1. rewrite Hwb.
  (* X-Tinyproxy *)
  destruct (sent_to_sock _ _ _ _ Hsb) as (s2 & Hs2 & Ht2).
  assert (Hca : conn sb = conn st).
  { destruct Hsa as (? & ? & _ & _ & _ & _ & _ & _ & Ha & _).
    destruct Hsb as (? & ? & _ & _ & _ & _ & _ & _ & Hb & _).
    rewrite Hb, Ha. reflexivity. }
  assert (Hwc : exists r sc',
            match my_domain config with
            | Some _ => add_xtinyproxy_header
            | None => ret 0
            end sb = (r, sc')
            /\ sent_to (server_fd (conn st))
                 (render_headers (xtinyproxy_headers (conn st))) sb sc').
  { unfold xtinyproxy_headers. destruct (my_domain config).
    - unfold add_xtinyproxy_header, bind, get. cbn beta iota. rewrite Hca.
      assert ((server_fd (conn st) =? -1) = false) as -> by (by apply Z.eqb_neq).
      unfold write_message.
      destruct (safe_write_sent (server_fd (conn st))
                  (str "X-Tinyproxy: " ++ getpeer_ip (client_fd (conn st)) ++ CRLF)
                  sb s2 Hs2 Ht2) as (sc' & Hw & Hsent).
      eexists _, sc'. split; [exact Hw|].
      unfold render_headers, render_header. cbn [map concat fst snd].
      rewrite app_nil_r. exact Hsent.
    - exists 0, sb. split; [done|]. by eapply sent_to_refl. }
  destruct Hwc as (r & sc' & Hwc & Hsc).
  unfold bind at 1. rewrite Hwc.
  (* the blank line *)
  destruct (sent_to_sock _ _ _ _ Hsc) as (s3 & Hs3 & Ht3).
  destruct (safe_write_sent (server_fd (conn st)) CRLF sc' s3 Hs3 Ht3) as (sd & Hwd & Hsd).
  unfold bind at 1. rewrite Hwd.
  exists sd. split; [|reflexivity].
  unfold rewritten_headers, render_headers. rewrite !map_app, !concat_app.
  cbn [map concat]. rewrite app_nil_r. fold h1. rewrite <- !app_assoc.
  eapply sent_to_trans; [exact Hsa|].
  eapply sent_to_trans; [|eapply sent_to_trans; [exact Hsc|exact Hsd]].
  unfold forwarded_headers. rewrite <- Hh3. exact Hsb.
Qed.

End ForwardFacts.

(** ** The tokens of the [Connection] header *)

(** The separators are the nineteen characters the header's grammar
    names. *)
Lemma is_separator_listed c :
  is_separator c = true <->
  In c [ "("; ")"; ","; ";"; ":"; "<"; ">"; "@"; BACKSLASH; DQUOTE; "/";
         "["; "]"; "?"; "="; "{"; "}"; SP; HT ]%char.
Proof.
  unfold is_separator, mem. rewrite existsb_exists. split.
  - intros (x & Hin & Hx). apply Ascii.eqb_eq in Hx as <-.
    cbn in Hin. cbn. intuition auto.
  - intros Hin. exists c. split; [|apply Ascii.eqb_refl].
    cbn in Hin. cbn. intuition auto.
Qed.

Lemma runs_span sep (cur tok rest : cstr) :
  Forall (fun c => sep c = false) tok ->
  runs sep cur (tok ++ rest) = runs sep (cur ++ tok) rest.
Proof.
  intros Ht. revert cur. induction Ht as [|c tok Hc Ht IH]; intros cur; cbn.
  - by rewrite app_nil_r.
  - rewrite Hc, IH. by rewrite <- app_assoc.
Qed.

Lemma runs_skip sep (s : cstr) : runs sep [] (snd (span sep s)) = runs sep [] s.
Proof.
  induction s as [|c s IH]; cbn; [done|].
  destruct (sep c) eqn:E.
  - destruct (span sep s) as [a b]. cbn in *. done.
  - cbn. by rewrite E.
Qed.

Lemma span_snd_length p (s : cstr) : (length (snd (span p s)) <= length s)%nat.
Proof.
  induction s as [|c s IH]; cbn; [lia|].
  destruct (p c); cbn; [|lia]. destruct (span p s). cbn in *. lia.
Qed.

(** The walk of [remove_connection_headers] removes, among the names it
    visits, every token between the NULs. *)
Lemma remove_tokens_spec fuel m (ptr : cstr) :
  (length ptr < fuel)%nat ->
  exists toks,
    remove_tokens fuel m ptr = fold_left hashmap_remove toks m
    /\ forall tok, tok ∈ runs is_nul [] ptr -> tok ∈ toks.
Proof.
  revert m ptr. induction fuel as [|fuel IH]; intros m ptr Hlen; [lia|].
  cbn [remove_tokens]. destruct ptr as [|c0 p0].
  { exists []. split; [done|]. cbn. intros tok Hin. by apply elem_of_nil in Hin. }
  set (ptr := c0 :: p0) in *.
  destruct (span (fun c => negb (is_nul c)) ptr) as [token after] eqn:Es.
  destruct (span_inv _ _ _ _ Es) as (Hptr & Htok & Hstop).
  set (ptr' := snd (span is_nul (drop 1 after))).
  assert (Hlen' : (length ptr' < fuel)%nat).
  { subst ptr'. pose proof (span_snd_length is_nul (drop 1 after)) as Hl.
    rewrite length_drop in Hl. rewrite Hptr, length_app in Hlen.
    destruct after as [|a after'].
    - destruct token; [unfold ptr in Hptr; discriminate|cbn in *; lia].
    - cbn in *. lia. }
  destruct (IH (hashmap_remove m token) ptr' Hlen') as (toks & Hr & Hin).
  exists (token :: toks). split; [by rewrite Hr|].
  intros tok Htk. rewrite Hptr in Htk.
  rewrite runs_span in Htk.
  2:{ eapply Forall_impl; [exact Htok|]. cbn. intros c Hc. by apply negb_true_iff in Hc. }
  cbn [app] in Htk. destruct after as [|a after'].
  - cbn in Htk. destruct token; [by apply elem_of_nil in Htk|].
    apply list_elem_of_singleton in Htk. subst tok. by left.
  - specialize (Hstop a after' eq_refl). apply negb_false_iff in Hstop.
    cbn [runs] in Htk. rewrite Hstop in Htk.
    assert (Hrest : tok ∈ runs is_nul [] after' -> tok ∈ token :: toks).
    { intros Hi. right. apply Hin. subst ptr'. cbn [drop]. by rewrite runs_skip. }
    destruct token; [by apply Hrest|].
    apply elem_of_cons in Htk as [->|Hi]; [by left|by apply Hrest].
Qed.

Lemma blank_separators_value (v : cstr) :
  Forall (fun c => is_nul c = false) v ->
  blank_separators (v ++ [NUL])
  = map (fun c => if is_separator c then NUL else c) v ++ [NUL].
Proof.
  intros Hv. induction Hv as [|c v Hc Hv IH]; [done|].
  cbn [app blank_separators map]. by rewrite Hc, IH.
Qed.

Lemma runs_blank (cur v : cstr) :
  Forall (fun c => is_nul c = false) v ->
  runs is_nul cur (map (fun c => if is_separator c then NUL else c) v ++ [NUL])
  = runs is_separator cur v.
Proof.
  intros Hv. revert cur. induction Hv as [|c v Hc Hv IH]; intros cur.
  - cbn. by destruct cur.
  - cbn [map app runs]. destruct (is_separator c) eqn:E.
    + change (is_nul NUL) with true. cbn iota. by rewrite !IH.
    + by rewrite Hc, IH.
Qed.

Lemma hashmap_remove_subset m k e : e ∈ hashmap_remove m k -> e ∈ m.
Proof.
  unfold hashmap_remove. rewrite !list_elem_of_In, filter_In. tauto.
Qed.

Lemma hashmap_remove_absent m k : absent k (hashmap_remove m k).
Proof.
  unfold absent, hashmap_remove. apply Forall_forall. intros e He.
  apply list_elem_of_In, filter_In in He as [_ He]. by apply negb_true_iff in He.
Qed.

Lemma absent_subset name (m m' : hashmap_t) :
  (forall e, e ∈ m' -> e ∈ m) -> absent name m -> absent name m'.
Proof.
  unfold absent. rewrite !Forall_forall. intros Hs Ha e He. apply Ha, Hs, He.
Qed.

Lemma fold_remove_subset ks m e : e ∈ fold_left hashmap_remove ks m -> e ∈ m.
Proof.
  revert m. induction ks as [|k ks IH]; intros m; cbn; [done|].
  intros He. apply IH in He. by eapply hashmap_remove_subset.
Qed.

Lemma fold_remove_absent ks m k : k ∈ ks -> absent k (fold_left hashmap_remove ks m).
Proof.
  revert m. induction ks as [|k0 ks IH]; intros m Hk; [by apply elem_of_nil in Hk|].
  cbn. apply elem_of_cons in Hk as [->|Hk]; [|by apply IH].
  eapply absent_subset; [|apply hashmap_remove_absent].
  intros e He. by eapply fold_remove_subset.
Qed.

Lemma absent_search name m : absent name m -> hashmap_search m name = (0, []).
Proof.
  unfold absent, hashmap_search. intros Ha.
  destruct (List.find (key_is name) m) as [e|] eqn:Ef; [|done].
  apply find_some in Ef as [Hin Hk]. rewrite Forall_forall in Ha.
  apply list_elem_of_In in Hin. rewrite (Ha e Hin) in Hk. discriminate.
Qed.

Lemma search_found m name len data :
  hashmap_search m name = (len, data) -> len > 0 ->
  exists key, (key, data) ∈ m /\ len = strlen data.
Proof.
  unfold hashmap_search. destruct (List.find (key_is name) m) as [[k d]|] eqn:Ef.
  - intros [= <- <-] _. apply find_some in Ef as [Hin _]. exists k.
    split; [by apply list_elem_of_In|done].
  - intros [= <- _]. lia.
Qed.

(** After the [Connection] header is dealt with, the map has no entry
    under any of its tokens, nor under [connection]. *)
Lemma without_connection_tokens_absent h len data value :
  well_stored h ->
  hashmap_search h (str "connection") = (len, data) -> len > 0 ->
  c_string data = value ->
  (forall tok, tok ∈ connection_tokens value -> absent tok (without_connection_tokens h))
  /\ absent (str "connection") (without_connection_tokens h).
Proof.
  intros Hw Hs Hlen Hv. unfold without_connection_tokens. rewrite Hs.
  assert ((len >? 0) = true) as -> by (apply Z.gtb_lt; lia).
  split; [|apply hashmap_remove_absent].
  destruct (search_found _ _ _ _ Hs Hlen) as (key & Hin & ->).
  unfold well_stored in Hw. rewrite Forall_forall in Hw.
  destruct (Hw _ Hin) as (v & Hd & Hnul). cbn in Hd. subst data.
  assert (value = v) as ->.
  { subst value. unfold c_string.
    rewrite (span_app (fun c => negb (ascii_eqb c NUL)) v [NUL]); [done| |].
    - eapply Forall_impl; [exact Hnul|]. cbn. intros c Hc. unfold is_nul in Hc.
      by rewrite Hc.
    - by intros c r [= <- _]. }
  intros tok Htok.
  eapply absent_subset; [intros e; apply hashmap_remove_subset|].
  unfold remove_connection_headers. cbn [snd]. unfold strlen.
  rewrite Nat2Z.id, blank_separators_value by done.
  set (d := map _ v ++ [NUL]).
  assert (Hld : length d = length (v ++ [NUL])).
  { subst d. by rewrite !length_app, length_map. }
  rewrite <- Hld, firstn_all.
  destruct (remove_tokens_spec (S (length d)) h d ltac:(lia)) as (toks & -> & Hin').
  apply fold_remove_absent. apply Hin'. subst d.
  by rewrite runs_blank.
Qed.

(** ** What is forwarded *)

Lemma c_string_no_nul (b : cstr) : Forall (fun c => is_nul c = false) (c_string b).
Proof.
  unfold c_string. destruct (span _ b) as [a r] eqn:Es.
  destruct (span_inv _ _ _ _ Es) as (_ & Ha & _). cbn.
  eapply Forall_impl; [exact Ha|]. cbn. intros c Hc. by apply negb_true_iff in Hc.
Qed.

Lemma span_snd_Forall (P : ascii -> Prop) p (s : cstr) :
  Forall P s -> Forall P (snd (span p s)).
Proof.
  intros Hs. destruct (span p s) as [a r] eqn:Es.
  destruct (span_inv _ _ _ _ Es) as (-> & _ & _). cbn.
  by apply Forall_app in Hs as [_ ?].
Qed.

Lemma well_stored_add_header m l : well_stored m -> well_stored (add_header m l).
Proof.
  intros Hm. unfold add_header, add_header_to_connection.
  set (header := c_string _).
  destruct (span _ header) as [key sep] eqn:Es.
  destruct sep as [|c sep]; [exact Hm|].
  cbn [snd]. unfold hashmap_insert, well_stored. apply Forall_app. split; [done|].
  apply Forall_singleton. eexists. split; [reflexivity|].
  apply span_snd_Forall.
  pose proof (c_string_no_nul (snd (chomp l))) as Hh. fold header in Hh.
  destruct (span_inv _ _ _ _ Es) as (Hheq & _ & _). rewrite Hheq in Hh.
  by apply Forall_app in Hh as [_ ?].
Qed.

Lemma well_stored_fold lines m :
  well_stored m -> well_stored (fold_left add_header lines m).
Proof.
  revert m. induction lines as [|l lines IH]; intros m Hm; cbn; [done|].
  apply IH. by apply well_stored_add_header.
Qed.

Lemma well_stored_header_map lines : well_stored (header_map lines).
Proof. apply well_stored_fold. apply Forall_nil_2. Qed.

Section EmitFacts.
Context `{Env}.

Lemma named_absent name (m : hashmap_t) (f : cstr -> cstr) keys :
  absent name m -> (forall k, k ∈ keys -> k ∈ hashmap_keys m) ->
  named name (map (fun k => (k, f k)) keys) = [].
Proof.
  intros Ha Hk. unfold named. induction keys as [|k keys IH]; [done|].
  cbn [map List.filter fst].
  assert (Hin : k ∈ hashmap_keys m) by (apply Hk; by left).
  unfold hashmap_keys in Hin. apply list_elem_of_In, in_map_iff in Hin as ([k' v] & <- & Hin).
  unfold absent in Ha. rewrite Forall_forall in Ha.
  apply list_elem_of_In in Hin. specialize (Ha _ Hin). unfold key_is in Ha. cbn in *.
  rewrite Ha. apply IH. intros k0 Hk0. apply Hk. by right.
Qed.

Lemma allowed_keys_subset keys k : k ∈ allowed_keys keys -> k ∈ keys.
Proof. unfold allowed_keys. rewrite !list_elem_of_In, filter_In. tauto. Qed.

(** None of the client's headers that are forwarded has a name that is
    absent from the map of remaining headers. *)
Lemma forwarded_headers_absent name h :
  absent name (remaining_headers h) -> named name (forwarded_headers h) = [].
Proof.
  intros Ha. unfold forwarded_headers. eapply named_absent; [exact Ha|].
  intros k. apply allowed_keys_subset.
Qed.

Lemma remaining_headers_subset h e :
  e ∈ remaining_headers h -> e ∈ without_connection_tokens h.
Proof.
  unfold remaining_headers. intros He. apply fold_remove_subset in He.
  unfold without_via in He. destruct (hashmap_search _ _) as [len data].
  destruct (len >? 0); [by eapply hashmap_remove_subset|done].
Qed.

Lemma remaining_headers_hop_by_hop name h :
  hop_by_hop name -> absent name (remaining_headers h).
Proof. intros Hn. unfold remaining_headers. by apply fold_remove_absent. Qed.

(** C5. When the header map has a [Connection] header, every token of
    its value by the separator set is removed from the map as a header
    name, and then the [Connection] entry itself, before anything is
    sent: the map the content length and the [Via] value are taken from
    has none of them, and neither have the headers that are written to
    the server. *)
Theorem connection_header_tokens_removed st sc ss lines t rest len data :
  fds st !! client_fd (conn st) = Some sc ->
  s_in sc = octets (concat lines ++ t) ++ rest ->
  Forall header_line lines -> end_of_headers t ->
  server_fd (conn st) <> -1 ->
  connect_method (conn st) && negb UPSTREAM_CONFIGURED = false ->
  server_fd (conn st) <> client_fd (conn st) ->
  fds st !! server_fd (conn st) = Some ss -> takes_writes ss ->
  hashmap_search (header_map lines) (str "connection") = (len, data) -> len > 0 ->
  let h := header_map lines in
  let value := c_string data in
  let gone name := name ∈ connection_tokens value \/ name = str "connection" in
  (forall name, gone name -> absent name (without_connection_tokens h))
  /\ (forall name, gone name -> named name (forwarded_headers h) = [])
  /\ exists st1,
       sent_to (server_fd (conn st))
         (render_headers (rewritten_headers (conn st) h) ++ CRLF)
         (client_read_to rest sc st) st1
       /\ process_client_headers st
          = (if content_length_of (without_connection_tokens h) >=? 0
             then pull_client_data (content_length_of (without_connection_tokens h))
             else ret 0) st1.
Proof.
  intros Hc Hin Hl Ht Hsfd Hcm Hne Hs Hts Hsearch Hlen h value gone.
  destruct (without_connection_tokens_absent h len data value
              (well_stored_header_map lines) Hsearch Hlen eq_refl) as [Htok Hconn].
  assert (Hgone : forall name, gone name -> absent name (without_connection_tokens h)).
  { intros name [Hn| ->]; [by apply Htok|done]. }
  split; [exact Hgone|]. split.
  - intros name Hn. apply forwarded_headers_absent.
    eapply absent_subset; [apply remaining_headers_subset|by apply Hgone].
  - by eapply process_client_headers_forward.
Qed.

Lemma establish_http_connection_sent request st ss :
  fds st !! server_fd (conn st) = Some ss -> takes_writes ss ->
  exists st1,
    establish_http_connection request st = (0, st1)
    /\ sent_to (server_fd (conn st))
         ((method request ++ [SP] ++ path request ++ str " HTTP/1.0" ++ CRLF)
          ++ render_headers [(str "Host", host request); (str "Connection", str "close")])
         st st1.
Proof.
  intros Hs Ht. unfold establish_http_connection, write_message.
  unfold bind at 1, get at 1. cbn beta iota.
  destruct (safe_write_sent (server_fd (conn st))
              (method request ++ [SP] ++ path request ++ str " HTTP/1.0" ++ CRLF) st ss Hs Ht)
    as (sa & Hwa & Hsa).
  unfold bind at 1. rewrite Hwa.
  assert ((strlen (method request ++ [SP] ++ path request ++ str " HTTP/1.0" ++ CRLF) <? 0)
          = false) as -> by (apply Z.ltb_ge, strlen_nonneg).
  destruct (sent_to_sock _ _ _ _ Hsa) as (s1 & Hs1 & Ht1).
  destruct (safe_write_sent (server_fd (conn st)) (str "Host: " ++ host request ++ CRLF)
              sa s1 Hs1 Ht1) as (sb & Hwb & Hsb).
  unfold bind at 1. rewrite Hwb.
  assert ((strlen (str "Host: " ++ host request ++ CRLF) <? 0) = false) as ->
    by (apply Z.ltb_ge, strlen_nonneg).
  destruct (sent_to_sock _ _ _ _ Hsb) as (s2 & Hs2 & Ht2).
  destruct (safe_write_sent (server_fd (conn st)) (str "Connection: close" ++ CRLF)
              sb s2 Hs2 Ht2) as (sc & Hwc & Hsc).
  unfold bind at 1. rewrite Hwc.
  assert ((strlen (str "Connection: close" ++ CRLF) <? 0) = false) as -> by reflexivity.
  exists sc. split; [done|].
  eapply sent_to_trans; [exact Hsa|].
  assert (Hrender : render_headers [(str "Host", host request); (str "Connection", str "close")]
                    = (str "Host: " ++ host request ++ CRLF)
                      ++ (str "Connection: close" ++ CRLF)) by reflexivity.
  rewrite Hrender.
  eapply sent_to_trans; [exact Hsb|exact Hsc].
Qed.

(** C7. A request that is forwarded (the server's socket is there and
    takes the writes, and the request is not a direct CONNECT) is written
    as the request line, then the headers [emitted_headers], then the
    blank line, then the body if there is one. Among these headers the
    only one named [Host] is the proxy's own, the only one named
    [Connection] is the proxy's [Connection: close], and none has
    another of the hop-by-hop names. *)
Theorem forwarded_request_headers st sc ss lines t rest request :
  fds st !! client_fd (conn st) = Some sc ->
  s_in sc = octets (concat lines ++ t) ++ rest ->
  Forall header_line lines -> end_of_headers t ->
  server_fd (conn st) <> -1 ->
  connect_method (conn st) && negb UPSTREAM_CONFIGURED = false ->
  server_fd (conn st) <> client_fd (conn st) ->
  fds st !! server_fd (conn st) = Some ss -> takes_writes ss ->
  let emitted := emitted_headers (conn st) request (header_map lines) in
  (exists r st1 s1 body,
      (establish_http_connection request ;; process_client_headers) st = (r, st1)
      /\ fds st1 !! server_fd (conn st) = Some s1
      /\ s_out s1
         = s_out ss
           ++ (method request ++ [SP] ++ path request ++ str " HTTP/1.0" ++ CRLF)
           ++ render_headers emitted ++ CRLF ++ body)
  /\ named (str "host") emitted = [(str "Host", host request)]
  /\ named (str "connection") emitted = [(str "Connection", str "close")]
  /\ (forall name, hop_by_hop name -> name <> str "host" -> name <> str "connection" ->
        named name emitted = []).
Proof.
  intros Hc Hin Hl Ht Hsfd Hcm Hne Hs Hts emitted.
  assert (Hrw : forall name, hop_by_hop name ->
            named name (rewritten_headers (conn st) (header_map lines)) = []).
  { intros name Hn. unfold rewritten_headers, named.
    rewrite !List.filter_app.
    fold (named name (forwarded_headers (header_map lines))).
    rewrite forwarded_headers_absent by (by apply remaining_headers_hop_by_hop).
    unfold hop_by_hop, skipheaders in Hn.
    unfold xtinyproxy_headers.
    repeat (apply elem_of_cons in Hn as [->|Hn]; [by destruct (my_domain config)|]).
    by apply elem_of_nil in Hn. }
  split; [|split; [|split]].
  - destruct (establish_http_connection_sent request st ss Hs Hts) as (sa & Hwa & Hsa).
    unfold bind at 1. rewrite Hwa.
    destruct (sent_to_sock _ _ _ _ Hsa) as (s1 & Hs1 & Ht1).
    destruct Hsa as (ss' & s1' & Hss & Hfa & Hoa & Hia & Hna & Hta & Hca & Htra).
    assert (ss' = ss) as -> by congruence.
    assert (s1' = s1) as -> by (rewrite Hfa, lookup_insert_eq in Hs1; congruence).
    assert (Hc' : fds sa !! client_fd (conn sa) = Some sc).
    { rewrite Hca, Hfa, lookup_insert_ne by done. done. }
    destruct (process_client_headers_forward sa sc s1 lines t rest Hc' Hin Hl Ht)
      as (sb & Hsb & Hp); rewrite ?Hca; try done.
    rewrite Hp.
    set (length := content_length_of _).
    set (tail := if length >=? 0 then pull_client_data length else ret 0).
    assert (Hev : evolves (grows (server_fd (conn st))) tail).
    { subst tail. destruct (length >=? 0).
      - apply evolves_pull_client_data_loop.
      - apply evolves_ret. apply _. }
    destruct (tail sb) as [r sd] eqn:Etail.
    pose proof (evolves_eq _ _ _ _ _ Hev Etail) as Hg.
    destruct Hsb as (sx & s2 & Hsx & Hfb & Hob & _).
    assert (sx = s1) as ->.
    { unfold client_read_to in Hsx. cbn in Hsx.
      rewrite Hca in Hsx. rewrite lookup_insert_ne in Hsx; [|congruence].
      congruence. }
    destruct (Hg s2) as (s3 & Hs3 & _ & [body Hbody]).
    { by rewrite Hfb, Hca, lookup_insert_eq. }
    exists r, sd, s3, body. split; [done|]. split; [done|].
    rewrite Hbody, Hob, Hoa. unfold emitted, emitted_headers, render_headers.
    rewrite Hca, !map_app, !concat_app. by rewrite <- !app_assoc.
  - unfold emitted, emitted_headers, named. rewrite List.filter_app.
    fold (named (str "host") (rewritten_headers (conn st) (header_map lines))).
    rewrite Hrw; [reflexivity|]. unfold hop_by_hop, skipheaders. by left.
  - unfold emitted, emitted_headers, named. rewrite List.filter_app.
    fold (named (str "connection") (rewritten_headers (conn st) (header_map lines))).
    rewrite Hrw; [reflexivity|]. unfold hop_by_hop, skipheaders. right. by left.
  - intros name Hn Hh Hcn. unfold emitted, emitted_headers, named.
    rewrite List.filter_app.
    fold (named name (rewritten_headers (conn st) (header_map lines))).
    rewrite (Hrw name Hn), app_nil_r.
    unfold hop_by_hop, skipheaders in Hn.
    repeat (apply elem_of_cons in Hn as [->|Hn]; [done || reflexivity|]).
    by apply elem_of_nil in Hn.
Qed.

End EmitFacts.

(** ** Every path reads the client's headers *)

Section ReadFacts.
Context `{Env}.

Lemma is_lineb_ok l : is_lineb l = true -> is_line l.
Proof.
  unfold is_lineb, is_line. destruct (rev l) as [|c b] eqn:Er; [done|].
  intros Hb. apply andb_true_iff in Hb as [Hc Hb]. apply ascii_eqb_eq in Hc. subst c.
  exists (rev b). split.
  - rewrite <- (rev_involutive l), Er. reflexivity.
  - intros Hin. apply list_elem_of_In in Hin. apply in_rev in Hin.
    rewrite forallb_forall in Hb. apply Hb in Hin. by rewrite ascii_eqb_refl in Hin.
Qed.

Lemma header_lineb_ok l : header_lineb l = true -> header_line l.
Proof.
  unfold header_lineb, header_line. intros Hb.
  apply andb_true_iff in Hb as [Hb Hc]. apply andb_true_iff in Hb as [Hb Hn].
  apply andb_true_iff in Hb as [Hl Hlen].
  split; [by apply is_lineb_ok|]. split; [by apply Z.leb_le|].
  split; [by apply negb_true_iff|].
  intros m. unfold add_header_to_connection. unfold has_colon in Hc.
  destruct (span _ (c_string (snd (chomp l)))) as [key sep]. cbn [snd] in Hc.
  by destruct sep.
Qed.

(** Whatever the state of the connection, [process_client_headers]
    first reads the header block. *)
Lemma process_client_headers_block st sc lines t rest :
  fds st !! client_fd (conn st) = Some sc ->
  s_in sc = octets (concat lines ++ t) ++ rest ->
  Forall header_line lines -> end_of_headers t ->
  process_client_headers st
  = (if (server_fd (conn st) =? -1)
        || (connect_method (conn st) && negb UPSTREAM_CONFIGURED)
     then ret 0
     else forward_client_headers (conn st) (header_map lines))
      (client_read_to rest sc st).
Proof.
  intros Hc Hin Hl Ht.
  unfold process_client_headers. unfold bind at 1, get at 1. cbn beta iota.
  unfold bind at 1. rewrite (get_all_headers_block st sc lines t rest) by done.
  reflexivity.
Qed.



End ReadFacts.

(** ** A request line that is turned down *)

Section BadRequestFacts.
Context `{Env}.

Lemma keeps_other_readline fd fd' :
  fd' <> fd -> keeps (fun st => fds st !! fd') (readline fd).
Proof.
  intros Hne st. unfold readline, bind, get, ret, put_sock, modify. cbn beta iota.
  destruct (fds st !! fd) as [s|] eqn:Es; [|done].
  destruct (take_line (s_in s)) as [l rest].
  destruct (at_end l); [cbn; by apply lookup_insert_ne|].
  destruct (_ <? _); cbn; by apply lookup_insert_ne.
Qed.

Lemma keeps_core_readline fd : keeps (fun st => (conn_core st, trace st)) (readline fd).
Proof. unfold readline. repeat keeps_step. Qed.

Lemma keeps_core_read_request_line_retry fuel :
  keeps (fun st => (conn_core st, trace st)) (read_request_line_retry fuel).
Proof.
  induction fuel as [|fuel IH]; cbn [read_request_line_retry]; [apply keeps_ret|].
  repeat first [apply IH | apply keeps_core_readline | keeps_step].
Qed.

Lemma keeps_core_read_request_line :
  keeps (fun st => (conn_core st, trace st)) read_request_line.
Proof.
  unfold read_request_line.
  repeat first [apply keeps_core_read_request_line_retry | keeps_step].
Qed.

Lemma keeps_other_get_all_headers_loop fuel fd fd' m :
  fd' <> fd -> keeps (fun st => fds st !! fd') (get_all_headers_loop fuel fd m).
Proof.
  intros Hne. revert m. induction fuel as [|fuel IH]; intros m;
    cbn [get_all_headers_loop]; [apply keeps_ret|].
  repeat first [apply IH | by apply keeps_other_readline | keeps_step].
Qed.

Lemma keeps_conn_get_all_headers_loop fuel fd m :
  keeps (fun st => (conn st, trace st)) (get_all_headers_loop fuel fd m).
Proof.
  revert m. induction fuel as [|fuel IH]; intros m;
    cbn [get_all_headers_loop]; [apply keeps_ret|].
  unfold readline. repeat first [apply IH | keeps_step].
Qed.

(** Without a server handle, [process_client_headers] reads what it can
    of the client's headers and does nothing else. *)
Lemma process_client_headers_no_server st :
  server_fd (conn st) = -1 ->
  exists r st',
    process_client_headers st = (r, st')
    /\ (r = 0 \/ r = -1)
    /\ conn st' = conn st /\ trace st' = trace st
    /\ (forall fd, fd <> client_fd (conn st) -> fds st' !! fd = fds st !! fd).
Proof.
  intros Hs. unfold process_client_headers. unfold bind at 1, get at 1. cbn beta iota.
  unfold bind at 1.
  assert (Hk : forall fd, fd <> client_fd (conn st) ->
            keeps (fun st => fds st !! fd)
              (get_all_headers (client_fd (conn st)) hashmap_create)).
  { intros fd Hne. unfold get_all_headers.
    repeat first [by apply keeps_other_get_all_headers_loop | keeps_step]. }
  assert (Hc : keeps (fun st => (conn st, trace st))
                 (get_all_headers (client_fd (conn st)) hashmap_create)).
  { unfold get_all_headers.
    repeat first [apply keeps_conn_get_all_headers_loop | keeps_step]. }
  destruct (get_all_headers _ _ st) as [[g h] st'] eqn:Eg.
  pose proof (keeps_eq _ _ _ _ _ Hc Eg) as Hc'. cbn in Hc'. injection Hc' as Hcn Htr.
  assert (Hoth : forall fd, fd <> client_fd (conn st) -> fds st' !! fd = fds st !! fd).
  { intros fd Hne. exact (keeps_eq _ _ _ _ _ (Hk fd Hne) Eg). }
  rewrite Hs. cbn [orb Z.eqb]. change (-1 =? -1) with true. cbn [orb].
  destruct (g <? 0); eexists _, _; (split; [reflexivity|]); auto.
Qed.


End BadRequestFacts.

(** ** The request body *)

Lemma arrived_skip_pause ws : arrived (skip_pause ws) = arrived ws.
Proof. induction ws as [|[c|] ws IH]; cbn; auto. Qed.

Lemma skip_pause_head ws c r : arrived ws = c :: r -> exists ws', skip_pause ws = Octet c :: ws'.
Proof.
  induction ws as [|[c0|] ws IH]; cbn; [done| |done].
  intros [= -> _]. eauto.
Qed.

(** A read of up to [n] bytes takes a prefix of what arrived. *)
Lemma take_run_arrived n ws got rest :
  take_run n ws = (got, rest) ->
  got = take (length got) (arrived ws)
  /\ arrived rest = drop (length got) (arrived ws)
  /\ (length got <= n)%nat.
Proof.
  revert ws got rest. induction n as [|n IH]; intros ws got rest.
  - cbn. destruct ws; intros [= <- <-]; cbn; by rewrite ?drop_0.
  - destruct ws as [|[c|] ws]; cbn [take_run].
    + intros [= <- <-]. cbn. split; [done|]. split; [done|lia].
    + destruct (take_run n ws) as [l r] eqn:E. intros [= <- <-].
      destruct (IH ws l r E) as (Hl & Hr & Hn). cbn. rewrite <- Hl.
      split; [done|]. split; [done|lia].
    + intros [= <- <-]. cbn. split; [done|]. split; [by rewrite drop_0|lia].
Qed.

Lemma take_split (k n : nat) (a : cstr) :
  (k <= n)%nat -> take k a ++ take (n - k) (drop k a) = take n a.
Proof.
  revert n a. induction k as [|k IH]; intros n a Hk.
  - rewrite Nat.sub_0_r, drop_0. reflexivity.
  - destruct n as [|n]; [lia|]. destruct a as [|c a]; [cbn; by rewrite take_nil|].
    cbn. f_equal. apply IH. lia.
Qed.

Section BodyFacts.
Context `{Env}.

(** C6, at the input where the code departs from it: for a content
    length of 0 the pump fails, whatever the client sends. The loop is a
    do-while, so it reads before it tests the length; a read of 0 bytes
    returns 0, which the loop takes for the client's close. *)
Theorem pull_client_data_zero_length st : fst (pull_client_data 0 st) = -1.
Proof.
  unfold pull_client_data. change (Z.to_nat 0) with 0%nat.
  cbn [pull_client_data_loop]. unfold bind at 1, get at 1. cbn beta iota.
  unfold bind at 1, safe_read, bind, get, ret. cbn beta iota.
  destruct (fds st !! client_fd (conn st)) as [s|]; [|reflexivity].
  assert ((Z.min MAXBUFFSIZE 0 <=? 0) = true) as -> by (apply Z.leb_le; lia).
  reflexivity.
Qed.

(** For a positive length the pump does what C6 says: when the client
    sends at least [total] bytes, exactly the first [total] of them are
    read, in reads of at most [MAXBUFFSIZE] bytes, and written to the
    server, or dropped when a response has been sent. *)
Lemma pull_client_data_loop_ok fuel total st sc :
  0 < MAXBUFFSIZE -> 0 < total -> (Z.to_nat total < fuel)%nat ->
  fds st !! client_fd (conn st) = Some sc ->
  total <= strlen (arrived (s_in sc)) ->
  server_fd (conn st) <> client_fd (conn st) ->
  (response_message_sent (conn st) = false ->
   exists ss, fds st !! server_fd (conn st) = Some ss /\ takes_writes ss) ->
  exists st' sc',
    pull_client_data_loop fuel total st = (0, st')
    /\ conn st' = conn st /\ trace st' = trace st
    /\ fds st' !! client_fd (conn st) = Some sc'
    /\ arrived (s_in sc') = drop (Z.to_nat total) (arrived (s_in sc))
    /\ s_out sc' = s_out sc
    /\ (forall ss, fds st !! server_fd (conn st) = Some ss ->
          exists ss', fds st' !! server_fd (conn st) = Some ss'
            /\ s_out ss' = s_out ss
                 ++ (if response_message_sent (conn st) then []
                     else take (Z.to_nat total) (arrived (s_in sc)))).
Proof.
  intros Hmax. revert total st sc.
  induction fuel as [|fuel IH]; intros total st sc Hpos Hfuel Hc Hlen Hne Hsrv; [lia|].
  cbn [pull_client_data_loop]. unfold bind at 1, get at 1. cbn beta iota.
  set (n := Z.min MAXBUFFSIZE total).
  assert (Hn : 0 < n <= total) by lia.
  (* the read *)
  unfold bind at 1, safe_read at 1, bind, get, ret, put_sock, modify. cbn beta iota.
  rewrite Hc. assert ((n <=? 0) = false) as -> by (apply Z.leb_gt; lia).
  destruct (take_run (Z.to_nat n) (skip_pause (s_in sc))) as [got rest] eqn:Et.
  destruct (take_run_arrived _ _ _ _ Et) as (Hgot & Hrest & Hgn).
  rewrite arrived_skip_pause in Hgot, Hrest.
  assert (Hg1 : (1 <= length got)%nat).
  { destruct (arrived (s_in sc)) as [|c r] eqn:Ea; [unfold strlen in Hlen; cbn in Hlen; lia|].
    destruct (skip_pause_head _ _ _ Ea) as [ws' Hws]. rewrite Hws in Et.
    destruct (Z.to_nat n) as [|k] eqn:Ek; [lia|]. cbn in Et.
    destruct (take_run k ws'). injection Et as <- _. cbn. lia. }
  cbn beta iota. unfold strlen at 1.
  assert ((Z.of_nat (length got) <=? 0) = false) as -> by (apply Z.leb_gt; lia).
  set (st1 := set_fds (<[client_fd (conn st) := set_in rest sc]> (fds st)) st).
  (* the write *)
  assert (Hw : exists st2,
            (if negb (response_message_sent (conn st))
             then safe_write (server_fd (conn st)) got else ret 0) st1
            = ((if response_message_sent (conn st) then 0 else strlen got), st2)
            /\ conn st2 = conn st /\ trace st2 = trace st
            /\ fds st2 !! client_fd (conn st) = Some (set_in rest sc)
            /\ (response_message_sent (conn st) = false ->
                exists ss2, fds st2 !! server_fd (conn st) = Some ss2 /\ takes_writes ss2)
            /\ (forall ss, fds st !! server_fd (conn st) = Some ss ->
                  exists ss', fds st2 !! server_fd (conn st) = Some ss'
                    /\ s_out ss' = s_out ss
                         ++ (if response_message_sent (conn st) then [] else got))).
  { destruct (response_message_sent (conn st)) eqn:Er; cbn [negb].
    - exists st1. split; [done|]. subst st1. cbn.
      split; [done|]. split; [done|]. split; [apply lookup_insert_eq|].
      split; [done|]. intros ss Hss. exists ss. rewrite app_nil_r.
      split; [|done]. by rewrite lookup_insert_ne by congruence.
    - destruct (Hsrv eq_refl) as (ss & Hss & Hts).
      assert (Hss1 : fds st1 !! server_fd (conn st) = Some ss).
      { subst st1. cbn. by rewrite lookup_insert_ne by congruence. }
      destruct (safe_write_sent (server_fd (conn st)) got st1 ss Hss1 Hts)
        as (st2 & Hw & Hsent).
      exists st2. split; [done|].
      destruct (sent_to_sock _ _ _ _ Hsent) as (ss2 & Hss2 & Hts2).
      destruct Hsent as (sx & sy & Hsx & Hf & Ho & _ & _ & _ & Hcn & Htr).
      split; [by rewrite Hcn|]. split; [by rewrite Htr|]. split.
      + rewrite Hf, lookup_insert_ne by done. subst st1. cbn. apply lookup_insert_eq.
      + split; [by eauto|]. intros ss0 Hss0.
        assert (ss0 = ss) as -> by congruence. assert (sx = ss) as -> by congruence.
        exists sy. split; [|done]. by rewrite Hf, lookup_insert_eq. }
  destruct Hw as (st2 & Hw & Hcn2 & Htr2 & Hc2 & Hsrv2 & Hout2).
  unfold ret in Hw. rewrite Hw.
  assert (((if response_message_sent (conn st) then 0 else strlen got) <? 0) = false) as ->.
  { destruct (response_message_sent (conn st)); [done|]. apply Z.ltb_ge, strlen_nonneg. }
  unfold strlen at 1.
  destruct (total - Z.of_nat (length got) >? 0) eqn:Emore.
  - (* more to pull *)
    apply Z.gtb_lt in Emore.
    destruct (IH (total - Z.of_nat (length got)) st2 (set_in rest sc))
      as (st' & sc' & Hp & Hcn' & Htr' & Hc' & Harr' & Hout' & Hsrv');
      rewrite ?Hcn2; try done; try lia.
    { cbn [s_in set_in]. rewrite Hrest. unfold strlen in *. rewrite length_drop. lia. }
    exists st', sc'. split; [exact Hp|]. rewrite Hcn2 in *.
    split; [done|]. split; [congruence|]. split; [done|]. split.
    { rewrite Harr'. cbn [s_in set_in]. rewrite Hrest, drop_drop. f_equal. lia. }
    split; [done|]. intros ss Hss.
    destruct (Hout2 ss Hss) as (ss2 & Hss2 & Ho2).
    destruct (Hsrv' ss2 Hss2) as (ss' & Hss' & Ho').
    exists ss'. split; [done|]. rewrite Ho', Ho2, <- app_assoc. f_equal.
    destruct (response_message_sent (conn st)); [done|].
    cbn [s_in set_in]. rewrite Hrest. rewrite Hgot at 1.
    rewrite <- (take_split (length got) (Z.to_nat total)) by lia.
    f_equal. f_equal. lia.
  - (* done *)
    rewrite Z.gtb_ltb in Emore. apply Z.ltb_ge in Emore.
    assert (Hall : Z.of_nat (length got) = total) by lia.
    exists st2, (set_in rest sc). split; [done|].
    split; [done|]. split; [done|]. split; [done|]. split.
    { cbn. rewrite Hrest. f_equal. lia. }
    split; [done|]. intros ss Hss.
    destruct (Hout2 ss Hss) as (ss2 & Hss2 & Ho2). exists ss2. split; [done|].
    rewrite Ho2. f_equal. destruct (response_message_sent (conn st)); [done|].
    rewrite Hgot at 1. f_equal. lia.
Qed.

End BodyFacts.

Section BodyRuns.
Context `{Env}.

Lemma pull_client_data_ok total st sc :
  0 < MAXBUFFSIZE -> 0 < total ->
  fds st !! client_fd (conn st) = Some sc ->
  total <= strlen (arrived (s_in sc)) ->
  server_fd (conn st) <> client_fd (conn st) ->
  (response_message_sent (conn st) = false ->
   exists ss, fds st !! server_fd (conn st) = Some ss /\ takes_writes ss) ->
  exists st' sc',
    pull_client_data total st = (0, st')
    /\ fds st' !! client_fd (conn st) = Some sc'
    /\ arrived (s_in sc') = drop (Z.to_nat total) (arrived (s_in sc))
    /\ (forall ss, fds st !! server_fd (conn st) = Some ss ->
          exists ss', fds st' !! server_fd (conn st) = Some ss'
            /\ s_out ss' = s_out ss
                 ++ (if response_message_sent (conn st) then []
                     else take (Z.to_nat total) (arrived (s_in sc)))).
Proof.
  intros Hmax Hpos Hc Hlen Hne Hsrv. unfold pull_client_data.
  destruct (pull_client_data_loop_ok (S (Z.to_nat total)) total st sc)
    as (st' & sc' & Hp & _ & _ & Hc' & Ha & _ & Hs); try done; [lia|].
  by exists st', sc'.
Qed.

Lemma header_lines_ok lines :
  forallb header_lineb lines = true -> Forall header_line lines.
Proof.
  intros Hb. apply Forall_forall. intros l Hl. apply header_lineb_ok.
  rewrite forallb_forall in Hb. by apply Hb, list_elem_of_In.
Qed.

End BodyRuns.

(** *** Concrete runs of the header stage *)

(** A request with [Content-Length: 0]: the headers are forwarded, the
    pump fails, and the connection is closed as a bad one before the
    server's answer is read. With [Content-Length: 3] three bytes follow
    the headers. *)
Example content_length_runs :
  let E := Sample.env Sample.cfg [] in
  let run (sends : cstr) := process_client_headers (Sample.connected sends []) in
  fst (run (Sample.line "Content-Length: 0" ++ CRLF)) = -1
  /\ (s_out <$> fds (snd (run (Sample.line "Content-Length: 0" ++ CRLF))) !! 7)
     = Some (Sample.line "Via: 0.0 proxy (tinyproxy/1.5)"
             ++ Sample.line "content-length: 0" ++ CRLF)
  /\ fst (run (Sample.line "Content-Length: 3" ++ CRLF ++ str "abcdef")) = 0
  /\ (s_out <$> fds (snd (run (Sample.line "Content-Length: 3" ++ CRLF ++ str "abcdef"))) !! 7)
     = Some (Sample.line "Via: 0.0 proxy (tinyproxy/1.5)"
             ++ Sample.line "content-length: 3" ++ CRLF ++ str "abc").
Proof. vm_compute. repeat split; reflexivity. Qed.

Example content_length_zero_closes :
  let E := Sample.env Sample.cfg [] in
  let r := handle_connection 3
             (Sample.accepted (Sample.line "POST http://example.org/ HTTP/1.0"
                               ++ Sample.line "Content-Length: 0" ++ CRLF)) in
  fst r = Closed
  /\ trace (snd r) = [EvDial (str "example.org") 80 7; EvStat STAT_BADCONN; EvDestroy].
Proof. vm_compute. split; reflexivity. Qed.

Lemma connection_header_tokens_removed_witness :
  let E := Sample.env Sample.cfg [] in
  named (str "Foo") (forwarded_headers (header_map SampleHeaders.lines)) = []
  /\ named (str "close") (forwarded_headers (header_map SampleHeaders.lines)) = [].
Proof.
  intros E.
  pose proof (connection_header_tokens_removed (H:=E)
                (Sample.connected SampleHeaders.block [])
                (Sample.peer SampleHeaders.block) (Sample.peer [])
                SampleHeaders.lines CRLF [] 11 (str "close, Foo" ++ [NUL])) as Hw.
  cbn zeta in Hw.
  destruct Hw as (_ & Hall & _).
  - reflexivity.
  - reflexivity.
  - apply header_lines_ok. reflexivity.
  - split; [by right|]. vm_compute. discriminate.
  - vm_compute. discriminate.
  - reflexivity.
  - vm_compute. discriminate.
  - reflexivity.
  - apply not_elem_of_nil.
  - reflexivity.
  - lia.
  - split; apply Hall; left; apply list_elem_of_In; vm_compute.
    + right. left. reflexivity.
    + left. reflexivity.
Defined.

Lemma forwarded_request_headers_witness :
  let E := Sample.env Sample.cfg [] in
  let emitted :=
    emitted_headers (conn (Sample.connected SampleHeaders.block []))
      SampleHeaders.request (header_map SampleHeaders.lines) in
  named (str "host") emitted = [(str "Host", str "example.org")]
  /\ named (str "connection") emitted = [(str "Connection", str "close")].
Proof.
  intros E emitted.
  pose proof (forwarded_request_headers (H:=E)
                (Sample.connected SampleHeaders.block [])
                (Sample.peer SampleHeaders.block) (Sample.peer [])
                SampleHeaders.lines CRLF [] SampleHeaders.request) as Hw.
  cbn zeta in Hw.
  destruct Hw as (_ & Hhost & Hconn & _).
  - reflexivity.
  - reflexivity.
  - apply header_lines_ok. reflexivity.
  - split; [by right|]. vm_compute. discriminate.
  - vm_compute. discriminate.
  - reflexivity.
  - vm_compute. discriminate.
  - reflexivity.
  - apply not_elem_of_nil.
  - split; [exact Hhost|exact Hconn].
Defined.

Example forwarded_request_run :
  let E := Sample.env Sample.cfg [] in
  (s_out <$> fds (snd ((establish_http_connection SampleHeaders.request ;;
                        process_client_headers)
                         (Sample.connected SampleHeaders.block []))) !! 7)
  = Some (Sample.line "GET / HTTP/1.0" ++ Sample.line "Host: example.org"
          ++ Sample.line "Connection: close"
          ++ Sample.line "Via: 0.0 proxy (tinyproxy/1.5)"
          ++ Sample.line "accept: x" ++ CRLF).
Proof. vm_compute. reflexivity. Qed.



Example denied_client_run :
  let E := SampleMore.env_denied in
  let st' := snd (handle_connection 3
                    (Sample.accepted (Sample.line "GET / HTTP/1.0"
                                      ++ Sample.line "Host: a" ++ CRLF))) in
  (s_in <$> fds st' !! 3) = Some (octets (Sample.line "Host: a" ++ CRLF))
  /\ trace st'
     = [EvStat STAT_DENIED;
        EvHttpErr 403 (str "You do not have authorization for using this service.");
        EvStat STAT_BADCONN; EvDestroy].
Proof. vm_compute. split; reflexivity. Qed.


Example bad_request_run :
  let E := Sample.env Sample.cfg [] in
  let r := handle_connection 3 (Sample.accepted (Sample.line "GET" ++ CRLF)) in
  fst r = Closed
  /\ trace (snd r)
     = [EvHttpErr 400 (str "Bad Request. No request found."); EvDestroy].
Proof. vm_compute. split; reflexivity. Qed.

(** ** More on the request line *)

Lemma skip_space_spaces (k : nat) (u rest : cstr) :
  (forall c r, u ++ rest = c :: r -> isspace c = false) ->
  skip_space (repeat SP k ++ u ++ rest) = u ++ rest.
Proof.
  intros Hu. unfold skip_space.
  rewrite (span_app isspace (repeat SP k) (u ++ rest)); [done| |done].
  apply Forall_forall. intros c Hin. apply list_elem_of_In, repeat_spec in Hin. by subst c.
Qed.

Lemma not_sp c : negb (mem c [SP]) = true <-> c <> SP.
Proof.
  cbn. rewrite orb_false_r, negb_true_iff. split.
  - intros H1 ->. by rewrite ascii_eqb_refl in *.
  - intros H1. apply not_true_is_false; intros He; by apply ascii_eqb_eq in He.
Qed.

Lemma span_token (tok rest : cstr) :
  SP ∉ tok -> (forall c r, rest = c :: r -> c = SP) ->
  span (fun c => negb (mem c [SP])) (tok ++ rest) = (tok, rest).
Proof.
  intros Ht Hr. apply span_app.
  - apply Forall_forall. intros c Hin. apply not_sp. by intros ->.
  - intros c r Hcr. specialize (Hr c r Hcr). subst c. reflexivity.
Qed.

Lemma no_space_no_sp (u : cstr) : no_space u -> SP ∉ u.
Proof.
  intros Hu Hin. unfold no_space in Hu. rewrite Forall_forall in Hu.
  specialize (Hu SP Hin). discriminate.
Qed.

(** X1. The request line is split at spaces: a method, a URL and a
    protocol that are separated by one or more spaces are the three
    tokens, whatever follows the protocol after a further space is
    ignored. *)
Theorem request_line_three_tokens (m u p tail : cstr) (k1 k2 : nat) :
  m <> [] -> SP ∉ m -> u <> [] -> no_space u -> p <> [] -> no_space p ->
  (forall c r, tail = c :: r -> c = SP) ->
  request_tokens (m ++ repeat SP (S k1) ++ u ++ repeat SP (S k2) ++ p ++ tail)
  = (3, m, u, p).
Proof.
  intros Hm Hms Hu Hus Hp Hps Ht.
  unfold request_tokens, sscanf, request_line_format.
  assert (Hsp : forall (rest : cstr) k c r, repeat SP (S k) ++ rest = c :: r -> c = SP).
  { intros rest k c r. cbn. by intros [= <- _]. }
  assert (Hfirst : forall (t rest : cstr), t <> [] -> no_space t ->
            forall c r, t ++ rest = c :: r -> isspace c = false).
  { intros t rest Hne Hns c r Hcr. destruct t as [|c0 t0]; [done|].
    injection Hcr as <- _. by apply Forall_cons in Hns as [? _]. }
  rewrite (scan_notin [SP] _ _ _ m _ (span_token m _ Hms (Hsp _ k1)) Hm).
  cbn [scan].
  rewrite (skip_space_spaces (S k1) u _ (Hfirst u _ Hu Hus)).
  rewrite (span_token u _ (no_space_no_sp u Hus) (Hsp _ k2)).
  destruct u as [|u0 u1] eqn:Eu; [done|]. rewrite <- Eu.
  rewrite (skip_space_spaces (S k2) p _ (Hfirst p _ Hp Hps)).
  rewrite (span_token p _ (no_space_no_sp p Hps) Ht).
  destruct p as [|p0 p1] eqn:Ep; [done|]. rewrite <- Ep.
  subst u. reflexivity.
Qed.

Lemma request_line_three_tokens_witness :
  request_tokens (str "GET   http://a/  HTTP/1.0 trailing words")
  = (3, str "GET", str "http://a/", str "HTTP/1.0").
Proof.
  refine (request_line_three_tokens (str "GET") (str "http://a/") (str "HTTP/1.0")
            (str " trailing words") 2 1 _ _ _ _ _ _ _).
  - discriminate.
  - vm_compute. intros Hin. apply list_elem_of_In in Hin. cbn in Hin. intuition discriminate.
  - discriminate.
  - unfold no_space. repeat constructor.
  - discriminate.
  - unfold no_space. repeat constructor.
  - intros c r [= <- _]. reflexivity.
Defined.

Lemma span_short p (s a b : cstr) c :
  span p s = (a, b) -> c ∈ s -> p c = false -> (length a < length s)%nat.
Proof.
  intros Hs Hin Hc. destruct (span_inv _ _ _ _ Hs) as (-> & Ha & _).
  rewrite length_app. destruct b as [|b0 b1]; [|cbn; lia].
  rewrite app_nil_r in Hin. rewrite Forall_forall in Ha. specialize (Ha c Hin). congruence.
Qed.

Lemma take_line_quiet ws : arrived ws = [] -> take_line ws = ([], []).
Proof. induction ws as [|[c|] ws IH]; cbn; [done|done|auto]. Qed.

Lemma set_in_same (s : sock) : set_in (s_in s) s = s.
Proof. by destruct s. Qed.

Section RequestLineFacts.
Context `{Env}.

Lemma blank_line_length l : blank_line l -> (1 <= length l)%nat.
Proof. intros [Hl _]. by apply is_line_length. Qed.

Lemma concat_blank_length blanks :
  Forall blank_line blanks -> (length blanks <= length (concat blanks))%nat.
Proof.
  induction 1 as [|l blanks Hl _ IH]; cbn; [lia|].
  apply blank_line_length in Hl. rewrite length_app. lia.
Qed.

Lemma read_request_line_retry_blanks k st s blanks rest :
  HTTP_LINE_LENGTH < 2 ^ 64 ->
  fds st !! client_fd (conn st) = Some s ->
  s_in s = octets (concat blanks) ++ rest ->
  Forall blank_line blanks ->
  exists st1,
    read_request_line_retry (length blanks + k) st = read_request_line_retry k st1
    /\ fds st1 = <[client_fd (conn st) := set_in rest s]> (fds st)
    /\ conn_core st1 = conn_core st /\ trace st1 = trace st.
Proof.
  intros Hmax Hfd Hin Hb. revert st s Hfd Hin.
  induction Hb as [|l blanks Hl Hb IH]; intros st s Hfd Hin.
  - exists st. split; [reflexivity|]. split; [|done].
    cbn in Hin. rewrite <- Hin, set_in_same. symmetry. by apply insert_id.
  - destruct Hl as (Hline & Hlen & Hall).
    cbn [length Nat.add read_request_line_retry].
    unfold bind at 1, get at 1. cbn beta iota. unfold bind at 1.
    assert (Hin' : s_in s = octets l ++ (octets (concat blanks) ++ rest)).
    { rewrite Hin. unfold octets. cbn [concat]. by rewrite map_app, <- app_assoc. }
    rewrite (readline_line _ st s l _ Hfd Hin' Hline Hlen).
    pose proof (is_line_length l Hline) as Hl1.
    assert (Hmod : strlen l mod 2 ^ 64 = strlen l).
    { apply Z.mod_small. unfold strlen in *. lia. }
    rewrite Hmod.
    assert ((strlen l <=? 0) = false) as -> by (apply Z.leb_gt; unfold strlen; lia).
    assert ((strlen l <? 0) = false) as -> by (apply Z.ltb_ge; unfold strlen; lia).
    assert (Hch : chomp l = (strlen l, [])).
    { unfold chomp. rewrite span_all.
      - unfold strlen. by rewrite length_rev.
      - apply Forall_forall. intros c Hc.
        apply list_elem_of_In, in_rev, list_elem_of_In in Hc.
        rewrite Forall_forall in Hall. destruct (Hall c Hc) as [-> | ->]; reflexivity. }
    rewrite Hch, Z.eqb_refl.
    unfold bind at 1, modify_conn at 1, modify at 1. cbn beta iota.
    set (st0 := set_conn _ _).
    destruct (IH st0 (set_in (octets (concat blanks) ++ rest) s)) as (st1 & Hr & Hf & Hc & Ht).
    { subst st0. cbn. apply lookup_insert_eq. }
    { reflexivity. }
    exists st1. split; [exact Hr|]. split.
    + rewrite Hf. subst st0. cbn. by rewrite insert_insert_eq.
    + split; [rewrite Hc|rewrite Ht]; subst st0; reflexivity.
Qed.

(** X2. [read_request_line] skips the blank lines that come before
    the request line: the first line that has more than carriage
    returns and a newline is stored, without its line ending, as the
    request line, and the client's input is read up to the end of that
    line and no further. *)
Theorem read_request_line_skips_blank_lines st s blanks l rest :
  HTTP_LINE_LENGTH < 2 ^ 64 ->
  fds st !! client_fd (conn st) = Some s ->
  s_in s = octets (concat blanks ++ l) ++ rest ->
  Forall blank_line blanks -> is_line l -> strlen l <= HTTP_LINE_LENGTH ->
  (exists c, c ∈ l /\ c <> CR /\ c <> LF) ->
  exists st',
    read_request_line st = (Some 0, st')
    /\ request_line (conn st') = c_string (snd (chomp l))
    /\ fds st' = <[client_fd (conn st) := set_in rest s]> (fds st)
    /\ conn_core st' = conn_core st /\ trace st' = trace st.
Proof.
  intros Hmax Hfd Hin Hb Hline Hlen (c & Hc & Hcr & Hlf).
  unfold read_request_line, bind, get. cbn beta iota. rewrite Hfd.
  assert (Hin' : s_in s = octets (concat blanks) ++ (octets l ++ rest)).
  { rewrite Hin. unfold octets. by rewrite map_app, <- app_assoc. }
  pose proof (concat_blank_length blanks Hb) as Hbl.
  assert (Hfuel : exists k, S (length (s_in s)) = (length blanks + S k)%nat).
  { exists (length (s_in s) - length blanks)%nat. rewrite Hin'.
    rewrite length_app. unfold octets. rewrite length_map. unfold cstr in *. lia. }
  destruct Hfuel as [k ->].
  destruct (read_request_line_retry_blanks (S k) st s blanks _ Hmax Hfd Hin' Hb)
    as (st1 & -> & Hf1 & Hc1 & Ht1).
  assert (Hcfd : client_fd (conn st1) = client_fd (conn st)).
  { unfold conn_core in Hc1. by injection Hc1. }
  cbn [read_request_line_retry].
  unfold bind at 1, get at 1. cbn beta iota. unfold bind at 1.
  assert (Hfd1 : fds st1 !! client_fd (conn st1) = Some (set_in (octets l ++ rest) s)).
  { rewrite Hf1, Hcfd. apply lookup_insert_eq. }
  rewrite (readline_line _ st1 _ l rest Hfd1 eq_refl Hline Hlen).
  pose proof (is_line_length l Hline) as Hl1.
  assert (Hmod : strlen l mod 2 ^ 64 = strlen l).
  { apply Z.mod_small. unfold strlen in *. lia. }
  rewrite Hmod.
  assert ((strlen l <=? 0) = false) as -> by (apply Z.leb_gt; unfold strlen; lia).
  assert ((strlen l <? 0) = false) as -> by (apply Z.ltb_ge; unfold strlen; lia).
  destruct (chomp l) as [removed line'] eqn:Ech.
  assert ((removed =? strlen l) = false) as ->.
  { apply Z.eqb_neq. unfold chomp in Ech.
    destruct (span _ (rev l)) as [cut kept] eqn:Es. injection Ech as <- _.
    assert (length cut < length (rev l))%nat.
    { apply (span_short _ _ _ _ c Es).
      - by rewrite list_elem_of_In, <- in_rev, <- list_elem_of_In.
      - apply orb_false_iff. split; apply not_true_is_false; intros E;
          by apply ascii_eqb_eq in E. }
    rewrite length_rev in *. unfold strlen. lia. }
  unfold bind, modify_conn, modify, ret. cbn.
  eexists. split; [reflexivity|]. cbn.
  split; [reflexivity|]. split.
  - rewrite Hf1, Hcfd. by rewrite insert_insert_eq.
  - split; [|done]. rewrite <- Hc1. reflexivity.
Qed.

End RequestLineFacts.

Section ClosedEarly.
Context `{Env}.

Lemma read_request_line_closed st s blanks quiet :
  HTTP_LINE_LENGTH < 2 ^ 64 ->
  fds st !! client_fd (conn st) = Some s ->
  s_in s = octets (concat blanks) ++ quiet ->
  Forall blank_line blanks -> arrived quiet = [] ->
  exists st',
    read_request_line st = (Some (-1), st')
    /\ fds st' = <[client_fd (conn st) := set_in [] s]> (fds st)
    /\ conn_core st' = conn_core st /\ trace st' = trace st.
Proof.
  intros Hmax Hfd Hin Hb Hq.
  unfold read_request_line, bind, get. cbn beta iota. rewrite Hfd.
  pose proof (concat_blank_length blanks Hb) as Hbl.
  assert (Hfuel : exists k, S (length (s_in s)) = (length blanks + S k)%nat).
  { exists (length (s_in s) - length blanks)%nat. rewrite Hin.
    rewrite length_app. unfold octets. rewrite length_map. unfold cstr in *. lia. }
  destruct Hfuel as [k ->].
  destruct (read_request_line_retry_blanks (S k) st s blanks _ Hmax Hfd Hin Hb)
    as (st1 & -> & Hf1 & Hc1 & Ht1).
  assert (Hcfd : client_fd (conn st1) = client_fd (conn st)).
  { unfold conn_core in Hc1. by injection Hc1. }
  cbn [read_request_line_retry].
  unfold bind at 1, get at 1. cbn beta iota. unfold bind at 1.
  unfold readline, bind, get, ret, put_sock, modify. cbn beta iota.
  rewrite Hf1, Hcfd, lookup_insert_eq. cbn [s_in set_in].
  rewrite (take_line_quiet quiet Hq). cbn.
  eexists. split; [reflexivity|]. cbn.
  split; [by rewrite Hf1, insert_insert_eq|].
  split; [|done]. rewrite <- Hc1. reflexivity.
Qed.

(** X3. A client that closes before it has sent a request line (blank
    lines apart) gets no answer: the connection is counted as a bad one
    and destroyed, nothing is written to any descriptor and no server is
    contacted. *)
Theorem client_closes_before_request fd st s blanks quiet :
  0 < check_acl fd -> TUNNEL_CONFIGURED = false -> HTTP_LINE_LENGTH < 2 ^ 64 ->
  fds st !! fd = Some s -> s_in s = octets (concat blanks) ++ quiet ->
  Forall blank_line blanks -> arrived quiet = [] ->
  exists st',
    handle_connection fd st = (Closed, st')
    /\ trace st' = trace st ++ [EvStat STAT_BADCONN; EvDestroy]
    /\ fds st' = <[fd := set_in [] s]> (fds st).
Proof.
  intros Hacl Htun Hmax Hfd Hin Hb Hq.
  unfold handle_connection.
  unfold bind at 1, modify_conn at 1, modify at 1. cbn beta iota.
  assert ((check_acl fd <=? 0) = false) as -> by (apply Z.leb_gt; lia).
  rewrite Htun.
  set (st0 := set_conn (initialize_conn fd) st).
  destruct (read_request_line_closed st0 s blanks quiet Hmax Hfd Hin Hb Hq)
    as (st1 & Hr & Hf1 & Hc1 & Ht1).
  unfold internal_proxy. unfold bind at 1. rewrite Hr.
  change (-1 <? 0) with true. cbn iota.
  unfold bind, update_stats, destroy_conn, emit, modify, ret. cbn.
  eexists. split; [reflexivity|]. cbn. rewrite Ht1, Hf1. cbn.
  split; [by rewrite <- app_assoc|done].
Qed.

End ClosedEarly.

Lemma blank_line_ok `{Env} l :
  is_lineb l && (strlen l <=? HTTP_LINE_LENGTH)
  && forallb (fun c => ascii_eqb c CR || ascii_eqb c LF) l = true ->
  blank_line l.
Proof.
  intros Hb. apply andb_true_iff in Hb as [Hb Hall]. apply andb_true_iff in Hb as [Hl Hlen].
  split; [by apply is_lineb_ok|]. split; [by apply Z.leb_le|].
  apply Forall_forall. intros c Hc. rewrite forallb_forall in Hall.
  apply list_elem_of_In, Hall, orb_true_iff in Hc.
  destruct Hc as [Hc|Hc]; apply ascii_eqb_eq in Hc; auto.
Qed.

Lemma read_request_line_skips_blank_lines_witness :
  let E := Sample.env Sample.cfg [] in
  let st := Sample.accepted (CRLF ++ [LF] ++ Sample.line "GET http://a/ HTTP/1.0"
                             ++ str "Host: a") in
  exists st',
    read_request_line st = (Some 0, st')
    /\ request_line (conn st') = c_string (snd (chomp (Sample.line "GET http://a/ HTTP/1.0")))
    /\ fds st' = <[3 := set_in (octets (str "Host: a")) (Sample.peer (CRLF ++ [LF]
                       ++ Sample.line "GET http://a/ HTTP/1.0" ++ str "Host: a"))]> (fds st)
    /\ conn_core st' = conn_core st /\ trace st' = trace st.
Proof.
  intros E st.
  refine (read_request_line_skips_blank_lines (H:=E) st _ [CRLF; [LF]]
            (Sample.line "GET http://a/ HTTP/1.0") (octets (str "Host: a")) _ _ _ _ _ _ _).
  - reflexivity.
  - reflexivity.
  - reflexivity.
  - repeat (apply Forall_cons; split; [by apply blank_line_ok|]). apply Forall_nil_2.
  - by apply is_lineb_ok.
  - vm_compute. discriminate.
  - exists "G"%char. split; [by left|]. split; discriminate.
Defined.

Lemma client_closes_before_request_witness :
  let E := Sample.env Sample.cfg [] in
  let st := Sample.accepted CRLF in
  exists st',
    handle_connection 3 st = (Closed, st')
    /\ trace st' = trace st ++ [EvStat STAT_BADCONN; EvDestroy]
    /\ fds st' = <[3 := set_in [] (Sample.peer CRLF)]> (fds st).
Proof.
  intros E st.
  refine (client_closes_before_request (H:=E) 3 st _ [CRLF] [] _ _ _ _ _ _ _).
  - reflexivity.
  - reflexivity.
  - reflexivity.
  - reflexivity.
  - reflexivity.
  - repeat (apply Forall_cons; split; [by apply blank_line_ok|]). apply Forall_nil_2.
  - reflexivity.
Defined.

(** ** More on the CONNECT target and the protocol version *)

Lemma span_host_colon (h rest : cstr) :
  ":"%char ∉ h ->
  span (fun c => negb (mem c (str ":"))) (h ++ ":"%char :: rest) = (h, ":"%char :: rest).
Proof.
  intros Hc. apply span_app.
  - apply Forall_forall. intros c Hin. apply not_colon. by intros ->.
  - by intros c r [= <- _].
Qed.

(** X4. A CONNECT target whose port is not a number is not turned
    down: the first pattern fails after the host, the second pattern
    then takes the whole token, colon and all, as the host name, and the
    port is 443. *)
Theorem extract_ssl_url_port_not_number (h r : cstr) request :
  h <> [] -> ":"%char ∉ h -> no_space (h ++ ":"%char :: r) ->
  (forall c r', r = c :: r' -> isdigit c = false /\ c <> "-"%char /\ c <> "+"%char) ->
  extract_ssl_url (h ++ ":"%char :: r) request
  = (0, set_port 443 (set_host (h ++ ":"%char :: r) request)).
Proof.
  intros Hh Hc Hs Hr. unfold extract_ssl_url, sscanf_into, sscanf.
  rewrite (scan_notin _ _ _ _ _ _ (span_host_colon h r Hc) Hh), scan_char_ok.
  assert (Hr' : Forall (fun c => isspace c = false) r).
  { unfold no_space in Hs. apply Forall_app in Hs as [_ Hs]. by apply Forall_cons in Hs as [_ ?]. }
  assert (Hn : scan [DUShort] r ([] ++ [SStr h]) = (1, [SStr h])).
  { cbn [scan]. destruct r as [|c r']; [reflexivity|].
    destruct (Hr c r' eq_refl) as (Hd & Hm & Hp).
    apply Forall_cons in Hr' as [Hsp _].
    unfold skip_space. cbn [span]. rewrite Hsp. cbn [snd].
    unfold scan_number.
    assert (ascii_eqb c "-" = false) as ->
      by (apply not_true_is_false; intros He; by apply ascii_eqb_eq in He).
    assert (ascii_eqb c "+" = false) as ->
      by (apply not_true_is_false; intros He; by apply ascii_eqb_eq in He).
    cbn [span]. rewrite Hd. reflexivity. }
  rewrite Hn. change (1 =? 2) with false. cbn iota.
  rewrite scan_str; [reflexivity| |exact Hs].
  by destruct h.
Qed.

Lemma extract_ssl_url_port_not_number_witness :
  extract_ssl_url (str "secure.test:https") blank_request
  = (0, set_port 443 (set_host (str "secure.test:https") blank_request)).
Proof.
  refine (extract_ssl_url_port_not_number (str "secure.test") (str "https")
            blank_request _ _ _ _).
  - discriminate.
  - intros Hin. apply list_elem_of_In in Hin. cbn in Hin. intuition discriminate.
  - unfold no_space. repeat constructor.
  - intros c r' [= <- _]. repeat split; discriminate.
Defined.

(** X5. After the port of a CONNECT target the rest of the token is
    ignored: [H:P] followed by anything that does not begin with a digit
    gives host [H] and port [P]. *)
Theorem extract_ssl_url_ignores_tail (h p tail : cstr) request :
  h <> [] -> ":"%char ∉ h -> numeral p -> digits_value 0 p < 65536 ->
  (forall c r, tail = c :: r -> isdigit c = false) ->
  extract_ssl_url (h ++ ":"%char :: p ++ tail) request
  = (0, set_port (digits_value 0 p) (set_host h request)).
Proof.
  intros Hh Hc [Hp Hd] Hlt Ht. unfold extract_ssl_url, sscanf_into, sscanf.
  rewrite (scan_notin _ _ _ _ _ _ (span_host_colon h _ Hc) Hh), scan_char_ok.
  assert (Es : span isdigit (p ++ tail) = (p, tail)) by (by apply span_app).
  rewrite (scan_ushort _ _ p tail _ Es Hp Hlt (digits_value_nonneg _ _ ltac:(done) Hd)).
  reflexivity.
Qed.

Lemma extract_ssl_url_ignores_tail_witness :
  extract_ssl_url (str "secure.test:8443/index.html") blank_request
  = (0, set_port 8443 (set_host (str "secure.test") blank_request)).
Proof.
  refine (extract_ssl_url_ignores_tail (str "secure.test") (str "8443")
            (str "/index.html") blank_request _ _ _ _ _).
  - discriminate.
  - intros Hin. apply list_elem_of_In in Hin. cbn in Hin. intuition discriminate.
  - split; [discriminate|]. repeat constructor.
  - vm_compute. reflexivity.
  - intros c r [= <- _]. reflexivity.
Defined.

(** [%u] on a plain decimal number below 2^32. *)
Lemma scan_uint fmt (input p rest : cstr) done :
  span isdigit input = (p, rest) -> p <> [] -> digits_value 0 p < 2 ^ 32 ->
  0 <= digits_value 0 p ->
  scan (DUInt :: fmt) input done
  = scan fmt rest (done ++ [SNum (digits_value 0 p)]).
Proof.
  intros Hs Hp Hlt Hge. cbn [scan].
  destruct (span_inv _ _ _ _ Hs) as (-> & Hd & _).
  destruct p as [|d p]; [done|]. apply Forall_cons in Hd as [Hd0 Hd].
  assert (Hsk : skip_space ((d :: p) ++ rest) = (d :: p) ++ rest).
  { unfold skip_space. cbn. by rewrite (isdigit_not_space d). }
  rewrite Hsk. unfold scan_number.
  destruct (isdigit_not_sign d Hd0) as [Hm Hpl].
  cbn [app]. rewrite Hm, Hpl. change (d :: p ++ rest) with ((d :: p) ++ rest).
  rewrite Hs. unfold strtoul_value, ULONG_MAX. cbv zeta.
  destruct (Z.ltb_spec (2 ^ 64 - 1) (digits_value 0 (d :: p))) as [Hov|_]; [lia|].
  rewrite Z.mod_small by lia. reflexivity.
Qed.

Section VersionFacts.
Context `{Env}.

(** X6. A request that passes the filter and is not for the stathost
    has its protocol token [http/A.B], in any case of the letters, put
    into upper case, and [A] and [B] become the major and minor version
    of the connection. *)
Theorem protocol_version_parsed request st (a b : cstr) :
  filter config = false \/ filter_url (host request) = 0 ->
  (forall sh, stathost config = Some sh -> strcmp sh (host request) <> 0) ->
  strncasecmp (protocol request) (str "http") 4 = 0 ->
  drop 4 (protocol request) = "/"%char :: a ++ "."%char :: b ->
  numeral a -> digits_value 0 a < 2 ^ 32 ->
  numeral b -> digits_value 0 b < 2 ^ 32 ->
  process_request_gates request st
  = (Some (set_protocol (str "HTTP/" ++ a ++ "."%char :: b) request),
     set_conn (set_protocol_minor (digits_value 0 b)
                 (set_protocol_major (digits_value 0 a) (conn st))) st).
Proof.
  intros Hf Hs Hp Hd [Ha Hda] Hla [Hb Hdb] Hlb. unfold process_request_gates.
  assert (filter config && negb (filter_url (host request) =? 0) = false) as ->.
  { destruct Hf as [-> | ->]; [done|]. by rewrite andb_false_r. }
  assert (match stathost config with
          | Some sh => strcmp sh (host request) =? 0
          | None => false
          end = false) as ->.
  { destruct (stathost config) as [sh|]; [|done]. apply Z.eqb_neq. by apply Hs. }
  rewrite Hp. change (0 =? 0) with true. cbn iota.
  assert (Hm : memcpy (protocol request) (str "HTTP") 4 = str "HTTP/" ++ a ++ "."%char :: b).
  { unfold memcpy. rewrite Hd. reflexivity. }
  rewrite Hm. unfold sscanf, lit. rewrite scan_lit.
  assert (Ea : span isdigit (a ++ "."%char :: b) = (a, "."%char :: b)).
  { apply span_app; [done|]. by intros c r [= <- _]. }
  rewrite (scan_uint _ _ a _ _ Ea Ha Hla (digits_value_nonneg _ _ ltac:(done) Hda)).
  rewrite scan_char_ok.
  rewrite (scan_uint _ _ b [] _ (span_all _ _ Hdb) Hb Hlb (digits_value_nonneg _ _ ltac:(done) Hdb)).
  reflexivity.
Qed.

End VersionFacts.

Lemma protocol_version_parsed_witness :
  let E := Sample.env Sample.cfg [] in
  let request :=
    {| method := str "GET"; protocol := str "http/1.1"; host := str "example.org";
       port := 80; path := str "/" |} in
  let st := Sample.accepted [] in
  process_request_gates request st
  = (Some (set_protocol (str "HTTP/1.1") request),
     set_conn (set_protocol_minor 1 (set_protocol_major 1 (conn st))) st).
Proof.
  intros E request st.
  refine (protocol_version_parsed (H:=E) request st (str "1") (str "1") _ _ _ _ _ _ _ _).
  - by left.
  - intros sh. discriminate.
  - reflexivity.
  - reflexivity.
  - split; [discriminate|]. repeat constructor.
  - vm_compute. reflexivity.
  - split; [discriminate|]. repeat constructor.
  - vm_compute. reflexivity.
Defined.

(** ** More on header lines *)

Lemma chomp_eol (body eol : cstr) :
  Forall (fun c => c = CR \/ c = LF) eol ->
  (forall b c, body = b ++ [c] -> c <> CR /\ c <> LF) ->
  chomp (body ++ eol) = (strlen eol, body).
Proof.
  intros He Hb. unfold chomp. rewrite rev_app_distr.
  rewrite (span_app _ (rev eol) (rev body)).
  - unfold strlen. by rewrite length_rev, rev_involutive.
  - apply Forall_forall. intros c Hin. apply list_elem_of_In, in_rev, list_elem_of_In in Hin.
    rewrite Forall_forall in He. destruct (He c Hin) as [-> | ->]; reflexivity.
  - intros c r Hr. assert (Hbody : body = rev r ++ [c]).
    { rewrite <- (rev_involutive body), Hr. reflexivity. }
    destruct (Hb _ _ Hbody) as [Hcr Hlf].
    apply orb_false_iff. split; apply not_true_is_false; intros E;
      by apply ascii_eqb_eq in E.
Qed.

Lemma c_string_id (s : cstr) : NUL ∉ s -> c_string s = s.
Proof.
  intros Hn. unfold c_string. rewrite span_all; [done|].
  apply Forall_forall. intros c Hin. apply negb_true_iff, not_true_is_false.
  intros E. apply ascii_eqb_eq in E. by subst c.
Qed.

(** X7. A header line [name:value] is stored under the text before
    its first colon; the value starts after the colon and any further
    colons, spaces and tabs, and ends before the line ending. The value
    may be empty. *)
Theorem add_header_to_connection_parses m (name seps value eol : cstr) len :
  ":"%char ∉ name -> NUL ∉ name ->
  Forall (fun c => c = ":"%char \/ c = SP \/ c = HT) seps ->
  NUL ∉ value ->
  (forall c r, value = c :: r -> c <> ":"%char /\ c <> SP /\ c <> HT) ->
  (forall v c, value = v ++ [c] -> c <> CR /\ c <> LF) ->
  Forall (fun c => c = CR \/ c = LF) eol ->
  add_header_to_connection m (name ++ ":"%char :: seps ++ value ++ eol) len
  = (0, hashmap_insert m name (value ++ [NUL])).
Proof.
  intros Hcn Hnn Hseps Hnv Hfirst Hlast Heol.
  unfold add_header_to_connection.
  set (body := name ++ ":"%char :: seps ++ value).
  assert (Hline : name ++ ":"%char :: seps ++ value ++ eol = body ++ eol).
  { subst body. by rewrite <- !app_assoc, <- app_comm_cons, <- !app_assoc. }
  rewrite Hline, chomp_eol; [|done|].
  2:{ intros b c Hb. subst body.
      assert (Hl : last (name ++ ":"%char :: seps ++ value) = Some c)
        by (by rewrite Hb, last_snoc).
      rewrite last_app_cons in Hl.
      destruct value as [|v0 v1 _] using rev_ind.
      - rewrite app_nil_r in Hl.
        destruct seps as [|s0 s1 _] using rev_ind.
        + injection Hl as <-. split; discriminate.
        + rewrite app_comm_cons, last_snoc in Hl. injection Hl as <-.
          apply Forall_app in Hseps as [_ Hs0]. apply Forall_cons in Hs0 as [Hs0 _].
          destruct Hs0 as [-> | [-> | ->]]; split; discriminate.
      - rewrite app_comm_cons, app_assoc, last_snoc in Hl. injection Hl as <-.
        by apply (Hlast v1). }
  cbn [snd].
  rewrite c_string_id.
  2:{ subst body. intros Hin. apply elem_of_app in Hin as [Hin|Hin]; [done|].
      apply elem_of_cons in Hin as [Hin|Hin]; [discriminate|].
      apply elem_of_app in Hin as [Hin|Hin]; [|done].
      rewrite Forall_forall in Hseps. destruct (Hseps _ Hin) as [E|[E|E]]; discriminate. }
  subst body.
  rewrite (span_app _ name (":"%char :: seps ++ value)).
  2:{ apply Forall_forall. intros c Hin. apply negb_true_iff, not_true_is_false.
      intros E. apply ascii_eqb_eq in E. by subst c. }
  2:{ by intros c r [= <- _]. }
  change (":"%char :: seps ++ value) with ((":"%char :: seps) ++ value).
  rewrite (span_app _ (":"%char :: seps) value).
  - reflexivity.
  - apply Forall_cons. split; [reflexivity|].
    eapply Forall_impl; [exact Hseps|]. cbn. intros c [-> | [-> | ->]]; reflexivity.
  - intros c r Hv. destruct (Hfirst c r Hv) as (H1 & H2 & H3).
    rewrite !orb_false_iff. repeat split; apply not_true_is_false; intros E;
      by apply ascii_eqb_eq in E.
Qed.

Lemma add_header_to_connection_parses_witness :
  add_header_to_connection hashmap_create (str "Accept::  text/html, */*" ++ CRLF) 26
  = (0, hashmap_insert hashmap_create (str "Accept") (str "text/html, */*" ++ [NUL])).
Proof.
  refine (add_header_to_connection_parses hashmap_create (str "Accept")
            [":"%char; SP; SP] (str "text/html, */*") CRLF 26 _ _ _ _ _ _ _).
  - intros Hin. apply list_elem_of_In in Hin. cbn in Hin. intuition discriminate.
  - intros Hin. apply list_elem_of_In in Hin. cbn in Hin. intuition discriminate.
  - repeat (apply Forall_cons; split; [auto|]). apply Forall_nil_2.
  - intros Hin. apply list_elem_of_In in Hin. cbn in Hin. intuition discriminate.
  - intros c r [= <- _]. repeat split; discriminate.
  - intros v c Hv.
    assert (Hl : last (str "text/html, */*") = last (v ++ [c])) by (by rewrite Hv).
    rewrite last_snoc in Hl. vm_compute in Hl. injection Hl as <-. split; discriminate.
  - repeat (apply Forall_cons; split; [auto|]). apply Forall_nil_2.
Defined.

(** ** More on what is written before the relay *)

Section WriteFacts.
Context `{Env}.

Lemma safe_write_taken fd data st s e k :
  fds st !! fd = Some s -> s_wr s = e :: k -> e <> WFail ->
  safe_write fd data st
  = (strlen data, set_fds (<[fd := wrote data k s]> (fds st)) st).
Proof.
  intros Hfd Hwr He. unfold safe_write, bind, get, ret, put_sock, modify. cbn beta iota.
  rewrite Hfd, Hwr. by destruct e.
Qed.

Lemma safe_write_failed fd data st s k :
  fds st !! fd = Some s -> s_wr s = WFail :: k ->
  safe_write fd data st = (-1, set_fds (<[fd := wrote [] k s]> (fds st)) st).
Proof.
  intros Hfd Hwr. unfold safe_write, bind, get, ret, put_sock, modify. cbn beta iota.
  by rewrite Hfd, Hwr.
Qed.

Lemma strlen_ltb (s : cstr) : (strlen s <? 0) = false.
Proof. apply Z.ltb_ge, strlen_nonneg. Qed.

(** X8. [establish_http_connection] stops at the first write that the
    server fails: it returns -1, what it has written are the pieces
    (request line, [Host], [Connection: close], in this order) before the
    failed one, and it attempts no write after it. *)
Theorem establish_http_connection_stops_at_failure request st ss pre k :
  fds st !! server_fd (conn st) = Some ss ->
  s_wr ss = pre ++ WFail :: k -> WFail ∉ pre -> (length pre < 3)%nat ->
  exists st' ss',
    establish_http_connection request st = (-1, st')
    /\ fds st' = <[server_fd (conn st) := ss']> (fds st)
    /\ s_out ss' = s_out ss ++ concat (take (length pre) (request_head request))
    /\ s_wr ss' = k /\ s_in ss' = s_in ss
    /\ conn st' = conn st /\ trace st' = trace st.
Proof.
  intros Hfd Hwr Hpre Hlen.
  assert (Hne : forall e, e ∈ pre -> e <> WFail) by (intros e He ->; done).
  unfold establish_http_connection, write_message.
  unfold bind at 1, get at 1. cbn beta iota. unfold bind at 1.
  destruct pre as [|e1 pre].
  { rewrite (safe_write_failed _ _ st ss k Hfd Hwr). change (-1 <? 0) with true. cbn iota.
    eexists _, (wrote [] k ss). split; [reflexivity|]. cbn. by rewrite app_nil_r. }
  rewrite (safe_write_taken _ _ st ss e1 (pre ++ WFail :: k) Hfd Hwr (Hne e1 (list_elem_of_here _ _))).
  rewrite strlen_ltb. cbn iota.
  set (st1 := set_fds _ st). set (s1 := wrote _ _ ss) in *.
  assert (Hfd1 : fds st1 !! server_fd (conn st) = Some s1) by apply lookup_insert_eq.
  unfold bind at 1.
  destruct pre as [|e2 pre].
  { rewrite (safe_write_failed _ _ st1 s1 k Hfd1 eq_refl). change (-1 <? 0) with true.
    cbn iota. eexists _, (wrote [] k s1). split; [reflexivity|]. cbn.
    split; [by rewrite insert_insert_eq|]. by rewrite !app_nil_r. }
  rewrite (safe_write_taken _ _ st1 s1 e2 (pre ++ WFail :: k) Hfd1 eq_refl
             (Hne e2 (list_elem_of_further _ _ _ (list_elem_of_here _ _)))).
  rewrite strlen_ltb. cbn iota.
  set (st2 := set_fds _ st1). set (s2 := wrote _ _ s1) in *.
  assert (Hfd2 : fds st2 !! server_fd (conn st) = Some s2) by apply lookup_insert_eq.
  unfold bind at 1.
  destruct pre as [|e3 pre]; [|cbn in Hlen; lia].
  rewrite (safe_write_failed _ _ st2 s2 k Hfd2 eq_refl). change (-1 <? 0) with true.
  cbn iota. eexists _, (wrote [] k s2). split; [reflexivity|]. cbn.
  split; [by rewrite !insert_insert_eq|]. by rewrite !app_nil_r, <- !app_assoc.
Qed.

End WriteFacts.

Lemma establish_http_connection_stops_at_failure_witness :
  let ss := {| s_in := []; s_out := []; s_wr := [WTake 5; WFail]; s_nonblock := false |} in
  let st := {| conn := set_server_fd 7 (initialize_conn 3);
               fds := <[ 7 := ss ]> {[ 3 := Sample.peer [] ]}; trace := [] |} in
  exists st' ss',
    establish_http_connection SampleHeaders.request st = (-1, st')
    /\ fds st' = <[7 := ss']> (fds st)
    /\ s_out ss' = [] ++ concat (take 1 (request_head SampleHeaders.request))
    /\ s_wr ss' = [] /\ s_in ss' = []
    /\ conn st' = conn st /\ trace st' = trace st.
Proof.
  intros ss st.
  refine (establish_http_connection_stops_at_failure SampleHeaders.request st ss
            [WTake 5] [] _ _ _ _).
  - reflexivity.
  - reflexivity.
  - intros Hin. apply list_elem_of_In in Hin. cbn in Hin. intuition discriminate.
  - cbn. lia.
Defined.

Section GreetingFacts.
Context `{Env}.

Lemma send_ssl_response_sent st s :
  fds st !! client_fd (conn st) = Some s -> takes_writes s ->
  exists st',
    send_ssl_response st = (0, st')
    /\ sent_to (client_fd (conn st)) (SSL_CONNECTION_RESPONSE ++ PROXY_AGENT ++ CRLF) st st'.
Proof.
  intros Hfd Hts. unfold send_ssl_response.
  unfold bind at 1, get at 1. cbn beta iota. unfold bind at 1.
  destruct (safe_write_sent _ SSL_CONNECTION_RESPONSE st s Hfd Hts) as (st1 & -> & H1).
  rewrite strlen_ltb. cbn iota. unfold bind at 1.
  destruct (sent_to_sock _ _ _ _ H1) as (s1 & Hfd1 & Hts1).
  destruct (safe_write_sent _ PROXY_AGENT st1 s1 Hfd1 Hts1) as (st2 & -> & H2).
  rewrite strlen_ltb. cbn iota. unfold bind at 1.
  destruct (sent_to_sock _ _ _ _ H2) as (s2 & Hfd2 & Hts2).
  destruct (safe_write_sent _ CRLF st2 s2 Hfd2 Hts2) as (st3 & -> & H3).
  rewrite strlen_ltb. cbn iota.
  exists st3. split; [reflexivity|].
  eapply sent_to_trans; [exact H1|]. eapply sent_to_trans; [exact H2|exact H3].
Qed.

(** X9. A CONNECT request without an upstream proxy, from the label
    [send_error] on: the client's header block is read and not forwarded,
    the client is sent the line [HTTP/1.0 200 Connection established],
    the [Proxy-agent] line and a blank line, and the relay starts; the
    server's socket is as it was when the connection to it was made. *)
Theorem connect_greeting st sc lines t rest :
  connect_method (conn st) = true -> UPSTREAM_CONFIGURED = false ->
  response_message_sent (conn st) = false ->
  fds st !! client_fd (conn st) = Some sc ->
  s_in sc = octets (concat lines ++ t) ++ rest ->
  Forall header_line lines -> end_of_headers t -> takes_writes sc ->
  exists st1 sc1,
    send_error st = relay_proxy st1
    /\ fds st1 = <[client_fd (conn st) := sc1]> (fds st)
    /\ s_in sc1 = rest
    /\ s_out sc1 = s_out sc ++ SSL_CONNECTION_RESPONSE ++ PROXY_AGENT ++ CRLF
    /\ conn st1 = conn st /\ trace st1 = trace st.
Proof.
  intros Hcm Hup Hrm Hfd Hin Hl Ht Hts.
  pose proof (process_client_headers_block st sc lines t rest Hfd Hin Hl Ht) as Hp.
  rewrite Hcm, Hup in Hp. cbn [negb andb] in Hp. rewrite orb_true_r in Hp.
  unfold ret in Hp.
  set (sta := client_read_to rest sc st) in *.
  assert (Hfda : fds sta !! client_fd (conn sta) = Some (set_in rest sc)).
  { subst sta. cbn. apply lookup_insert_eq. }
  destruct (send_ssl_response_sent sta (set_in rest sc) Hfda Hts) as (st1 & Hs & Hsent).
  unfold send_error. unfold bind at 1. rewrite Hp.
  unfold bind at 1, get at 1. cbn beta iota.
  change (0 <? 0) with false. cbn iota. unfold bind at 1, ret at 1. cbn [andb].
  change (conn sta) with (conn st). rewrite Hrm, Hcm, Hup. cbn [negb orb].
  unfold bind at 1. rewrite Hs. change (0 <? 0) with false. cbn iota.
  destruct Hsent as (sx & sy & Hsx & Hf & Ho & Hi & _ & _ & Hcn & Htr).
  change (conn sta) with (conn st) in *.
  assert (sx = set_in rest sc) as -> by congruence.
  exists st1, sy. split; [reflexivity|]. split.
  { rewrite Hf. subst sta. cbn. by rewrite insert_insert_eq. }
  split; [by rewrite Hi|]. split; [by rewrite Ho|]. by split.
Qed.

End GreetingFacts.

Lemma connect_greeting_witness :
  let E := Sample.env Sample.cfg [] in
  let st := Sample.with_connect_method (Sample.connected SampleHeaders.block []) in
  exists st1 sc1,
    send_error st = relay_proxy st1
    /\ fds st1 = <[3 := sc1]> (fds st)
    /\ s_in sc1 = []
    /\ s_out sc1 = [] ++ SSL_CONNECTION_RESPONSE ++ PROXY_AGENT ++ CRLF
    /\ conn st1 = conn st /\ trace st1 = trace st.
Proof.
  intros E st.
  refine (connect_greeting (H:=E) st (Sample.peer SampleHeaders.block)
            SampleHeaders.lines CRLF [] _ _ _ _ _ _ _ _).
  - reflexivity.
  - reflexivity.
  - reflexivity.
  - reflexivity.
  - reflexivity.
  - apply header_lines_ok. reflexivity.
  - split; [by right|]. vm_compute. discriminate.
  - apply not_elem_of_nil.
Defined.

(** ** More on the request body *)

Lemma skip_pause_quiet ws : arrived ws = [] -> skip_pause ws = [].
Proof. induction ws as [|[c|] ws IH]; cbn; [done|done|auto]. Qed.

Section BodyMore.
Context `{Env}.

(** X10. For a positive length that the client sends in full,
    [pull_client_data] reads exactly that many bytes from the client and
    writes them, in order, to the server; what the client sent after them
    is still unread. *)
Theorem request_body_pumped total st sc ss :
  0 < MAXBUFFSIZE -> 0 < total ->
  fds st !! client_fd (conn st) = Some sc ->
  total <= strlen (arrived (s_in sc)) ->
  server_fd (conn st) <> client_fd (conn st) ->
  response_message_sent (conn st) = false ->
  fds st !! server_fd (conn st) = Some ss -> takes_writes ss ->
  exists st' sc' ss',
    pull_client_data total st = (0, st')
    /\ fds st' !! client_fd (conn st) = Some sc'
    /\ arrived (s_in sc') = drop (Z.to_nat total) (arrived (s_in sc))
    /\ s_out sc' = s_out sc
    /\ fds st' !! server_fd (conn st) = Some ss'
    /\ s_out ss' = s_out ss ++ take (Z.to_nat total) (arrived (s_in sc))
    /\ conn st' = conn st /\ trace st' = trace st.
Proof.
  intros Hmax Hpos Hc Hlen Hne Hr Hs Hts. unfold pull_client_data.
  destruct (pull_client_data_loop_ok (S (Z.to_nat total)) total st sc)
    as (st' & sc' & Hp & Hcn & Htr & Hc' & Ha & Ho & Hsrv); try done; [lia|by eauto|].
  destruct (Hsrv ss Hs) as (ss' & Hs' & Ho'). rewrite Hr in Ho'.
  by exists st', sc', ss'.
Qed.

Lemma pull_client_data_loop_short fuel total st sc ss :
  0 < MAXBUFFSIZE -> strlen (arrived (s_in sc)) < total ->
  (length (arrived (s_in sc)) < fuel)%nat ->
  fds st !! client_fd (conn st) = Some sc ->
  server_fd (conn st) <> client_fd (conn st) ->
  response_message_sent (conn st) = false ->
  fds st !! server_fd (conn st) = Some ss -> takes_writes ss ->
  exists st' sc' ss',
    pull_client_data_loop fuel total st = (-1, st')
    /\ fds st' !! client_fd (conn st) = Some sc'
    /\ arrived (s_in sc') = [] /\ s_out sc' = s_out sc
    /\ fds st' !! server_fd (conn st) = Some ss'
    /\ s_out ss' = s_out ss ++ arrived (s_in sc)
    /\ conn st' = conn st /\ trace st' = trace st.
Proof.
  intros Hmax. revert total st sc ss.
  induction fuel as [|fuel IH]; intros total st sc ss Hlt Hfuel Hc Hne Hr Hs Hts; [lia|].
  cbn [pull_client_data_loop]. unfold bind at 1, get at 1. cbn beta iota.
  pose proof (strlen_nonneg (arrived (s_in sc))) as Hnn.
  set (n := Z.min MAXBUFFSIZE total).
  assert (Hn : 0 < n <= total) by lia.
  unfold bind at 1, safe_read at 1, bind, get, ret, put_sock, modify. cbn beta iota.
  rewrite Hc. assert ((n <=? 0) = false) as -> by (apply Z.leb_gt; lia).
  destruct (take_run (Z.to_nat n) (skip_pause (s_in sc))) as [got rest] eqn:Et.
  destruct (take_run_arrived _ _ _ _ Et) as (Hgot & Hrest & Hgn).
  rewrite arrived_skip_pause in Hgot, Hrest.
  cbn beta iota. unfold strlen at 1.
  set (st1 := set_fds (<[client_fd (conn st) := set_in rest sc]> (fds st)) st).
  destruct (arrived (s_in sc)) as [|c r] eqn:Ea.
  - (* the client has closed *)
    rewrite take_nil in Hgot. subst got. cbn.
    exists st1, (set_in rest sc), ss. split; [reflexivity|]. subst st1. cbn.
    split; [apply lookup_insert_eq|]. split; [by rewrite Hrest|]. split; [done|].
    split; [by rewrite lookup_insert_ne by congruence|]. split; [by rewrite app_nil_r|done].
  - destruct (skip_pause_head _ _ _ Ea) as [ws' Hws]. rewrite Hws in Et.
    assert (Hg1 : (1 <= length got)%nat).
    { destruct (Z.to_nat n) as [|k] eqn:Ek; [lia|]. cbn in Et.
      destruct (take_run k ws'). injection Et as <- _. cbn. lia. }
    assert ((Z.of_nat (length got) <=? 0) = false) as -> by (apply Z.leb_gt; lia).
    rewrite Hr. cbn [negb].
    assert (Hs1 : fds st1 !! server_fd (conn st) = Some ss).
    { subst st1. cbn. by rewrite lookup_insert_ne by congruence. }
    destruct (safe_write_sent (server_fd (conn st)) got st1 ss Hs1 Hts)
      as (st2 & Hw & Hsent).
    rewrite Hw. rewrite strlen_ltb. cbn iota.
    destruct Hsent as (sx & sy & Hsx & Hf & Ho & _ & _ & Hty & Hcn & Htr).
    assert (sx = ss) as -> by congruence.
    assert (Hlg : (length got <= length (c :: r))%nat).
    { rewrite Hgot, length_take. lia. }
    assert (Hmore : (total - strlen got >? 0) = true).
    { apply Z.gtb_lt. unfold strlen in *. lia. }
    rewrite Hmore.
    destruct (IH (total - strlen got) st2 (set_in rest sc) sy)
      as (st' & sc' & ss' & Hp & Hc' & Ha' & Hoc & Hs' & Hos & Hcn' & Htr').
    + cbn [s_in set_in]. rewrite Hrest. unfold strlen in *. rewrite length_drop. lia.
    + cbn [s_in set_in]. rewrite Hrest, length_drop. lia.
    + rewrite Hcn, Hf. rewrite lookup_insert_ne by done. subst st1. cbn.
      apply lookup_insert_eq.
    + by rewrite Hcn.
    + by rewrite Hcn.
    + rewrite Hcn, Hf. apply lookup_insert_eq.
    + done.
    + rewrite Hcn in *. exists st', sc', ss'. split; [exact Hp|].
      split; [done|]. split; [done|]. split; [done|]. split; [done|]. split.
      * rewrite Hos, Ho, <- app_assoc. f_equal. cbn [s_in set_in]. rewrite Hrest.
        rewrite Hgot at 1. apply take_drop.
      * split; [done|]. by rewrite Htr'.
Qed.

(** X11. When the client closes before it has sent [length] bytes,
    [pull_client_data] fails with -1, after it has written to the server
    all that the client did send. *)
Theorem request_body_cut_short total st sc ss :
  0 < MAXBUFFSIZE -> strlen (arrived (s_in sc)) < total ->
  fds st !! client_fd (conn st) = Some sc ->
  server_fd (conn st) <> client_fd (conn st) ->
  response_message_sent (conn st) = false ->
  fds st !! server_fd (conn st) = Some ss -> takes_writes ss ->
  exists st' sc' ss',
    pull_client_data total st = (-1, st')
    /\ fds st' !! client_fd (conn st) = Some sc'
    /\ arrived (s_in sc') = [] /\ s_out sc' = s_out sc
    /\ fds st' !! server_fd (conn st) = Some ss'
    /\ s_out ss' = s_out ss ++ arrived (s_in sc)
    /\ conn st' = conn st /\ trace st' = trace st.
Proof.
  intros Hmax Hlt Hc Hne Hr Hs Hts. unfold pull_client_data.
  apply pull_client_data_loop_short; try done.
  unfold strlen in Hlt. lia.
Qed.

End BodyMore.

Lemma request_body_pumped_witness :
  let E := Sample.env Sample.cfg [] in
  let st := Sample.connected (str "abcdef") [] in
  exists st' sc' ss',
    pull_client_data 4 st = (0, st')
    /\ fds st' !! 3 = Some sc'
    /\ arrived (s_in sc') = str "ef"
    /\ s_out sc' = []
    /\ fds st' !! 7 = Some ss'
    /\ s_out ss' = [] ++ str "abcd"
    /\ conn st' = conn st /\ trace st' = trace st.
Proof.
  intros E st.
  refine (request_body_pumped (H:=E) 4 st (Sample.peer (str "abcdef")) (Sample.peer [])
            _ _ _ _ _ _ _ _).
  - reflexivity.
  - reflexivity.
  - reflexivity.
  - vm_compute. discriminate.
  - vm_compute. discriminate.
  - reflexivity.
  - reflexivity.
  - apply not_elem_of_nil.
Defined.

Lemma request_body_cut_short_witness :
  let E := Sample.env Sample.cfg [] in
  let st := Sample.connected (str "ab") [] in
  exists st' sc' ss',
    pull_client_data 4 st = (-1, st')
    /\ fds st' !! 3 = Some sc'
    /\ arrived (s_in sc') = [] /\ s_out sc' = []
    /\ fds st' !! 7 = Some ss'
    /\ s_out ss' = [] ++ str "ab"
    /\ conn st' = conn st /\ trace st' = trace st.
Proof.
  intros E st.
  refine (request_body_cut_short (H:=E) 4 st (Sample.peer (str "ab")) (Sample.peer [])
            _ _ _ _ _ _ _).
  - reflexivity.
  - reflexivity.
  - reflexivity.
  - vm_compute. discriminate.
  - reflexivity.
  - reflexivity.
  - apply not_elem_of_nil.
Defined.

Section BodyDropped.
Context `{Env}.

Lemma pull_client_data_loop_dropped fuel total st sc :
  0 < MAXBUFFSIZE -> 0 < total -> (Z.to_nat total < fuel)%nat ->
  fds st !! client_fd (conn st) = Some sc ->
  total <= strlen (arrived (s_in sc)) ->
  response_message_sent (conn st) = true ->
  exists st' rest,
    pull_client_data_loop fuel total st = (0, st')
    /\ fds st' = <[client_fd (conn st) := set_in rest sc]> (fds st)
    /\ arrived rest = drop (Z.to_nat total) (arrived (s_in sc))
    /\ conn st' = conn st /\ trace st' = trace st.
Proof.
  intros Hmax. revert total st sc.
  induction fuel as [|fuel IH]; intros total st sc Hpos Hfuel Hc Hlen Hr; [lia|].
  cbn [pull_client_data_loop]. unfold bind at 1, get at 1. cbn beta iota.
  set (n := Z.min MAXBUFFSIZE total).
  assert (Hn : 0 < n <= total) by lia.
  unfold bind at 1, safe_read at 1, bind, get, ret, put_sock, modify. cbn beta iota.
  rewrite Hc. assert ((n <=? 0) = false) as -> by (apply Z.leb_gt; lia).
  destruct (take_run (Z.to_nat n) (skip_pause (s_in sc))) as [got rest] eqn:Et.
  destruct (take_run_arrived _ _ _ _ Et) as (Hgot & Hrest & Hgn).
  rewrite arrived_skip_pause in Hgot, Hrest.
  assert (Hg1 : (1 <= length got)%nat).
  { destruct (arrived (s_in sc)) as [|c r] eqn:Ea; [unfold strlen in Hlen; cbn in Hlen; lia|].
    destruct (skip_pause_head _ _ _ Ea) as [ws' Hws]. rewrite Hws in Et.
    destruct (Z.to_nat n) as [|k] eqn:Ek; [lia|]. cbn in Et.
    destruct (take_run k ws'). injection Et as <- _. cbn. lia. }
  cbn beta iota. unfold strlen at 1.
  assert ((Z.of_nat (length got) <=? 0) = false) as -> by (apply Z.leb_gt; lia).
  rewrite Hr. cbn [negb]. change (0 <? 0) with false. cbn iota.
  set (st1 := set_fds (<[client_fd (conn st) := set_in rest sc]> (fds st)) st).
  unfold strlen at 1.
  destruct (total - Z.of_nat (length got) >? 0) eqn:Emore.
  - apply Z.gtb_lt in Emore.
    destruct (IH (total - Z.of_nat (length got)) st1 (set_in rest sc))
      as (st' & rest' & Hp & Hf & Ha & Hcn & Htr); try done; try lia.
    { subst st1. cbn. apply lookup_insert_eq. }
    { cbn [s_in set_in]. rewrite Hrest. unfold strlen in *. rewrite length_drop. lia. }
    exists st', rest'. split; [exact Hp|]. split.
    { rewrite Hf. subst st1. cbn. rewrite insert_insert_eq. by destruct sc. }
    split; [|done]. rewrite Ha. cbn [s_in set_in]. rewrite Hrest, drop_drop. f_equal. lia.
  - rewrite Z.gtb_ltb in Emore. apply Z.ltb_ge in Emore.
    exists st1, rest. split; [done|]. split; [done|]. split; [|done].
    rewrite Hrest. f_equal. lia.
Qed.

(** X12. Once an error response has been sent, [pull_client_data]
    reads the body from the client and drops it: no descriptor but the
    client's is touched. *)
Theorem request_body_dropped_after_error total st sc :
  0 < MAXBUFFSIZE -> 0 < total ->
  fds st !! client_fd (conn st) = Some sc ->
  total <= strlen (arrived (s_in sc)) ->
  response_message_sent (conn st) = true ->
  exists st' rest,
    pull_client_data total st = (0, st')
    /\ fds st' = <[client_fd (conn st) := set_in rest sc]> (fds st)
    /\ arrived rest = drop (Z.to_nat total) (arrived (s_in sc))
    /\ conn st' = conn st /\ trace st' = trace st.
Proof.
  intros Hmax Hpos Hc Hlen Hr. unfold pull_client_data.
  apply pull_client_data_loop_dropped; try done. lia.
Qed.

End BodyDropped.

Lemma request_body_dropped_after_error_witness :
  let E := Sample.env Sample.cfg [] in
  let st := Sample.connected (str "abcdef") [] in
  let st := set_conn (set_response_message_sent true (conn st)) st in
  exists st' rest,
    pull_client_data 4 st = (0, st')
    /\ fds st' = <[3 := set_in rest (Sample.peer (str "abcdef"))]> (fds st)
    /\ arrived rest = str "ef"
    /\ conn st' = conn st /\ trace st' = trace st.
Proof.
  intros E st0 st.
  refine (request_body_dropped_after_error (H:=E) 4 st (Sample.peer (str "abcdef"))
            _ _ _ _ _).
  - reflexivity.
  - reflexivity.
  - reflexivity.
  - vm_compute. discriminate.
  - reflexivity.
Defined.

(** ** A header block that does not end well *)

Lemma set_fds_same (st : state) : set_fds (fds st) st = st.
Proof. by destruct st. Qed.

Lemma chomp_subset (l : cstr) c : c ∈ snd (chomp l) -> c ∈ l.
Proof.
  unfold chomp. destruct (span _ (rev l)) as [cut kept] eqn:Es. cbn [snd].
  destruct (span_inv _ _ _ _ Es) as (Hr & _ & _).
  rewrite !list_elem_of_In, <- in_rev. intros Hin.
  apply in_rev. rewrite Hr. apply in_or_app. by right.
Qed.

Lemma c_string_subset (b : cstr) c : c ∈ c_string b -> c ∈ b.
Proof.
  unfold c_string. destruct (span _ b) as [a r] eqn:Es. cbn [fst].
  destruct (span_inv _ _ _ _ Es) as (-> & _ & _). intros Hin.
  apply elem_of_app. by left.
Qed.

Section BlockFailures.
Context `{Env}.

Lemma header_lines_length lines :
  Forall header_line lines -> (length lines <= length (concat lines))%nat.
Proof.
  induction 1 as [|l lines Hl _ IH]; cbn; [lia|].
  destruct Hl as (Hline & _). apply is_line_length in Hline.
  rewrite length_app. lia.
Qed.

Lemma get_all_headers_loop_prefix k fd st s lines rest m :
  fds st !! fd = Some s ->
  s_in s = octets (concat lines) ++ rest ->
  Forall header_line lines ->
  get_all_headers_loop (length lines + k) fd m st
  = get_all_headers_loop k fd (fold_left add_header lines m)
      (set_fds (<[fd := set_in rest s]> (fds st)) st).
Proof.
  intros Hfd Hin Hl. revert st s m Hfd Hin.
  induction Hl as [|l lines Hl0 Hl IH]; intros st s m Hfd Hin.
  - cbn in Hin. cbn [length Nat.add fold_left].
    rewrite <- Hin, set_in_same, insert_id by done. by rewrite set_fds_same.
  - cbn [length Nat.add get_all_headers_loop]. unfold bind at 1.
    destruct Hl0 as (Hline & Hlen & Hncr & Hadd).
    assert (Hin' : s_in s = octets l ++ (octets (concat lines) ++ rest)).
    { rewrite Hin. unfold octets. cbn [concat]. by rewrite map_app, <- app_assoc. }
    rewrite (readline_line fd st s l _ Hfd Hin' Hline Hlen).
    rewrite (is_line_positive l Hline), Hncr.
    specialize (Hadd m).
    destruct (add_header_to_connection m l (strlen l)) as [a m'] eqn:Ea.
    cbn in Hadd. subst a. change (0 <? 0) with false. cbn iota.
    set (st1 := set_fds _ st).
    rewrite (IH st1 (set_in (octets (concat lines) ++ rest) s) m').
    + cbn [fold_left].
      replace (add_header m l) with m' by (unfold add_header; by rewrite Ea).
      subst st1. cbn. by rewrite insert_insert_eq.
    + subst st1. cbn. apply lookup_insert_eq.
    + reflexivity.
Qed.

Lemma add_header_to_connection_no_colon m (l : cstr) len :
  ":"%char ∉ l -> add_header_to_connection m l len = (-1, m).
Proof.
  intros Hc. unfold add_header_to_connection.
  rewrite span_all; [done|].
  apply Forall_forall. intros c Hin. apply negb_true_iff, not_true_is_false.
  intros E. apply ascii_eqb_eq in E. subst c.
  by apply c_string_subset, chomp_subset in Hin.
Qed.

Lemma send_error_bad_headers st st1 :
  process_client_headers st = (-1, st1) ->
  response_message_sent (conn st1) = false ->
  send_error st
  = (Closed, log_event EvDestroy (log_event (EvStat STAT_BADCONN) st1)).
Proof.
  intros Hp Hr. unfold send_error. unfold bind at 1. rewrite Hp.
  unfold bind at 1, get at 1. cbn beta iota.
  change (-1 <? 0) with true. cbn iota.
  rewrite Hr. reflexivity.
Qed.

(** X13. A header line without a colon ends the reading of the
    header block: [process_client_headers] fails with -1, the lines after
    it are left unread, and nothing of the block is forwarded (no
    descriptor but the client's is touched). If no response has been sent
    before, the connection is counted as a bad one and destroyed without
    one. *)
Theorem header_without_colon_aborts st sc lines bad rest :
  fds st !! client_fd (conn st) = Some sc ->
  s_in sc = octets (concat lines ++ bad) ++ rest ->
  Forall header_line lines ->
  is_line bad -> strlen bad <= HTTP_LINE_LENGTH ->
  CHECK_CRLF bad (strlen bad) = false -> ":"%char ∉ bad ->
  process_client_headers st = (-1, client_read_to rest sc st)
  /\ (response_message_sent (conn st) = false ->
      send_error st
      = (Closed, log_event EvDestroy
                   (log_event (EvStat STAT_BADCONN) (client_read_to rest sc st)))).
Proof.
  intros Hfd Hin Hl Hline Hlen Hncr Hc.
  assert (Hp : process_client_headers st = (-1, client_read_to rest sc st)).
  { unfold process_client_headers. unfold bind at 1, get at 1. cbn beta iota.
    unfold bind at 1. unfold get_all_headers, bind, get. cbn beta iota. rewrite Hfd.
    assert (Hin' : s_in sc = octets (concat lines) ++ (octets bad ++ rest)).
    { rewrite Hin. unfold octets. by rewrite map_app, <- app_assoc. }
    pose proof (header_lines_length lines Hl) as Hll.
    assert (Hfuel : exists k, S (length (s_in sc)) = (length lines + S k)%nat).
    { exists (length (s_in sc) - length lines)%nat. rewrite Hin'.
      rewrite length_app. unfold octets. rewrite length_map. unfold cstr in *. lia. }
    destruct Hfuel as [k ->].
    rewrite (get_all_headers_loop_prefix (S k) _ st sc lines _ _ Hfd Hin' Hl).
    cbn [get_all_headers_loop]. unfold bind at 1.
    set (st1 := set_fds _ st).
    assert (Hfd1 : fds st1 !! client_fd (conn st) = Some (set_in (octets bad ++ rest) sc)).
    { subst st1. cbn. apply lookup_insert_eq. }
    rewrite (readline_line _ st1 _ bad rest Hfd1 eq_refl Hline Hlen).
    rewrite (is_line_positive bad Hline), Hncr.
    rewrite (add_header_to_connection_no_colon _ bad _ Hc).
    change (-1 <? 0) with true. cbn iota. unfold ret.
    subst st1. unfold client_read_to. cbn. by rewrite insert_insert_eq. }
  split; [exact Hp|]. intros Hr. by apply send_error_bad_headers.
Qed.

(** X14. A client that closes before the blank line that ends its
    headers: [process_client_headers] fails with -1 and nothing of the
    block is forwarded; if no response has been sent before, the
    connection is counted as a bad one and destroyed without one. *)
Theorem headers_cut_short st sc lines quiet :
  fds st !! client_fd (conn st) = Some sc ->
  s_in sc = octets (concat lines) ++ quiet ->
  Forall header_line lines -> arrived quiet = [] ->
  process_client_headers st = (-1, client_read_to [] sc st)
  /\ (response_message_sent (conn st) = false ->
      send_error st
      = (Closed, log_event EvDestroy
                   (log_event (EvStat STAT_BADCONN) (client_read_to [] sc st)))).
Proof.
  intros Hfd Hin Hl Hq.
  assert (Hp : process_client_headers st = (-1, client_read_to [] sc st)).
  { unfold process_client_headers. unfold bind at 1, get at 1. cbn beta iota.
    unfold bind at 1. unfold get_all_headers, bind, get. cbn beta iota. rewrite Hfd.
    pose proof (header_lines_length lines Hl) as Hll.
    assert (Hfuel : exists k, S (length (s_in sc)) = (length lines + S k)%nat).
    { exists (length (s_in sc) - length lines)%nat. rewrite Hin.
      rewrite length_app. unfold octets. rewrite length_map. unfold cstr in *. lia. }
    destruct Hfuel as [k ->].
    rewrite (get_all_headers_loop_prefix (S k) _ st sc lines _ _ Hfd Hin Hl).
    cbn [get_all_headers_loop]. unfold bind at 1.
    unfold readline, bind, get, ret, put_sock, modify. cbn beta iota.
    cbn [fds set_fds]. rewrite lookup_insert_eq. cbn [s_in set_in].
    rewrite (take_line_quiet quiet Hq). cbn.
    unfold client_read_to. by rewrite insert_insert_eq. }
  split; [exact Hp|]. intros Hr. by apply send_error_bad_headers.
Qed.

End BlockFailures.

Lemma header_without_colon_aborts_witness :
  let E := Sample.env Sample.cfg [] in
  let sends := Sample.line "Host: example.org" ++ Sample.line "no colon here"
               ++ Sample.line "Accept: x" ++ CRLF in
  let st := Sample.connected sends [] in
  process_client_headers st
  = (-1, client_read_to (octets (Sample.line "Accept: x" ++ CRLF)) (Sample.peer sends) st)
  /\ (response_message_sent (conn st) = false ->
      send_error st
      = (Closed, log_event EvDestroy
                   (log_event (EvStat STAT_BADCONN)
                      (client_read_to (octets (Sample.line "Accept: x" ++ CRLF))
                         (Sample.peer sends) st)))).
Proof.
  intros E sends st.
  refine (header_without_colon_aborts (H:=E) st (Sample.peer sends)
            [Sample.line "Host: example.org"] (Sample.line "no colon here")
            (octets (Sample.line "Accept: x" ++ CRLF)) _ _ _ _ _ _ _).
  - reflexivity.
  - reflexivity.
  - apply header_lines_ok. reflexivity.
  - by apply is_lineb_ok.
  - vm_compute. discriminate.
  - reflexivity.
  - intros Hin. apply list_elem_of_In in Hin. cbn in Hin. intuition discriminate.
Defined.

Lemma headers_cut_short_witness :
  let E := Sample.env Sample.cfg [] in
  let sends := Sample.line "Host: example.org" in
  let st := Sample.connected sends [] in
  process_client_headers st = (-1, client_read_to [] (Sample.peer sends) st)
  /\ (response_message_sent (conn st) = false ->
      send_error st
      = (Closed, log_event EvDestroy
                   (log_event (EvStat STAT_BADCONN)
                      (client_read_to [] (Sample.peer sends) st)))).
Proof.
  intros E sends st.
  refine (headers_cut_short (H:=E) st (Sample.peer sends)
            [Sample.line "Host: example.org"] [] _ _ _ _).
  - reflexivity.
  - reflexivity.
  - apply header_lines_ok. reflexivity.
  - reflexivity.
Defined.

(** ** More on the forwarded request *)

Lemma well_stored_subset (m m' : hashmap_t) :
  (forall e, e ∈ m' -> e ∈ m) -> well_stored m -> well_stored m'.
Proof.
  unfold well_stored. rewrite !Forall_forall. intros Hsub Hm e He. by apply Hm, Hsub.
Qed.

Lemma without_connection_tokens_subset h e :
  e ∈ without_connection_tokens h -> e ∈ h.
Proof.
  unfold without_connection_tokens. destruct (hashmap_search h _) as [len data].
  destruct (len >? 0); [|done]. intros He. apply hashmap_remove_subset in He.
  unfold remove_connection_headers in He. cbn [snd] in He.
  destruct (remove_tokens_spec (S (Z.to_nat len)) h
              (take (Z.to_nat len) (blank_separators data))) as (toks & Hr & _).
  { rewrite length_take. lia. }
  rewrite Hr in He. by apply fold_remove_subset in He.
Qed.

Lemma search_not_found (m : hashmap_t) name len data :
  well_stored m -> hashmap_search m name = (len, data) -> len <= 0 -> absent name m.
Proof.
  intros Hw Hs Hlen. unfold hashmap_search in Hs.
  destruct (List.find (key_is name) m) as [e|] eqn:Ef.
  - apply find_some in Ef as [Hin _]. injection Hs as Hs1 _. subst len.
    unfold well_stored in Hw. rewrite Forall_forall in Hw.
    destruct (Hw e (proj2 (list_elem_of_In _ _) Hin)) as (v & Hv & _).
    assert (Hl : strlen (snd e) = strlen (v ++ [NUL])) by (f_equal; exact Hv).
    rewrite Hl in Hlen. unfold strlen in Hlen. rewrite length_app in Hlen. cbn in Hlen. lia.
  - unfold absent. apply Forall_forall. intros e He.
    apply (find_none _ _ Ef). by apply list_elem_of_In.
Qed.

Lemma without_via_absent (m : hashmap_t) :
  well_stored m -> absent (str "via") (without_via m).
Proof.
  intros Hw. unfold without_via. destruct (hashmap_search m (str "via")) as [len data] eqn:Es.
  destruct (len >? 0) eqn:El.
  - apply hashmap_remove_absent.
  - eapply search_not_found; [done|exact Es|].
    rewrite Z.gtb_ltb in El. apply Z.ltb_ge in El. lia.
Qed.

Section ViaFacts.
Context `{Env}.

Lemma remaining_headers_no_via h :
  well_stored h -> absent (str "via") (remaining_headers h).
Proof.
  intros Hw. unfold remaining_headers.
  eapply absent_subset; [intros e; apply fold_remove_subset|].
  apply without_via_absent.
  eapply well_stored_subset; [apply without_connection_tokens_subset|done].
Qed.

(** X15. Of the headers that [process_client_headers] writes to the
    server the first is a [Via] header, and it is the only one of that
    name. Its value is the value of the client's [Via] header, if it
    sent one, then a comma and the proxy's own entry; else the proxy's
    entry alone. *)
Theorem single_via_header st sc ss lines t rest :
  fds st !! client_fd (conn st) = Some sc ->
  s_in sc = octets (concat lines ++ t) ++ rest ->
  Forall header_line lines -> end_of_headers t ->
  server_fd (conn st) <> -1 ->
  connect_method (conn st) && negb UPSTREAM_CONFIGURED = false ->
  server_fd (conn st) <> client_fd (conn st) ->
  fds st !! server_fd (conn st) = Some ss -> takes_writes ss ->
  let h := header_map lines in
  let sent := rewritten_headers (conn st) h in
  (exists st1,
      sent_to (server_fd (conn st)) (render_headers sent ++ CRLF)
        (client_read_to rest sc st) st1
      /\ process_client_headers st
         = (if content_length_of (without_connection_tokens h) >=? 0
            then pull_client_data (content_length_of (without_connection_tokens h))
            else ret 0) st1)
  /\ head sent = Some (str "Via", via_value (conn st) (without_connection_tokens h))
  /\ named (str "via") sent
     = [(str "Via", via_value (conn st) (without_connection_tokens h))].
Proof.
  intros Hc Hin Hl Ht Hsfd Hcm Hne Hs Hts h sent.
  split; [by eapply process_client_headers_forward|]. split; [reflexivity|].
  subst sent. unfold rewritten_headers, named. rewrite !List.filter_app.
  fold (named (str "via") (forwarded_headers h)).
  rewrite forwarded_headers_absent
    by (apply remaining_headers_no_via, well_stored_header_map).
  unfold xtinyproxy_headers. by destruct (my_domain config).
Qed.

(** X16. In anonymous mode each of the client's headers that is
    forwarded has a name for which [anonymous_search] returns 0, and is a
    header the client sent. The proxy's own [Via] and [X-Tinyproxy]
    headers are written whatever the list says. *)
Theorem anonymous_headers_only st sc ss lines t rest :
  fds st !! client_fd (conn st) = Some sc ->
  s_in sc = octets (concat lines ++ t) ++ rest ->
  Forall header_line lines -> end_of_headers t ->
  server_fd (conn st) <> -1 ->
  connect_method (conn st) && negb UPSTREAM_CONFIGURED = false ->
  server_fd (conn st) <> client_fd (conn st) ->
  fds st !! server_fd (conn st) = Some ss -> takes_writes ss ->
  is_anonymous_enabled <> 0 ->
  let h := header_map lines in
  exists st1,
    sent_to (server_fd (conn st))
      (render_headers ([(str "Via", via_value (conn st) (without_connection_tokens h))]
                       ++ forwarded_headers h ++ xtinyproxy_headers (conn st)) ++ CRLF)
      (client_read_to rest sc st) st1
    /\ process_client_headers st
       = (if content_length_of (without_connection_tokens h) >=? 0
          then pull_client_data (content_length_of (without_connection_tokens h))
          else ret 0) st1
    /\ Forall (fun e => anonymous_search (fst e) = 0 /\ fst e ∈ hashmap_keys h)
         (forwarded_headers h).
Proof.
  intros Hc Hin Hl Ht Hsfd Hcm Hne Hs Hts Han h.
  destruct (process_client_headers_forward st sc ss lines t rest) as (st1 & Hsent & Hp);
    try done.
  exists st1. split; [exact Hsent|]. split; [exact Hp|].
  unfold forwarded_headers. apply Forall_forall. intros e He.
  apply list_elem_of_In, in_map_iff in He as (k & <- & Hk). cbn [fst].
  unfold allowed_keys in Hk. apply filter_In in Hk as [Hk Hok].
  split.
  - apply orb_true_iff in Hok as [Hok|Hok]; apply Z.eqb_eq in Hok; [done|exact Hok].
  - unfold hashmap_keys in *. apply in_map_iff in Hk as (e & <- & He).
    apply list_elem_of_In. apply in_map. apply list_elem_of_In.
    apply without_connection_tokens_subset, remaining_headers_subset.
    by apply list_elem_of_In.
Qed.

End ViaFacts.

Section LengthFacts.
Context `{Env}.

(** X17. A forwarded request with a [Content-Length] of [n > 0] whose
    body the client sends in full: after the rewritten headers and the
    blank line exactly the first [n] bytes that follow the client's
    headers are written to the server, what follows them is left unread,
    and [process_client_headers] returns 0. *)
Theorem request_with_body_forwarded st sc ss lines t rest :
  fds st !! client_fd (conn st) = Some sc ->
  s_in sc = octets (concat lines ++ t) ++ rest ->
  Forall header_line lines -> end_of_headers t ->
  server_fd (conn st) <> -1 ->
  connect_method (conn st) && negb UPSTREAM_CONFIGURED = false ->
  server_fd (conn st) <> client_fd (conn st) ->
  fds st !! server_fd (conn st) = Some ss -> takes_writes ss ->
  response_message_sent (conn st) = false ->
  0 < MAXBUFFSIZE ->
  let h := header_map lines in
  let n := content_length_of (without_connection_tokens h) in
  0 < n <= strlen (arrived rest) ->
  exists st' sc' ss',
    process_client_headers st = (0, st')
    /\ fds st' !! server_fd (conn st) = Some ss'
    /\ s_out ss'
       = s_out ss ++ render_headers (rewritten_headers (conn st) h) ++ CRLF
         ++ take (Z.to_nat n) (arrived rest)
    /\ fds st' !! client_fd (conn st) = Some sc'
    /\ arrived (s_in sc') = drop (Z.to_nat n) (arrived rest)
    /\ s_out sc' = s_out sc.
Proof.
  intros Hc Hin Hl Ht Hsfd Hcm Hne Hs Hts Hr Hmax h n Hn.
  destruct (process_client_headers_forward st sc ss lines t rest) as (st1 & Hsent & Hp);
    try done.
  fold h in Hp, Hsent. fold n in Hp. rewrite Hp.
  assert ((n >=? 0) = true) as -> by (apply Z.geb_le; lia).
  destruct Hsent as (sx & sy & Hsx & Hf & Ho & _ & _ & Hty & Hcn & Htr).
  change (conn (client_read_to rest sc st)) with (conn st) in Hcn.
  assert (sx = ss) as ->.
  { unfold client_read_to in Hsx. cbn in Hsx.
    rewrite lookup_insert_ne in Hsx by congruence. congruence. }
  assert (Hc1 : fds st1 !! client_fd (conn st1) = Some (set_in rest sc)).
  { rewrite Hcn, Hf, lookup_insert_ne by done. unfold client_read_to. cbn.
    apply lookup_insert_eq. }
  assert (Hs1 : fds st1 !! server_fd (conn st1) = Some sy).
  { rewrite Hcn, Hf. apply lookup_insert_eq. }
  unfold pull_client_data.
  assert (Hfuel : (Z.to_nat n < S (Z.to_nat n))%nat) by lia.
  assert (Hlen : n <= strlen (arrived (s_in (set_in rest sc)))) by (cbn [s_in set_in]; lia).
  assert (Hne1 : server_fd (conn st1) <> client_fd (conn st1)) by (by rewrite Hcn).
  assert (Hsrv1 : response_message_sent (conn st1) = false ->
            exists ss0, fds st1 !! server_fd (conn st1) = Some ss0 /\ takes_writes ss0)
    by (intros _; by exists sy).
  destruct (pull_client_data_loop_ok (S (Z.to_nat n)) n st1 (set_in rest sc)
              Hmax (proj1 Hn) Hfuel Hc1 Hlen Hne1 Hsrv1)
    as (st' & sc' & Hpull & _ & _ & Hc' & Ha & Hoc & Hsrv).
  destruct (Hsrv sy Hs1) as (ss' & Hs' & Hos). rewrite Hcn, Hr in Hos.
  rewrite Hcn in Hs', Hc'.
  exists st', sc', ss'. split; [exact Hpull|].
  split; [done|]. split; [|done].
  rewrite Hos, Ho. cbn [s_in set_in]. by rewrite <- !app_assoc.
Qed.

(** X18. A forwarded request without a [Content-Length] header, or
    with a negative one: [process_client_headers] writes the rewritten
    headers and the blank line and returns 0. It reads nothing after the
    client's blank line: what the client sent after its headers is left
    for the relay. *)
Theorem request_without_length_leaves_body st sc ss lines t rest :
  fds st !! client_fd (conn st) = Some sc ->
  s_in sc = octets (concat lines ++ t) ++ rest ->
  Forall header_line lines -> end_of_headers t ->
  server_fd (conn st) <> -1 ->
  connect_method (conn st) && negb UPSTREAM_CONFIGURED = false ->
  server_fd (conn st) <> client_fd (conn st) ->
  fds st !! server_fd (conn st) = Some ss -> takes_writes ss ->
  let h := header_map lines in
  content_length_of (without_connection_tokens h) < 0 ->
  exists st' ss',
    process_client_headers st = (0, st')
    /\ fds st' = <[server_fd (conn st) := ss']> (<[client_fd (conn st) := set_in rest sc]> (fds st))
    /\ s_out ss' = s_out ss ++ render_headers (rewritten_headers (conn st) h) ++ CRLF
    /\ s_in ss' = s_in ss.
Proof.
  intros Hc Hin Hl Ht Hsfd Hcm Hne Hs Hts h Hn.
  destruct (process_client_headers_forward st sc ss lines t rest) as (st1 & Hsent & Hp);
    try done.
  fold h in Hp, Hsent. rewrite Hp.
  assert ((content_length_of (without_connection_tokens h) >=? 0) = false) as ->.
  { rewrite Z.geb_leb. apply Z.leb_gt. lia. }
  destruct Hsent as (sx & sy & Hsx & Hf & Ho & Hi & _ & Hty & Hcn & Htr).
  assert (sx = ss) as ->.
  { unfold client_read_to in Hsx. cbn in Hsx.
    rewrite lookup_insert_ne in Hsx by congruence. congruence. }
  exists st1, sy. split; [reflexivity|]. split; [exact Hf|]. by split.
Qed.

End LengthFacts.

Lemma single_via_header_witness :
  let E := Sample.env Sample.cfg [] in
  let st := Sample.connected (concat SampleMore.get_lines ++ CRLF) [] in
  let sent := rewritten_headers (conn st) (header_map SampleMore.get_lines) in
  named (str "via") sent = [(str "Via", str "1.0 cache, 0.0 proxy (tinyproxy/1.5)")].
Proof.
  intros E st sent.
  pose proof (single_via_header (H:=E) st
                (Sample.peer (concat SampleMore.get_lines ++ CRLF)) (Sample.peer [])
                SampleMore.get_lines CRLF []) as Hw.
  cbn zeta in Hw.
  destruct Hw as (_ & _ & Hvia).
  - reflexivity.
  - reflexivity.
  - apply header_lines_ok. reflexivity.
  - split; [by right|]. vm_compute. discriminate.
  - vm_compute. discriminate.
  - reflexivity.
  - vm_compute. discriminate.
  - reflexivity.
  - apply not_elem_of_nil.
  - exact Hvia.
Defined.

Lemma anonymous_headers_only_witness :
  let E := SampleMore.env_anonymous in
  let st := Sample.connected (concat SampleMore.get_lines ++ CRLF) [] in
  let h := header_map SampleMore.get_lines in
  exists st1,
    sent_to 7
      (render_headers ([(str "Via", via_value (conn st) (without_connection_tokens h))]
                       ++ forwarded_headers h ++ xtinyproxy_headers (conn st)) ++ CRLF)
      (client_read_to [] (Sample.peer (concat SampleMore.get_lines ++ CRLF)) st) st1
    /\ process_client_headers st
       = (if content_length_of (without_connection_tokens h) >=? 0
          then pull_client_data (content_length_of (without_connection_tokens h))
          else ret 0) st1
    /\ Forall (fun e => anonymous_search (fst e) = 0 /\ fst e ∈ hashmap_keys h)
         (forwarded_headers h).
Proof.
  intros E st h.
  refine (anonymous_headers_only (H:=E) st
            (Sample.peer (concat SampleMore.get_lines ++ CRLF)) (Sample.peer [])
            SampleMore.get_lines CRLF [] _ _ _ _ _ _ _ _ _ _).
  - reflexivity.
  - reflexivity.
  - apply header_lines_ok. reflexivity.
  - split; [by right|]. vm_compute. discriminate.
  - vm_compute. discriminate.
  - reflexivity.
  - vm_compute. discriminate.
  - reflexivity.
  - apply not_elem_of_nil.
  - vm_compute. discriminate.
Defined.

Example anonymous_run :
  let E := SampleMore.env_anonymous in
  (s_out <$> fds (snd (process_client_headers
                         (Sample.connected (concat SampleMore.get_lines ++ CRLF) []))) !! 7)
  = Some (Sample.line "Via: 1.0 cache, 0.0 proxy (tinyproxy/1.5)"
          ++ Sample.line "accept: x" ++ CRLF).
Proof. vm_compute. reflexivity. Qed.

Lemma request_with_body_forwarded_witness :
  let E := Sample.env Sample.cfg [] in
  let sends := concat SampleMore.post_lines ++ CRLF ++ str "abcdef" in
  let st := Sample.connected sends [] in
  let h := header_map SampleMore.post_lines in
  exists st' sc' ss',
    process_client_headers st = (0, st')
    /\ fds st' !! 7 = Some ss'
    /\ s_out ss'
       = [] ++ render_headers (rewritten_headers (conn st) h) ++ CRLF
         ++ take 4 (arrived (octets (str "abcdef")))
    /\ fds st' !! 3 = Some sc'
    /\ arrived (s_in sc') = drop 4 (arrived (octets (str "abcdef")))
    /\ s_out sc' = [].
Proof.
  intros E sends st h.
  refine (request_with_body_forwarded (H:=E) st (Sample.peer sends) (Sample.peer [])
            SampleMore.post_lines CRLF (octets (str "abcdef")) _ _ _ _ _ _ _ _ _ _ _ _).
  - reflexivity.
  - reflexivity.
  - apply header_lines_ok. reflexivity.
  - split; [by right|]. vm_compute. discriminate.
  - vm_compute. discriminate.
  - reflexivity.
  - vm_compute. discriminate.
  - reflexivity.
  - apply not_elem_of_nil.
  - reflexivity.
  - reflexivity.
  - vm_compute. split; [reflexivity|discriminate].
Defined.

Lemma request_without_length_leaves_body_witness :
  let E := Sample.env Sample.cfg [] in
  let sends := concat SampleMore.get_lines ++ CRLF ++ str "abcdef" in
  let st := Sample.connected sends [] in
  let h := header_map SampleMore.get_lines in
  exists st' ss',
    process_client_headers st = (0, st')
    /\ fds st' = <[7 := ss']> (<[3 := set_in (octets (str "abcdef")) (Sample.peer sends)]> (fds st))
    /\ s_out ss' = [] ++ render_headers (rewritten_headers (conn st) h) ++ CRLF
    /\ s_in ss' = [].
Proof.
  intros E sends st h.
  refine (request_without_length_leaves_body (H:=E) st (Sample.peer sends) (Sample.peer [])
            SampleMore.get_lines CRLF (octets (str "abcdef")) _ _ _ _ _ _ _ _ _ _).
  - reflexivity.
  - reflexivity.
  - apply header_lines_ok. reflexivity.
  - split; [by right|]. vm_compute. discriminate.
  - vm_compute. discriminate.
  - reflexivity.
  - vm_compute. discriminate.
  - reflexivity.
  - apply not_elem_of_nil.
  - vm_compute. reflexivity.
Defined.

(** ** The server's headers *)

Section ServerHeaders.
Context `{Env}.

Lemma response_lineb_ok l : response_lineb l = true -> response_line l.
Proof.
  unfold response_lineb, response_line. intros Hb.
  apply andb_true_iff in Hb as [Hb Hn]. apply andb_true_iff in Hb as [Hl Hlen].
  split; [by apply is_lineb_ok|]. split; [by apply Z.leb_le|by apply negb_true_iff].
Qed.

Lemma response_lines_ok lines :
  forallb response_lineb lines = true -> Forall response_line lines.
Proof.
  intros Hb. apply Forall_forall. intros l Hl. apply response_lineb_ok.
  rewrite forallb_forall in Hb. by apply Hb, list_elem_of_In.
Qed.

Lemma process_server_headers_loop_block fuel st ss sc lines t rest :
  fds st !! server_fd (conn st) = Some ss ->
  s_in ss = octets (concat lines ++ t) ++ rest ->
  Forall response_line lines -> end_of_headers t ->
  server_fd (conn st) <> client_fd (conn st) ->
  fds st !! client_fd (conn st) = Some sc -> takes_writes sc ->
  (length lines < fuel)%nat ->
  exists st' sc',
    process_server_headers_loop fuel st = (0, st')
    /\ fds st' !! server_fd (conn st) = Some (set_in rest ss)
    /\ fds st' !! client_fd (conn st) = Some sc'
    /\ s_out sc' = s_out sc ++ concat lines ++ t
    /\ s_in sc' = s_in sc
    /\ (forall fd, fd <> client_fd (conn st) -> fd <> server_fd (conn st) ->
          fds st' !! fd = fds st !! fd)
    /\ conn st' = conn st /\ trace st' = trace st.
Proof.
  intros Hs Hin Hl Ht Hne Hc Hts Hfuel.
  revert fuel st ss sc Hs Hin Hc Hts Hne Hfuel.
  induction Hl as [|l lines Hl0 Hl IH]; intros fuel st ss sc Hs Hin Hc Hts Hne Hfuel.
  - destruct fuel as [|fuel]; [cbn in Hfuel; lia|].
    cbn [process_server_headers_loop concat app] in *.
    unfold bind at 1, get at 1. cbn beta iota. unfold bind at 1.
    destruct (end_of_headers_line t Ht) as [Htl Hcr].
    rewrite (readline_line _ st ss t rest Hs Hin Htl (proj2 Ht)).
    rewrite (is_line_positive t Htl).
    set (st1 := set_fds _ st).
    assert (Hc1 : fds st1 !! client_fd (conn st) = Some sc).
    { subst st1. cbn. by rewrite lookup_insert_ne. }
    destruct (safe_write_sent _ t st1 sc Hc1 Hts) as (st2 & Hw & Hsent).
    unfold bind at 1. rewrite Hw, strlen_ltb, Hcr. cbn iota.
    destruct Hsent as (sx & sy & Hsx & Hf & Ho & Hi & _ & _ & Hcn & Htr).
    assert (sx = sc) as -> by congruence.
    exists st2, sy. split; [reflexivity|]. rewrite Hf. subst st1. cbn.
    split; [rewrite lookup_insert_ne by done; apply lookup_insert_eq|].
    split; [apply lookup_insert_eq|]. split; [done|]. split; [done|].
    split; [|done]. intros fd H1 H2. by rewrite !lookup_insert_ne.
  - destruct fuel as [|fuel]; [cbn in Hfuel; lia|].
    cbn [process_server_headers_loop].
    unfold bind at 1, get at 1. cbn beta iota. unfold bind at 1.
    destruct Hl0 as (Hline & Hlen & Hncr).
    assert (Hin' : s_in ss = octets l ++ (octets (concat lines ++ t) ++ rest)).
    { rewrite Hin. unfold octets. cbn [concat]. by rewrite <- !app_assoc, !map_app, <- !app_assoc. }
    rewrite (readline_line _ st ss l _ Hs Hin' Hline Hlen).
    rewrite (is_line_positive l Hline).
    set (st1 := set_fds _ st).
    assert (Hc1 : fds st1 !! client_fd (conn st) = Some sc).
    { subst st1. cbn. by rewrite lookup_insert_ne. }
    destruct (safe_write_sent _ l st1 sc Hc1 Hts) as (st2 & Hw & Hsent).
    unfold bind at 1. rewrite Hw, strlen_ltb, Hncr. cbn iota.
    destruct (sent_to_sock _ _ _ _ Hsent) as (sy' & Hsy' & Hty).
    destruct Hsent as (sx & sy & Hsx & Hf & Ho & Hi & _ & _ & Hcn & Htr).
    assert (sx = sc) as -> by congruence.
    assert (sy' = sy) as -> by (rewrite Hf, lookup_insert_eq in Hsy'; congruence).
    change (conn st1) with (conn st) in Hcn.
    destruct (IH fuel st2 (set_in (octets (concat lines ++ t) ++ rest) ss) sy)
      as (st' & sc' & Hp & Hs' & Hc' & Ho' & Hi' & Hoth & Hcn' & Htr');
      rewrite ?Hcn; try done.
    + rewrite Hf, lookup_insert_ne by done. subst st1. cbn. apply lookup_insert_eq.
    + cbn in Hfuel. lia.
    + rewrite Hcn in *. exists st', sc'. split; [exact Hp|].
      split; [exact Hs'|]. split; [done|]. split.
      { rewrite Ho', Ho. cbn [concat]. by rewrite <- !app_assoc. }
      split; [congruence|]. split; [|split; [done|by rewrite Htr', Htr]].
      intros fd H1 H2. rewrite (Hoth fd H1 H2), Hf. subst st1. cbn.
      by rewrite !lookup_insert_ne.
Qed.

(** X19. [process_server_headers] passes the server's header block on
    to the client byte for byte, up to and including the blank line, and
    returns 0; it reads nothing after the blank line. The lines are not
    looked into: none is added, removed or changed, and a line need not
    have a colon. *)
Theorem server_headers_relayed_verbatim st ss sc lines t rest :
  fds st !! server_fd (conn st) = Some ss ->
  s_in ss = octets (concat lines ++ t) ++ rest ->
  Forall response_line lines -> end_of_headers t ->
  server_fd (conn st) <> client_fd (conn st) ->
  fds st !! client_fd (conn st) = Some sc -> takes_writes sc ->
  exists st' sc',
    process_server_headers st = (0, st')
    /\ fds st' !! server_fd (conn st) = Some (set_in rest ss)
    /\ fds st' !! client_fd (conn st) = Some sc'
    /\ s_out sc' = s_out sc ++ concat lines ++ t
    /\ s_in sc' = s_in sc
    /\ (forall fd, fd <> client_fd (conn st) -> fd <> server_fd (conn st) ->
          fds st' !! fd = fds st !! fd)
    /\ conn st' = conn st /\ trace st' = trace st.
Proof.
  intros Hs Hin Hl Ht Hne Hc Hts.
  unfold process_server_headers, bind, get. cbn beta iota. rewrite Hs.
  apply process_server_headers_loop_block with (sc := sc); try done.
  rewrite Hin. unfold octets. rewrite length_app, length_map, length_app.
  destruct (end_of_headers_line t Ht) as [Htl _]. apply is_line_length in Htl.
  assert (length lines <= length (concat lines))%nat; [|unfold cstr in *; lia].
  clear -Hl. induction Hl as [|l lines Hl0 Hl IH]; cbn; [lia|].
  destruct Hl0 as (Hline & _). apply is_line_length in Hline.
  rewrite length_app. lia.
Qed.

End ServerHeaders.

Lemma server_headers_relayed_verbatim_witness :
  let E := Sample.env Sample.cfg [] in
  let lines := [Sample.line "HTTP/1.1 200 OK"; Sample.line "Connection: keep-alive";
                Sample.line "no colon here"] in
  let replies := concat lines ++ CRLF ++ str "body" in
  let st := Sample.connected [] replies in
  exists st' sc',
    process_server_headers st = (0, st')
    /\ fds st' !! 7 = Some (set_in (octets (str "body")) (Sample.peer replies))
    /\ fds st' !! 3 = Some sc'
    /\ s_out sc' = [] ++ concat lines ++ CRLF
    /\ s_in sc' = []
    /\ (forall fd, fd <> 3 -> fd <> 7 -> fds st' !! fd = fds st !! fd)
    /\ conn st' = conn st /\ trace st' = trace st.
Proof.
  intros E lines replies st.
  refine (server_headers_relayed_verbatim (H:=E) st (Sample.peer replies) (Sample.peer [])
            lines CRLF (octets (str "body")) _ _ _ _ _ _ _).
  - reflexivity.
  - reflexivity.
  - apply response_lines_ok. reflexivity.
  - split; [by right|]. vm_compute. discriminate.
  - vm_compute. discriminate.
  - reflexivity.
  - apply not_elem_of_nil.
Defined.

(** ** The relay keeps the two streams *)

Lemma in_transit_put src dst buf buf' (f : gmap Z sock) fd s s' :
  src <> dst -> f !! fd = Some s ->
  (fd = src -> buf' ++ arrived (s_in s') = buf ++ arrived (s_in s)) ->
  (fd = dst -> s_out s' ++ buf' = s_out s ++ buf) ->
  (fd <> src -> fd <> dst -> buf' = buf) ->
  in_transit src dst buf' (<[fd := s']> f) = in_transit src dst buf f.
Proof.
  intros Hne Hfd Hsrc Hdst Hoth. unfold in_transit.
  destruct (decide (fd = src)) as [->|Hs].
  - rewrite lookup_insert_eq, lookup_insert_ne by done. rewrite Hfd.
    destruct (f !! dst); [|done]. by rewrite Hsrc.
  - rewrite (lookup_insert_ne f fd src) by done.
    destruct (decide (fd = dst)) as [->|Hd].
    + rewrite lookup_insert_eq, Hfd. destruct (f !! src); [|done].
      by rewrite !app_assoc, Hdst.
    + rewrite lookup_insert_ne by done. by rewrite Hoth.
Qed.

#[global] Instance conserved_refl cfd sfd : Reflexive (conserved cfd sfd).
Proof. by intros st Hc Hs. Qed.

#[global] Instance conserved_trans cfd sfd : Transitive (conserved cfd sfd).
Proof.
  intros a b c Hab Hbc Hc Hs.
  destruct (Hab Hc Hs) as (Hc1 & Hs1 & Hd1 & Hu1).
  destruct (Hbc Hc1 Hs1) as (Hc2 & Hs2 & Hd2 & Hu2).
  repeat split; congruence.
Qed.

Section Conservation.
Context `{Env}.
Variables cfd sfd : Z.
Hypothesis Hne : cfd <> sfd.

Lemma conserved_emit e : evolves (conserved cfd sfd) (emit e).
Proof. by intros st Hc Hs. Qed.

Lemma take_run_transit n ws got rest (b : cstr) :
  take_run n ws = (got, rest) -> (b ++ got) ++ arrived rest = b ++ arrived ws.
Proof.
  intros Ht. destruct (take_run_arrived _ _ _ _ Ht) as (Hg & Hr & _).
  rewrite Hr, <- app_assoc. f_equal. rewrite Hg at 1. apply take_drop.
Qed.

Ltac put_transit s tac :=
  apply (in_transit_put _ _ _ _ _ _ s);
  [ congruence | done
  | intros ?; first [congruence | tac]
  | intros ?; first [congruence | tac]
  | intros ? ?; first [congruence | tac] ].

Lemma conserved_read_into_sbuffer :
  evolves (conserved cfd sfd) (read_into_sbuffer sfd).
Proof.
  intros st Hc Hs.
  unfold read_into_sbuffer, read_buffer, bind, get, ret, modify_conn, modify, put_sock.
  cbn beta iota.
  destruct (fds st !! sfd) as [s|] eqn:Es; [|by destruct st as [[] ? ?]].
  destruct (MAXBUFFSIZE <=? _); [by destruct st as [[] ? ?]|].
  destruct (s_in s) as [|[c|] r] eqn:Ein; [by destruct st as [[] ? ?]| |].
  - destruct (take_run _ (Octet c :: r)) as [got rest] eqn:Et. cbn.
    split; [done|]. split; [done|]. unfold downstream, upstream. cbn. rewrite Hc, Hs.
    split; put_transit s ltac:(cbn; rewrite ?Ein; first [exact (take_run_transit _ _ _ _ _ Et)|done]).
  - cbn. split; [done|]. split; [done|]. unfold downstream, upstream. cbn. rewrite Hc, Hs.
    split; put_transit s ltac:(cbn; rewrite ?Ein; done).
Qed.

Lemma conserved_read_into_cbuffer :
  evolves (conserved cfd sfd) (read_into_cbuffer cfd).
Proof.
  intros st Hc Hs.
  unfold read_into_cbuffer, read_buffer, bind, get, ret, modify_conn, modify, put_sock.
  cbn beta iota.
  destruct (fds st !! cfd) as [s|] eqn:Es; [|by destruct st as [[] ? ?]].
  destruct (MAXBUFFSIZE <=? _); [by destruct st as [[] ? ?]|].
  destruct (s_in s) as [|[c|] r] eqn:Ein; [by destruct st as [[] ? ?]| |].
  - destruct (take_run _ (Octet c :: r)) as [got rest] eqn:Et. cbn.
    split; [done|]. split; [done|]. unfold downstream, upstream. cbn. rewrite Hc, Hs.
    split; put_transit s ltac:(cbn; rewrite ?Ein; first [exact (take_run_transit _ _ _ _ _ Et)|done]).
  - cbn. split; [done|]. split; [done|]. unfold downstream, upstream. cbn. rewrite Hc, Hs.
    split; put_transit s ltac:(cbn; rewrite ?Ein; done).
Qed.

Lemma conserved_write_from_cbuffer :
  evolves (conserved cfd sfd) (write_from_cbuffer sfd).
Proof.
  intros st Hc Hs.
  unfold write_from_cbuffer, write_buffer, bind, get, ret, modify_conn, modify, put_sock.
  cbn beta iota.
  destruct (fds st !! sfd) as [s|] eqn:Es; [|by destruct st as [[] ? ?]].
  destruct (BUFFER_SIZE _ =? 0); [by destruct st as [[] ? ?]|].
  destruct (s_wr s) as [|[n| |] k] eqn:Ewr; cbn;
    (split; [done|]); (split; [done|]); unfold downstream, upstream; cbn; rewrite Hc, Hs;
    split;
    put_transit s ltac:(cbn; rewrite <- ?app_assoc, ?app_nil_r, ?take_drop; done).
Qed.

Lemma conserved_write_from_sbuffer :
  evolves (conserved cfd sfd) (write_from_sbuffer cfd).
Proof.
  intros st Hc Hs.
  unfold write_from_sbuffer, write_buffer, bind, get, ret, modify_conn, modify, put_sock.
  cbn beta iota.
  destruct (fds st !! cfd) as [s|] eqn:Es; [|by destruct st as [[] ? ?]].
  destruct (BUFFER_SIZE _ =? 0); [by destruct st as [[] ? ?]|].
  destruct (s_wr s) as [|[n| |] k] eqn:Ewr; cbn;
    (split; [done|]); (split; [done|]); unfold downstream, upstream; cbn; rewrite Hc, Hs;
    split;
    put_transit s ltac:(cbn; rewrite <- ?app_assoc, ?app_nil_r, ?take_drop; done).
Qed.

Lemma conserved_relay_transfers rset wset tk :
  evolves (conserved cfd sfd) (relay_transfers rset wset tk).
Proof.
  intros st Hc Hs.
  pose (m :=
    (r1 <- (if FD_ISSET sfd rset (t_rset tk) then read_into_sbuffer sfd else ret 0) ;;
     if r1 <? 0 then ret true
     else
       r2 <- (if FD_ISSET cfd rset (t_rset tk) then read_into_cbuffer cfd else ret 0) ;;
       if r2 <? 0 then ret true
       else
         r3 <- (if FD_ISSET sfd wset (t_wset tk) then write_from_cbuffer sfd else ret 0) ;;
         if r3 <? 0 then ret true
         else
           r4 <- (if FD_ISSET cfd wset (t_wset tk) then write_from_sbuffer cfd else ret 0) ;;
           if r4 <? 0 then ret true else ret false) : M bool).
  assert (He : evolves (conserved cfd sfd) m).
  { subst m.
    repeat first
      [ apply conserved_read_into_sbuffer | apply conserved_read_into_cbuffer
      | apply conserved_write_from_cbuffer | apply conserved_write_from_sbuffer
      | apply evolves_ret; apply _
      | apply evolves_bind; [apply _| |intros ?]
      | match goal with
        | |- evolves _ (if ?b then _ else _) => destruct b
        end ]. }
  assert (Hm : relay_transfers rset wset tk st = m st).
  { unfold relay_transfers. unfold bind at 1, get at 1. cbn beta iota.
    rewrite Hc, Hs. reflexivity. }
  rewrite Hm. exact (He st Hc Hs).
Qed.

Lemma conserved_relay_loop ticks la :
  evolves (conserved cfd sfd) (relay_loop ticks la).
Proof.
  revert la. induction ticks as [|tk ticks IH]; intros la; cbn [relay_loop].
  - apply evolves_ret. apply _.
  - repeat first
      [ apply IH | apply conserved_emit | apply conserved_relay_transfers
      | apply evolves_ret; apply _ | apply evolves_get; apply _
      | apply evolves_bind; [apply _| |intros ?]
      | match goal with
        | |- evolves _ (if ?b then _ else _) => destruct b
        end ].
Qed.

End Conservation.

(** X20. The relay loop neither loses, repeats nor reorders a byte.
    After any number of turns, and however the loop ends, the bytes
    written to the client, then those in the server's buffer, then those
    the server has sent and that are not read yet, are the same sequence
    as before the loop; and likewise from the client to the server
    through the client's buffer. *)
Theorem relay_loop_conserves_streams `{Env} ticks la st e st' :
  client_fd (conn st) <> server_fd (conn st) ->
  relay_loop ticks la st = (e, st') ->
  downstream st' = downstream st /\ upstream st' = upstream st.
Proof.
  intros Hne Hr.
  pose proof (evolves_eq _ _ _ _ _
                (conserved_relay_loop (client_fd (conn st)) (server_fd (conn st)) Hne ticks la)
                Hr) as Hc.
  destruct (Hc eq_refl eq_refl) as (_ & _ & Hd & Hu). by split.
Qed.

Lemma relay_loop_conserves_streams_witness :
  let E := Sample.env Sample.cfg [] in
  let st := relay_entry (Sample.connected (str "y") (str "x")) in
  let st' := snd (relay_loop SampleRelay.close_ticks 0 st) in
  downstream st' = Some (str "x") /\ upstream st' = Some (str "y").
Proof.
  intros E st st'.
  refine (relay_loop_conserves_streams (H:=E) SampleRelay.close_ticks 0 st
            (fst (relay_loop SampleRelay.close_ticks 0 st)) st' _ _).
  - vm_compute. discriminate.
  - apply surjective_pairing.
Defined.

(** ** Connections that are turned down, and the tunnel *)

Section RefusedFacts.
Context `{Env}.

(** With a response already sent and no server handle, [send_error]
    reads what it can of the client's headers and closes. *)
Lemma send_error_refused st :
  response_message_sent (conn st) = true -> server_fd (conn st) = -1 ->
  exists st' stats,
    send_error st = (Closed, st')
    /\ trace st' = trace st ++ stats ++ [EvDestroy]
    /\ (stats = [] \/ stats = [EvStat STAT_BADCONN])
    /\ conn st' = conn st
    /\ (forall fd, fd <> client_fd (conn st) -> fds st' !! fd = fds st !! fd).
Proof.
  intros Hr Hs.
  destruct (process_client_headers_no_server st Hs) as (r & st1 & Hh & Hrr & Hcn & Htr & Hoth).
  unfold send_error. unfold bind at 1. rewrite Hh.
  unfold bind at 1, get at 1. cbn beta iota.
  rewrite Hcn, Hr. cbn [negb]. rewrite andb_false_r.
  destruct Hrr as [-> | ->].
  - change (0 <? 0) with false. cbn iota.
    eexists _, []. split; [reflexivity|]. cbn. rewrite Htr. by repeat split; auto.
  - change (-1 <? 0) with true. cbn iota.
    eexists _, [EvStat STAT_BADCONN]. split; [reflexivity|]. cbn. rewrite Htr.
    repeat split; auto. by rewrite <- app_assoc.
Qed.

Lemma httperr_none {A} status msg st :
  fst ((httperr status msg ;; ret (@None A)) st) = None.
Proof. unfold bind. destruct (httperr status msg st). reflexivity. Qed.

(** A request that [process_request] lets through has changed nothing
    but the connection's method flag and protocol version. *)
Lemma process_request_gates_some request st rq st' :
  process_request_gates request st = (Some rq, st') ->
  fds st' = fds st /\ trace st' = trace st
  /\ client_fd (conn st') = client_fd (conn st)
  /\ server_fd (conn st') = server_fd (conn st)
  /\ connect_method (conn st') = connect_method (conn st)
  /\ response_message_sent (conn st') = response_message_sent (conn st).
Proof.
  unfold process_request_gates.
  destruct (filter config && _).
  { intros Hp. exfalso. unfold bind at 1 in Hp.
    destruct (update_stats STAT_DENIED st) as [u s0].
    pose proof (httperr_none (A:=request_s) 404
                  (str "Connection to filtered domain is now allowed.") s0) as Hn.
    rewrite Hp in Hn. discriminate. }
  destruct (match stathost config with Some _ => _ | None => _ end).
  { intros Hp. exfalso. unfold bind in Hp. destruct (showstats st). discriminate. }
  destruct (strncasecmp _ _ _ =? 0).
  - destruct (sscanf _ _) as [k vs]. unfold bind, modify_conn, modify, ret.
    intros [= _ <-]. by cbn.
  - unfold ret. by intros [= _ <-].
Qed.

Lemma process_request_some st rq st' :
  process_request st = (Some rq, st') ->
  fds st' = fds st /\ trace st' = trace st
  /\ client_fd (conn st') = client_fd (conn st)
  /\ server_fd (conn st') = server_fd (conn st)
  /\ response_message_sent (conn st') = response_message_sent (conn st).
Proof.
  rewrite process_request_unfold.
  destruct (request_tokens _) as [[[n m] u] p].
  assert (Hno : forall status msg, (httperr status msg ;; ret None) st = (Some rq, st') -> False).
  { intros status msg Hp. pose proof (httperr_none (A:=request_s) status msg st) as Hn.
    rewrite Hp in Hn. discriminate. }
  cbv zeta.
  destruct (n <? 2); [intros Hp; exfalso; eauto|].
  match goal with
  | |- context [strncasecmp ?a ?b ?c =? 0] => destruct (strncasecmp a b c =? 0)
  end.
  - destruct (extract_http_url _ _) as [r request].
    destruct (r <? 0); [intros Hp; exfalso; eauto|].
    intros Hp. apply process_request_gates_some in Hp. tauto.
  - match goal with
    | |- context [strcmp ?a ?b =? 0] => destruct (strcmp a b =? 0)
    end; [|intros Hp; exfalso; eauto].
    destruct (extract_ssl_url _ _) as [r request].
    destruct (r <? 0); [intros Hp; exfalso; eauto|].
    unfold bind at 1, modify_conn at 1, modify at 1. cbn beta iota.
    intros Hp. apply process_request_gates_some in Hp. cbn in Hp. tauto.
Qed.

(** The way into [internal_proxy] for a connection that the access
    control admits, without a tunnel. *)
Lemma handle_connection_internal fd st :
  0 < check_acl fd -> TUNNEL_CONFIGURED = false ->
  handle_connection fd st = internal_proxy (set_conn (initialize_conn fd) st).
Proof.
  intros Hacl Htun. unfold handle_connection.
  unfold bind at 1, modify_conn at 1, modify at 1. cbn beta iota.
  assert ((check_acl fd <=? 0) = false) as -> by (apply Z.leb_gt; lia).
  by rewrite Htun.
Qed.

Lemma read_request_line_core fd st r st1 :
  read_request_line (set_conn (initialize_conn fd) st) = (r, st1) ->
  client_fd (conn st1) = fd /\ server_fd (conn st1) = -1
  /\ connect_method (conn st1) = false /\ response_message_sent (conn st1) = false
  /\ trace st1 = trace st.
Proof.
  intros Hread.
  pose proof (keeps_eq _ _ _ _ _ keeps_core_read_request_line Hread) as Hcore.
  unfold conn_core in Hcore. cbn in Hcore. injection Hcore as Hcfd Hsfd Hcm Hrms Htr.
  auto.
Qed.

(** X21. When the server named in the request cannot be reached and
    no upstream proxy is in use, the client is answered 500 with the
    text of [HTTP500ERROR]; what can be read of its headers is read and
    the connection is destroyed. There is no relay, the server handle
    stays -1, and no descriptor but the client's is touched. *)
Theorem unreachable_server_500 fd st st1 request st2 :
  0 < check_acl fd -> TUNNEL_CONFIGURED = false -> UPSTREAM_CONFIGURED = false ->
  read_request_line (set_conn (initialize_conn fd) st) = (Some 0, st1) ->
  process_request st1 = (Some request, st2) ->
  dial (host request) (port request) = None ->
  exists st' stats,
    handle_connection fd st = (Closed, st')
    /\ trace st' = trace st ++ [EvHttpErr 500 HTTP500ERROR] ++ stats ++ [EvDestroy]
    /\ (stats = [] \/ stats = [EvStat STAT_BADCONN])
    /\ server_fd (conn st') = -1
    /\ (forall fd', fd' <> fd -> fds st' !! fd' = fds st1 !! fd').
Proof.
  intros Hacl Htun Hup Hread Hreq Hdial.
  rewrite (handle_connection_internal fd st Hacl Htun).
  destruct (read_request_line_core fd st _ st1 Hread) as (Hcfd & Hsfd & Hcm & Hrms & Htr).
  destruct (process_request_some st1 request st2 Hreq) as (Hf2 & Htr2 & Hc2 & Hs2 & Hr2).
  unfold internal_proxy. unfold bind at 1. rewrite Hread.
  change (0 <? 0) with false. cbn iota.
  unfold bind at 1. rewrite Hreq. rewrite Hup.
  unfold bind at 1, opensock at 1. rewrite Hdial. unfold ret at 1.
  unfold bind at 1, modify_conn at 1, modify at 1. cbn beta iota.
  change (-1 <? 0) with true. cbn iota.
  set (st3 := set_conn _ st2).
  destruct (httperr_spec 500 HTTP500ERROR st3) as (r & st4 & Hh & Htr4 & Hcn4 & Hoth4 & _).
  unfold bind at 1. rewrite Hh.
  destruct (send_error_refused st4) as (st' & stats & Hse & Htr' & Hst & Hcn' & Hoth');
    [by rewrite Hcn4|by rewrite Hcn4|].
  exists st', stats. split; [exact Hse|].
  split; [rewrite Htr', Htr4; subst st3; cbn; by rewrite Htr2, Htr, <- !app_assoc|].
  split; [done|]. split; [by rewrite Hcn', Hcn4|].
  intros fd' Hne. rewrite Hoth' by (rewrite Hcn4; subst st3; cbn; congruence).
  rewrite Hoth4 by (subst st3; cbn; congruence). subst st3. cbn. by rewrite Hf2.
Qed.

(** X22. When the upstream proxy cannot be reached the client is
    answered 404, not 500; what can be read of its headers is read and
    the connection is destroyed without a relay. *)
Theorem upstream_unreachable_404 fd st st1 request st2 :
  0 < check_acl fd -> TUNNEL_CONFIGURED = false -> UPSTREAM_CONFIGURED = true ->
  read_request_line (set_conn (initialize_conn fd) st) = (Some 0, st1) ->
  process_request st1 = (Some request, st2) ->
  dial (default [] (upstream_name config)) (upstream_port config) = None ->
  exists st' stats,
    handle_connection fd st = (Closed, st')
    /\ trace st'
       = trace st ++ [EvHttpErr 404 (str "Unable to connect to upstream proxy.")]
         ++ stats ++ [EvDestroy]
    /\ (stats = [] \/ stats = [EvStat STAT_BADCONN])
    /\ server_fd (conn st') = -1
    /\ (forall fd', fd' <> fd -> fds st' !! fd' = fds st1 !! fd').
Proof.
  intros Hacl Htun Hup Hread Hreq Hdial.
  rewrite (handle_connection_internal fd st Hacl Htun).
  destruct (read_request_line_core fd st _ st1 Hread) as (Hcfd & Hsfd & Hcm & Hrms & Htr).
  destruct (process_request_some st1 request st2 Hreq) as (Hf2 & Htr2 & Hc2 & Hs2 & Hr2).
  unfold internal_proxy. unfold bind at 1. rewrite Hread.
  change (0 <? 0) with false. cbn iota.
  unfold bind at 1. rewrite Hreq. rewrite Hup.
  unfold bind at 1, connect_to_upstream at 1.
  unfold bind at 1, opensock at 1. rewrite Hdial. unfold ret at 1.
  unfold bind at 1, modify_conn at 1, modify at 1. cbn beta iota.
  change (-1 <? 0) with true. cbn iota.
  set (st3 := set_conn _ st2).
  destruct (httperr_spec 404 (str "Unable to connect to upstream proxy.") st3)
    as (r & st4 & Hh & Htr4 & Hcn4 & Hoth4 & _).
  unfold bind at 1. rewrite Hh. unfold ret at 1.
  destruct (send_error_refused st4) as (st' & stats & Hse & Htr' & Hst & Hcn' & Hoth');
    [by rewrite Hcn4|by rewrite Hcn4|].
  exists st', stats. split; [exact Hse|].
  split; [rewrite Htr', Htr4; subst st3; cbn; by rewrite Htr2, Htr, <- !app_assoc|].
  split; [done|]. split; [by rewrite Hcn', Hcn4|].
  intros fd' Hne. rewrite Hoth' by (rewrite Hcn4; subst st3; cbn; congruence).
  rewrite Hoth4 by (subst st3; cbn; congruence). subst st3. cbn. by rewrite Hf2.
Qed.

Lemma gates_filtered request st :
  filter config = true -> filter_url (host request) <> 0 ->
  exists st',
    process_request_gates request st = (None, st')
    /\ trace st'
       = trace st ++ [EvStat STAT_DENIED;
                      EvHttpErr 404 (str "Connection to filtered domain is now allowed.")]
    /\ conn st' = set_response_message_sent true (conn st)
    /\ (forall fd, fd <> client_fd (conn st) -> fds st' !! fd = fds st !! fd).
Proof.
  intros Hfil Hblk. unfold process_request_gates. rewrite Hfil.
  assert (negb (filter_url (host request) =? 0) = true) as ->
    by (by apply negb_true_iff, Z.eqb_neq).
  cbn [andb].
  unfold bind at 1, update_stats at 1, emit at 1, modify at 1. cbn beta iota.
  set (st3 := log_event _ st).
  destruct (httperr_spec 404 (str "Connection to filtered domain is now allowed.") st3)
    as (r & st4 & Hh & Htr4 & Hcn4 & Hoth4 & _).
  unfold bind at 1. rewrite Hh. unfold ret at 1.
  exists st4. split; [reflexivity|].
  split; [rewrite Htr4; subst st3; cbn; by rewrite <- app_assoc|].
  split; [exact Hcn4|]. intros fd Hne. by rewrite Hoth4.
Qed.

(** A request for a filtered host, in either form of the url, is turned
    down by [process_request] after the url has been parsed. *)
Lemma process_request_filtered st n method_ url protocol_ request :
  request_tokens (request_line (conn st)) = (n, method_, url, protocol_) -> 2 <= n ->
  (strncasecmp url (str "http://") 7 = 0
   /\ extract_http_url (memcpy url (str "http") 4) (fresh_request method_ protocol_)
      = (0, request))
  \/ (strncasecmp url (str "http://") 7 <> 0 /\ strcmp method_ (str "CONNECT") = 0
      /\ extract_ssl_url url (fresh_request method_ protocol_) = (0, request)) ->
  filter config = true -> filter_url (host request) <> 0 ->
  exists st',
    process_request st = (None, st')
    /\ trace st'
       = trace st ++ [EvStat STAT_DENIED;
                      EvHttpErr 404 (str "Connection to filtered domain is now allowed.")]
    /\ response_message_sent (conn st') = true
    /\ server_fd (conn st') = server_fd (conn st)
    /\ client_fd (conn st') = client_fd (conn st)
    /\ (forall fd, fd <> client_fd (conn st) -> fds st' !! fd = fds st !! fd).
Proof.
  intros Htok Hn Hurl Hfil Hblk.
  rewrite process_request_unfold, Htok. cbv beta iota zeta.
  assert ((n <? 2) = false) as -> by (apply Z.ltb_ge; lia).
  destruct Hurl as [[Hhttp Hurl]|(Hhttp & Hm & Hurl)].
  - rewrite Hhttp. change (0 =? 0) with true. cbn iota. rewrite Hurl.
    change (0 <? 0) with false. cbn iota.
    destruct (gates_filtered request st Hfil Hblk) as (st' & -> & Htr & Hcn & Hoth).
    exists st'. rewrite Hcn. by repeat split.
  - assert ((strncasecmp url (str "http://") 7 =? 0) = false) as -> by (by apply Z.eqb_neq).
    rewrite Hm. change (0 =? 0) with true. cbn iota. rewrite Hurl.
    change (0 <? 0) with false. cbn iota.
    unfold bind at 1, modify_conn at 1, modify at 1. cbn beta iota.
    destruct (gates_filtered request (set_conn (set_connect_method true (conn st)) st)
                Hfil Hblk) as (st' & -> & Htr & Hcn & Hoth).
    exists st'. rewrite Hcn. by repeat split.
Qed.

(** X23. A request, with an http:// url or a CONNECT, for a host
    that the domain filter turns down is counted as denied and answered
    404; no connection to a server is opened, what can be read of the
    client's headers is read, and the connection is destroyed without a
    relay. *)
Theorem filtered_host_404 fd st st1 n method_ url protocol_ request :
  0 < check_acl fd -> TUNNEL_CONFIGURED = false ->
  read_request_line (set_conn (initialize_conn fd) st) = (Some 0, st1) ->
  request_tokens (request_line (conn st1)) = (n, method_, url, protocol_) -> 2 <= n ->
  (strncasecmp url (str "http://") 7 = 0
   /\ extract_http_url (memcpy url (str "http") 4) (fresh_request method_ protocol_)
      = (0, request))
  \/ (strncasecmp url (str "http://") 7 <> 0 /\ strcmp method_ (str "CONNECT") = 0
      /\ extract_ssl_url url (fresh_request method_ protocol_) = (0, request)) ->
  filter config = true -> filter_url (host request) <> 0 ->
  exists st' msg stats,
    handle_connection fd st = (Closed, st')
    /\ trace st'
       = trace st ++ [EvStat STAT_DENIED; EvHttpErr 404 msg] ++ stats ++ [EvDestroy]
    /\ (stats = [] \/ stats = [EvStat STAT_BADCONN])
    /\ server_fd (conn st') = -1
    /\ (forall fd', fd' <> fd -> fds st' !! fd' = fds st1 !! fd').
Proof.
  intros Hacl Htun Hread Htok Hn Hurl Hfil Hblk.
  rewrite (handle_connection_internal fd st Hacl Htun).
  destruct (read_request_line_core fd st _ st1 Hread) as (Hcfd & Hsfd & Hcm & Hrms & Htr).
  destruct (process_request_filtered st1 _ _ _ _ _ Htok Hn Hurl Hfil Hblk)
    as (st4 & Hreq & Htr4 & Hrms4 & Hsfd4 & Hcfd4 & Hoth4).
  unfold internal_proxy. unfold bind at 1. rewrite Hread.
  change (0 <? 0) with false. cbn iota.
  unfold bind at 1. rewrite Hreq.
  unfold bind at 1, get at 1. cbn beta iota.
  rewrite Hrms4. cbn [negb].
  destruct (send_error_refused st4) as (st' & stats & Hse & Htr' & Hst & Hcn' & Hoth');
    [done|congruence|].
  exists st', (str "Connection to filtered domain is now allowed."), stats.
  split; [exact Hse|].
  split; [rewrite Htr', Htr4; by rewrite Htr, <- !app_assoc|].
  split; [done|]. split; [rewrite Hcn'; congruence|].
  intros fd' Hne. rewrite Hoth' by congruence.
  rewrite Hoth4 by congruence. reflexivity.
Qed.
(** X24. With a tunnel configured and reachable, a connection that
    the access control admits and whose client has sent its first byte
    goes straight to the relay: no request line is read and nothing is
    parsed; when the relay starts nothing has been read from the client
    or written to it, and the server handle is the tunnel's. *)
Theorem tunnel_relays_unparsed fd st sc c sent sfd s :
  0 < check_acl fd -> TUNNEL_CONFIGURED = true ->
  fds st !! fd = Some sc -> s_in sc = Octet c :: sent ->
  dial (default [] (tunnel_name config)) (tunnel_port config) = Some (sfd, s) ->
  0 <= sfd ->
  handle_connection fd st
  = relay_proxy
      {| conn := set_server_fd sfd (initialize_conn fd);
         fds := <[sfd := s]> (fds st);
         trace := trace st ++ [EvDial (default [] (tunnel_name config))
                                 (tunnel_port config) sfd] |}.
Proof.
  intros Hacl Htun Hsc Hin Hdial Hfd. unfold handle_connection.
  unfold bind at 1, modify_conn at 1, modify at 1. cbn beta iota.
  assert ((check_acl fd <=? 0) = false) as -> by (apply Z.leb_gt; lia).
  assert (Hlt : (sfd <? 0) = false) by (apply Z.ltb_ge; lia).
  rewrite Htun. unfold connect_to_tunnel, peek_request_line.
  unfold bind at 1. unfold bind at 1. unfold bind at 1, get at 1. cbn beta iota.
  change (client_fd (conn (set_conn (initialize_conn fd) st))) with fd.
  change (fds (set_conn (initialize_conn fd) st)) with (fds st).
  rewrite Hsc, Hin. cbn [skip_pause].
  assert (Hsame : set_in (Octet c :: sent) sc = sc) by (rewrite <- Hin; by destruct sc).
  rewrite Hsame.
  unfold opensock. rewrite Hdial.
  unfold bind, emit, put_sock, modify_conn, modify, ret. cbn.
  rewrite Hlt. cbn. rewrite ?Hlt. rewrite (insert_id (fds st) fd sc) by done. reflexivity.
Qed.

End RefusedFacts.

Lemma unreachable_server_500_witness :
  let E := SampleMore.env_unreachable Sample.cfg in
  let st := Sample.accepted (Sample.line "GET http://example.org/ HTTP/1.0" ++ CRLF) in
  let st1 := snd (read_request_line (set_conn (initialize_conn 3) st)) in
  exists st' stats,
    handle_connection 3 st = (Closed, st')
    /\ trace st' = trace st ++ [EvHttpErr 500 HTTP500ERROR] ++ stats ++ [EvDestroy]
    /\ (stats = [] \/ stats = [EvStat STAT_BADCONN])
    /\ server_fd (conn st') = -1
    /\ (forall fd', fd' <> 3 -> fds st' !! fd' = fds st1 !! fd').
Proof.
  intros E st st1.
  refine (unreachable_server_500 (H:=E) 3 st st1
            {| method := str "GET"; protocol := str "HTTP/1.0"; host := str "example.org";
               port := 80; path := str "/" |}
            (snd (process_request st1)) _ _ _ _ _ _).
  - reflexivity.
  - reflexivity.
  - reflexivity.
  - vm_compute. reflexivity.
  - vm_compute. reflexivity.
  - reflexivity.
Defined.

Lemma upstream_unreachable_404_witness :
  let E := SampleMore.env_unreachable Sample.cfg_upstream in
  let st := Sample.accepted (Sample.line "GET http://example.org/ HTTP/1.0" ++ CRLF) in
  let st1 := snd (read_request_line (set_conn (initialize_conn 3) st)) in
  exists st' stats,
    handle_connection 3 st = (Closed, st')
    /\ trace st'
       = trace st ++ [EvHttpErr 404 (str "Unable to connect to upstream proxy.")]
         ++ stats ++ [EvDestroy]
    /\ (stats = [] \/ stats = [EvStat STAT_BADCONN])
    /\ server_fd (conn st') = -1
    /\ (forall fd', fd' <> 3 -> fds st' !! fd' = fds st1 !! fd').
Proof.
  intros E st st1.
  refine (upstream_unreachable_404 (H:=E) 3 st st1
            {| method := str "GET"; protocol := str "HTTP/1.0"; host := str "example.org";
               port := 80; path := str "/" |}
            (snd (process_request st1)) _ _ _ _ _ _).
  - reflexivity.
  - reflexivity.
  - reflexivity.
  - vm_compute. reflexivity.
  - vm_compute. reflexivity.
  - reflexivity.
Defined.

Lemma filtered_host_404_witness :
  let E := SampleMore.env_filter in
  let st := Sample.accepted (Sample.line "CONNECT blocked.test:443 HTTP/1.0" ++ CRLF) in
  let st1 := snd (read_request_line (set_conn (initialize_conn 3) st)) in
  exists st' msg stats,
    handle_connection 3 st = (Closed, st')
    /\ trace st'
       = trace st ++ [EvStat STAT_DENIED; EvHttpErr 404 msg] ++ stats ++ [EvDestroy]
    /\ (stats = [] \/ stats = [EvStat STAT_BADCONN])
    /\ server_fd (conn st') = -1
    /\ (forall fd', fd' <> 3 -> fds st' !! fd' = fds st1 !! fd').
Proof.
  intros E st st1.
  refine (filtered_host_404 (H:=E) 3 st st1 3 (str "CONNECT") (str "blocked.test:443")
            (str "HTTP/1.0")
            {| method := str "CONNECT"; protocol := str "HTTP/1.0";
               host := str "blocked.test"; port := 443; path := [] |} _ _ _ _ _ _ _ _).
  - reflexivity.
  - reflexivity.
  - vm_compute. reflexivity.
  - vm_compute. reflexivity.
  - lia.
  - right. split; [vm_compute; discriminate|]. split; vm_compute; reflexivity.
  - reflexivity.
  - vm_compute. discriminate.
Defined.

Lemma tunnel_relays_unparsed_witness :
  let E := SampleMore.env_tunnel in
  let st := Sample.accepted (str "MODE READER") in
  handle_connection 3 st
  = relay_proxy
      {| conn := set_server_fd 7 (initialize_conn 3);
         fds := <[7 := Sample.peer []]> (fds st);
         trace := trace st ++ [EvDial (str "tunnel.test") 119 7] |}.
Proof.
  intros E st.
  refine (tunnel_relays_unparsed (H:=E) 3 st (Sample.peer (str "MODE READER")) "M"%char
            (octets (str "ODE READER")) 7 (Sample.peer []) _ _ _ _ _ _).
  - reflexivity.
  - reflexivity.
  - reflexivity.
  - reflexivity.
  - reflexivity.
  - lia.
Defined.

(** ** What the header stage leaves alone *)

#[global] Instance one_way_refl cfd sfd : Reflexive (one_way cfd sfd).
Proof. by intros st Hc Hs. Qed.

#[global] Instance one_way_trans cfd sfd : Transitive (one_way cfd sfd).
Proof.
  intros a b c Hab Hbc Hc Hs.
  destruct (Hab Hc Hs) as (Hcn1 & Ht1 & Ho1 & Hi1).
  destruct (Hbc ltac:(by rewrite Hcn1) ltac:(by rewrite Hcn1)) as (Hcn2 & Ht2 & Ho2 & Hi2).
  repeat split; congruence.
Qed.

Section OneWay.
Context `{Env}.
Variables cfd sfd : Z.
Hypothesis Hne : cfd <> sfd.

Ltac one_way_done Es :=
  cbn; repeat split;
  rewrite ?lookup_insert_eq; rewrite ?lookup_insert_ne by congruence; rewrite ?Es; done.

Lemma one_way_safe_write data : evolves (one_way cfd sfd) (safe_write sfd data).
Proof.
  intros st Hc Hs. unfold safe_write, bind, get, ret, put_sock, modify. cbn beta iota.
  destruct (fds st !! sfd) as [s|] eqn:Es; [|one_way_done Es].
  destruct (s_wr s) as [|[n| |] k]; one_way_done Es.
Qed.

Lemma one_way_safe_read count : evolves (one_way cfd sfd) (safe_read cfd count).
Proof.
  intros st Hc Hs. unfold safe_read, bind, get, ret, put_sock, modify. cbn beta iota.
  destruct (fds st !! cfd) as [s|] eqn:Es; [|one_way_done Es].
  destruct (count <=? 0); [one_way_done Es|].
  destruct (take_run _ _) as [got rest]. one_way_done Es.
Qed.

Lemma one_way_readline : evolves (one_way cfd sfd) (readline cfd).
Proof.
  intros st Hc Hs. unfold readline, bind, get, ret, put_sock, modify. cbn beta iota.
  destruct (fds st !! cfd) as [s|] eqn:Es; [|one_way_done Es].
  destruct (take_line _) as [l rest].
  destruct (at_end l); [|destruct (_ <? _)]; one_way_done Es.
Qed.

Ltac one_way_step :=
  first
    [ apply one_way_safe_write | apply one_way_safe_read | apply one_way_readline
    | apply evolves_ret; apply _ | apply evolves_get; apply _
    | apply evolves_bind; [apply _| |intros ?]
    | match goal with
      | |- evolves _ (if ?b then _ else _) => destruct b
      | |- evolves _ (match ?x with _ => _ end) => destruct x
      | |- evolves _ (let '(_, _) := ?x in _) => destruct x
      end ].

Lemma one_way_get_all_headers_loop fuel m :
  evolves (one_way cfd sfd) (get_all_headers_loop fuel cfd m).
Proof.
  revert m. induction fuel as [|fuel IH]; intros m; cbn [get_all_headers_loop].
  - apply evolves_ret. apply _.
  - repeat first [apply IH | one_way_step].
Qed.

Lemma one_way_get_all_headers m :
  evolves (one_way cfd sfd) (get_all_headers cfd m).
Proof.
  unfold get_all_headers. repeat first [apply one_way_get_all_headers_loop | one_way_step].
Qed.

Lemma one_way_send_headers h keys :
  evolves (one_way cfd sfd) (send_headers sfd h keys).
Proof.
  induction keys as [|k keys IH]; cbn [send_headers].
  - apply evolves_ret. apply _.
  - unfold write_message. repeat first [apply IH | one_way_step].
Qed.

Lemma one_way_pull_client_data_loop fuel total :
  evolves (one_way cfd sfd) (pull_client_data_loop fuel total).
Proof.
  revert total. induction fuel as [|fuel IH]; intros total; cbn [pull_client_data_loop].
  - apply evolves_ret. apply _.
  - intros st Hc Hs.
    pose (m :=
      (r <- safe_read cfd (Z.min MAXBUFFSIZE total) ;;
       let '(len, buffer) := r in
       if len <=? 0 then ret (-1)
       else
         w <- (if negb (response_message_sent (conn st))
               then safe_write sfd buffer else ret 0) ;;
         if w <? 0 then ret (-1)
         else
           if total - len >? 0 then pull_client_data_loop fuel (total - len) else ret 0)
      : M Z).
    assert (He : evolves (one_way cfd sfd) m).
    { subst m. repeat first [apply IH | one_way_step]. }
    assert (Hm : (st0 <- get ;;
                  r <- safe_read (client_fd (conn st0)) (Z.min MAXBUFFSIZE total) ;;
                  let '(len, buffer) := r in
                  if len <=? 0 then ret (-1)
                  else
                    w <- (if negb (response_message_sent (conn st0))
                          then safe_write (server_fd (conn st0)) buffer else ret 0) ;;
                    if w <? 0 then ret (-1)
                    else
                      if total - len >? 0
                      then pull_client_data_loop fuel (total - len) else ret 0) st
                 = m st).
    { unfold bind at 1, get at 1. cbn beta iota. rewrite Hc, Hs. reflexivity. }
    rewrite Hm. exact (He st Hc Hs).
Qed.

Lemma one_way_add_xtinyproxy_header :
  evolves (one_way cfd sfd) add_xtinyproxy_header.
Proof.
  assert (He : evolves (one_way cfd sfd)
            (if sfd =? -1 then ret 0
             else write_message sfd (str "X-Tinyproxy: " ++ getpeer_ip cfd ++ CRLF))).
  { unfold write_message. repeat one_way_step. }
  intros st Hc Hs.
  assert (Hm : add_xtinyproxy_header st
               = (if sfd =? -1 then ret 0
                  else write_message sfd (str "X-Tinyproxy: " ++ getpeer_ip cfd ++ CRLF)) st).
  { unfold add_xtinyproxy_header. unfold bind at 1, get at 1. cbn beta iota.
    rewrite Hs, Hc. reflexivity. }
  rewrite Hm. exact (He st Hc Hs).
Qed.

Lemma one_way_forward_client_headers connptr h :
  server_fd connptr = sfd ->
  evolves (one_way cfd sfd) (forward_client_headers connptr h).
Proof.
  intros Hs. unfold forward_client_headers, pull_client_data, write_message. rewrite Hs.
  repeat first
    [ apply one_way_send_headers | apply one_way_pull_client_data_loop
    | apply one_way_add_xtinyproxy_header | one_way_step ].
Qed.

Lemma one_way_process_client_headers :
  evolves (one_way cfd sfd) process_client_headers.
Proof.
  intros st Hc Hs.
  pose (m :=
    (r <- get_all_headers cfd hashmap_create ;;
     let '(g, hashofheaders) := r in
     if g <? 0 then ret (-1)
     else if (server_fd (conn st) =? -1)
             || (connect_method (conn st) && negb UPSTREAM_CONFIGURED)
          then ret 0
          else forward_client_headers (conn st) hashofheaders) : M Z).
  assert (He : evolves (one_way cfd sfd) m).
  { subst m.
    repeat first
      [ apply one_way_get_all_headers | by apply one_way_forward_client_headers
      | one_way_step ]. }
  assert (Hm : process_client_headers st = m st).
  { unfold process_client_headers. unfold bind at 1, get at 1. cbn beta iota.
    rewrite Hc. reflexivity. }
  rewrite Hm. exact (He st Hc Hs).
Qed.

End OneWay.

Section FinalFacts.
Context `{Env}.

(** X25. [process_client_headers] only reads from the client and
    only writes to the server: whatever it returns, nothing has been
    written to the client, nothing has been read from the server, and
    the connection object and the trace are as before. *)
Theorem client_headers_one_way st r st' :
  client_fd (conn st) <> server_fd (conn st) ->
  process_client_headers st = (r, st') ->
  conn st' = conn st /\ trace st' = trace st
  /\ (s_out <$> fds st' !! client_fd (conn st)) = (s_out <$> fds st !! client_fd (conn st))
  /\ (s_in <$> fds st' !! server_fd (conn st)) = (s_in <$> fds st !! server_fd (conn st)).
Proof.
  intros Hne Hp.
  exact (evolves_eq _ _ _ _ _ (one_way_process_client_headers _ _ Hne) Hp eq_refl eq_refl).
Qed.

(** X26. Once an error response has been sent, [send_error] ends the
    connection: the client's headers are read, the connection is
    destroyed, and there is no relay. The client is sent nothing after
    the error response and the server's answer is not read. *)
Theorem error_response_is_final st :
  response_message_sent (conn st) = true ->
  client_fd (conn st) <> server_fd (conn st) ->
  exists st' stats,
    send_error st = (Closed, st')
    /\ trace st' = trace st ++ stats ++ [EvDestroy]
    /\ (stats = [] \/ stats = [EvStat STAT_BADCONN])
    /\ conn st' = conn st
    /\ (s_out <$> fds st' !! client_fd (conn st)) = (s_out <$> fds st !! client_fd (conn st))
    /\ (s_in <$> fds st' !! server_fd (conn st)) = (s_in <$> fds st !! server_fd (conn st)).
Proof.
  intros Hr Hne.
  destruct (process_client_headers st) as [r st1] eqn:Hp.
  destruct (evolves_eq _ _ _ _ _ (one_way_process_client_headers _ _ Hne) Hp eq_refl eq_refl)
    as (Hcn & Htr & Ho & Hi).
  unfold send_error. unfold bind at 1. rewrite Hp.
  unfold bind at 1, get at 1. cbn beta iota.
  rewrite Hcn, Hr. cbn [negb]. rewrite andb_false_r.
  destruct (r <? 0).
  - eexists _, [EvStat STAT_BADCONN]. split; [reflexivity|]. cbn. rewrite Htr.
    split; [by rewrite <- app_assoc|]. by repeat split; auto.
  - eexists _, []. split; [reflexivity|]. cbn. rewrite Htr. by repeat split; auto.
Qed.

End FinalFacts.

Lemma client_headers_one_way_witness :
  let E := Sample.env Sample.cfg [] in
  let st := Sample.connected SampleHeaders.block (str "HTTP/1.0 200 OK") in
  let st' := snd (process_client_headers st) in
  conn st' = conn st /\ trace st' = trace st
  /\ (s_out <$> fds st' !! 3) = (s_out <$> fds st !! 3)
  /\ (s_in <$> fds st' !! 7) = (s_in <$> fds st !! 7).
Proof.
  intros E st st'.
  refine (client_headers_one_way (H:=E) st (fst (process_client_headers st)) st' _ _).
  - vm_compute. discriminate.
  - apply surjective_pairing.
Defined.

Lemma error_response_is_final_witness :
  let E := Sample.env Sample.cfg [] in
  let st0 := Sample.connected SampleHeaders.block (str "HTTP/1.0 200 OK") in
  let st := set_conn (set_response_message_sent true (conn st0)) st0 in
  exists st' stats,
    send_error st = (Closed, st')
    /\ trace st' = trace st ++ stats ++ [EvDestroy]
    /\ (stats = [] \/ stats = [EvStat STAT_BADCONN])
    /\ conn st' = conn st
    /\ (s_out <$> fds st' !! 3) = (s_out <$> fds st !! 3)
    /\ (s_in <$> fds st' !! 7) = (s_in <$> fds st !! 7).
Proof.
  intros E st0 st.
  refine (error_response_is_final (H:=E) st _ _).
  - reflexivity.
  - vm_compute. discriminate.
Defined.

(** ** Every connection that ends is destroyed once *)

#[global] Instance undestroyed_refl : Reflexive undestroyed.
Proof. intros st. exists []. split; [by rewrite app_nil_r|apply not_elem_of_nil]. Qed.

#[global] Instance undestroyed_trans : Transitive undestroyed.
Proof.
  intros a b c (e1 & H1 & N1) (e2 & H2 & N2). exists (e1 ++ e2). split.
  - by rewrite H2, H1, <- app_assoc.
  - rewrite elem_of_app. tauto.
Qed.

Lemma undestroyed_same st st' : trace st' = trace st -> undestroyed st st'.
Proof. intros Ht. exists []. split; [by rewrite Ht, app_nil_r|apply not_elem_of_nil]. Qed.

Create HintDb und.

Section Undestroyed.
Context `{Env}.

Lemma und_modify_conn f : evolves undestroyed (modify_conn f).
Proof. intros st. by apply undestroyed_same. Qed.

Lemma und_put_sock fd s : evolves undestroyed (put_sock fd s).
Proof. intros st. by apply undestroyed_same. Qed.

Lemma und_emit e : e <> EvDestroy -> evolves undestroyed (emit e).
Proof.
  intros He st. exists [e]. split; [done|]. intros Hin.
  apply list_elem_of_singleton in Hin. congruence.
Qed.

Lemma und_keeps {A} (m : M A) : keeps trace m -> evolves undestroyed m.
Proof. intros Hk st. apply undestroyed_same, Hk. Qed.

Ltac und_step :=
  first
    [ solve [auto with und nocore]
    | apply evolves_ret; apply _ | apply evolves_get; apply _
    | apply und_modify_conn | apply und_put_sock
    | apply und_emit; discriminate
    | apply evolves_bind; [apply _| |intros ?]
    | match goal with
      | |- evolves _ (if ?b then _ else _) => destruct b
      | |- evolves _ (match ?x with _ => _ end) => destruct x
      | |- evolves _ (let '(_, _) := ?x in _) => destruct x
      end ].

Lemma und_readline fd : evolves undestroyed (readline fd).
Proof. unfold readline. repeat und_step. Qed.
#[local] Hint Resolve und_readline : und.

Lemma und_safe_read fd count : evolves undestroyed (safe_read fd count).
Proof. unfold safe_read. repeat und_step. Qed.
#[local] Hint Resolve und_safe_read : und.

Lemma und_safe_write fd data : evolves undestroyed (safe_write fd data).
Proof. unfold safe_write. repeat und_step. Qed.
#[local] Hint Resolve und_safe_write : und.

Lemma und_write_message fd data : evolves undestroyed (write_message fd data).
Proof. apply und_safe_write. Qed.
#[local] Hint Resolve und_write_message : und.

Lemma und_httperr status msg : evolves undestroyed (httperr status msg).
Proof. unfold httperr. repeat und_step. Qed.
#[local] Hint Resolve und_httperr : und.

Lemma und_showstats : evolves undestroyed showstats.
Proof. unfold showstats. repeat und_step. Qed.
#[local] Hint Resolve und_showstats : und.

Lemma und_update_stats k : evolves undestroyed (update_stats k).
Proof. unfold update_stats. repeat und_step. Qed.
#[local] Hint Resolve und_update_stats : und.

Lemma und_opensock host port : evolves undestroyed (opensock host port).
Proof. unfold opensock. repeat und_step. Qed.
#[local] Hint Resolve und_opensock : und.

Lemma und_socket_nonblocking fd : evolves undestroyed (socket_nonblocking fd).
Proof. unfold socket_nonblocking. repeat und_step. Qed.
#[local] Hint Resolve und_socket_nonblocking : und.

Lemma und_socket_blocking fd : evolves undestroyed (socket_blocking fd).
Proof. unfold socket_blocking. repeat und_step. Qed.
#[local] Hint Resolve und_socket_blocking : und.

Lemma und_read_buffer fd b : evolves undestroyed (read_buffer fd b).
Proof. unfold read_buffer. repeat und_step. Qed.
#[local] Hint Resolve und_read_buffer : und.

Lemma und_write_buffer fd b : evolves undestroyed (write_buffer fd b).
Proof. unfold write_buffer. repeat und_step. Qed.
#[local] Hint Resolve und_write_buffer : und.

Lemma und_read_request_line_retry fuel : evolves undestroyed (read_request_line_retry fuel).
Proof.
  induction fuel as [|fuel IH]; cbn [read_request_line_retry]; repeat first [apply IH | und_step].
Qed.
#[local] Hint Resolve und_read_request_line_retry : und.

Lemma und_read_request_line : evolves undestroyed read_request_line.
Proof. unfold read_request_line. repeat und_step. Qed.
#[local] Hint Resolve und_read_request_line : und.

Lemma und_establish_http_connection request :
  evolves undestroyed (establish_http_connection request).
Proof. unfold establish_http_connection. repeat und_step. Qed.
#[local] Hint Resolve und_establish_http_connection : und.

Lemma und_send_ssl_response : evolves undestroyed send_ssl_response.
Proof. unfold send_ssl_response. repeat und_step. Qed.
#[local] Hint Resolve und_send_ssl_response : und.

Lemma und_process_request_gates request :
  evolves undestroyed (process_request_gates request).
Proof. unfold process_request_gates. repeat und_step. Qed.
#[local] Hint Resolve und_process_request_gates : und.

Lemma und_process_request : evolves undestroyed process_request.
Proof. unfold process_request. repeat und_step. Qed.
#[local] Hint Resolve und_process_request : und.

Lemma und_pull_client_data_loop fuel total :
  evolves undestroyed (pull_client_data_loop fuel total).
Proof.
  revert total. induction fuel as [|fuel IH]; intros total; cbn [pull_client_data_loop];
    repeat first [apply IH | und_step].
Qed.
#[local] Hint Resolve und_pull_client_data_loop : und.

Lemma und_get_all_headers_loop fuel fd m :
  evolves undestroyed (get_all_headers_loop fuel fd m).
Proof.
  revert m. induction fuel as [|fuel IH]; intros m; cbn [get_all_headers_loop];
    repeat first [apply IH | und_step].
Qed.
#[local] Hint Resolve und_get_all_headers_loop : und.

Lemma und_send_headers fd h keys : evolves undestroyed (send_headers fd h keys).
Proof.
  induction keys as [|k keys IH]; cbn [send_headers]; repeat first [apply IH | und_step].
Qed.
#[local] Hint Resolve und_send_headers : und.

Lemma und_process_client_headers : evolves undestroyed process_client_headers.
Proof.
  unfold process_client_headers, get_all_headers, forward_client_headers,
    add_xtinyproxy_header, pull_client_data.
  repeat und_step.
Qed.
#[local] Hint Resolve und_process_client_headers : und.

Lemma und_process_server_headers_loop fuel :
  evolves undestroyed (process_server_headers_loop fuel).
Proof.
  induction fuel as [|fuel IH]; cbn [process_server_headers_loop];
    repeat first [apply IH | und_step].
Qed.
#[local] Hint Resolve und_process_server_headers_loop : und.

Lemma und_process_server_headers : evolves undestroyed process_server_headers.
Proof. unfold process_server_headers. repeat und_step. Qed.
#[local] Hint Resolve und_process_server_headers : und.

Lemma und_relay_transfers rset wset tk :
  evolves undestroyed (relay_transfers rset wset tk).
Proof.
  unfold relay_transfers, read_into_sbuffer, read_into_cbuffer, write_from_cbuffer,
    write_from_sbuffer.
  repeat und_step.
Qed.
#[local] Hint Resolve und_relay_transfers : und.

Lemma und_relay_loop ticks la : evolves undestroyed (relay_loop ticks la).
Proof.
  revert la. induction ticks as [|tk ticks IH]; intros la; cbn [relay_loop];
    repeat first [apply IH | und_step].
Qed.
#[local] Hint Resolve und_relay_loop : und.

Lemma und_flush_sbuffer fuel fd : evolves undestroyed (flush_sbuffer fuel fd).
Proof.
  induction fuel as [|fuel IH]; cbn [flush_sbuffer]; unfold write_from_sbuffer;
    repeat first [apply IH | und_step].
Qed.
#[local] Hint Resolve und_flush_sbuffer : und.

Lemma und_flush_cbuffer fuel fd : evolves undestroyed (flush_cbuffer fuel fd).
Proof.
  induction fuel as [|fuel IH]; cbn [flush_cbuffer]; unfold write_from_cbuffer;
    repeat first [apply IH | und_step].
Qed.
#[local] Hint Resolve und_flush_cbuffer : und.

Lemma und_relay_connection clock ticks :
  evolves undestroyed (relay_connection clock ticks).
Proof. unfold relay_connection. repeat und_step. Qed.
#[local] Hint Resolve und_relay_connection : und.

Lemma und_connect_to_upstream request :
  evolves undestroyed (connect_to_upstream request).
Proof. unfold connect_to_upstream. repeat und_step. Qed.
#[local] Hint Resolve und_connect_to_upstream : und.

Lemma und_connect_to_tunnel : evolves undestroyed connect_to_tunnel.
Proof. unfold connect_to_tunnel, peek_request_line. repeat und_step. Qed.
#[local] Hint Resolve und_connect_to_tunnel : und.

(** *** Ending a connection *)

Lemma ends_once_bind {A} (m : M A) (k : A -> M ending) :
  evolves undestroyed m -> (forall a, ends_once (k a)) -> ends_once (bind m k).
Proof.
  intros Hm Hk st. unfold bind. specialize (Hm st).
  destruct (m st) as [a st1]. cbn [snd] in Hm. destruct Hm as (e1 & H1 & N1).
  destruct (Hk a st1) as (e2 & H2 & Hend).
  exists (e1 ++ e2). split; [by rewrite H2, H1, <- app_assoc|].
  destruct (fst (k a st1)).
  - destruct Hend as (e' & -> & N'). exists (e1 ++ e'). split; [by rewrite <- app_assoc|].
    rewrite elem_of_app. tauto.
  - rewrite elem_of_app. tauto.
  - rewrite elem_of_app. tauto.
Qed.

Lemma ends_once_destroy : ends_once (destroy_conn ;; ret Closed).
Proof.
  intros st. exists [EvDestroy]. split; [done|]. exists []. split; [done|].
  apply not_elem_of_nil.
Qed.

Lemma ends_once_ret e : e <> Closed -> ends_once (ret e).
Proof.
  intros He st. exists []. cbn. split; [by rewrite app_nil_r|].
  destruct e; [done|apply not_elem_of_nil..].
Qed.

Ltac ends_step :=
  first
    [ apply ends_once_destroy
    | apply ends_once_ret; discriminate
    | apply ends_once_bind; [solve [auto with und nocore | repeat und_step]|intros ?]
    | match goal with
      | |- ends_once (if ?b then _ else _) => destruct b
      | |- ends_once (match ?x with _ => _ end) => destruct x
      end ].

Lemma ends_once_relay_proxy : ends_once relay_proxy.
Proof. unfold relay_proxy. repeat ends_step. Qed.

Lemma ends_once_send_error : ends_once send_error.
Proof. unfold send_error. repeat first [apply ends_once_relay_proxy | ends_step]. Qed.

Lemma ends_once_internal_proxy : ends_once internal_proxy.
Proof. unfold internal_proxy. repeat first [apply ends_once_send_error | ends_step]. Qed.

(** X27. [handle_connection] destroys the connection exactly once
    on every path that ends it, and as its last act; on a path that does
    not end it (the relay outlasts the turns given, or the request line
    was never read) the connection is not destroyed. *)
Theorem handle_connection_destroys_once fd st :
  exists evs,
    trace (snd (handle_connection fd st)) = trace st ++ evs
    /\ match fst (handle_connection fd st) with
       | Closed => exists evs', evs = evs' ++ [EvDestroy] /\ EvDestroy ∉ evs'
       | _ => EvDestroy ∉ evs
       end.
Proof.
  assert (He : ends_once (handle_connection fd)); [|exact (He st)].
  unfold handle_connection.
  repeat first
    [ apply ends_once_relay_proxy | apply ends_once_send_error
    | apply ends_once_internal_proxy | ends_step ].
Qed.

End Undestroyed.

(** ** What is not dropped *)

Lemma remove_tokens_only fuel m (ptr : cstr) :
  (length ptr < fuel)%nat ->
  exists toks,
    remove_tokens fuel m ptr = fold_left hashmap_remove toks m
    /\ forall tok, tok ∈ toks -> tok = [] \/ tok ∈ runs is_nul [] ptr.
Proof.
  revert m ptr. induction fuel as [|fuel IH]; intros m ptr Hlen; [lia|].
  cbn [remove_tokens]. destruct ptr as [|c0 p0].
  { exists []. split; [done|]. intros tok Hin. by apply elem_of_nil in Hin. }
  set (ptr := c0 :: p0) in *.
  destruct (span (fun c => negb (is_nul c)) ptr) as [token after] eqn:Es.
  destruct (span_inv _ _ _ _ Es) as (Hptr & Htok & Hstop).
  set (ptr' := snd (span is_nul (drop 1 after))).
  assert (Hlen' : (length ptr' < fuel)%nat).
  { subst ptr'. pose proof (span_snd_length is_nul (drop 1 after)) as Hl.
    rewrite length_drop in Hl. rewrite Hptr, length_app in Hlen.
    destruct after as [|a after'].
    - destruct token; [unfold ptr in Hptr; discriminate|cbn in *; lia].
    - cbn in *. lia. }
  destruct (IH (hashmap_remove m token) ptr' Hlen') as (toks & Hr & Hin).
  exists (token :: toks). split; [by rewrite Hr|].
  assert (Hruns : runs is_nul [] ptr
                  = match token with [] => [] | _ => [token] end
                    ++ runs is_nul [] ptr').
  { rewrite Hptr, runs_span.
    2:{ eapply Forall_impl; [exact Htok|]. cbn. intros c Hc. by apply negb_true_iff in Hc. }
    cbn [app]. subst ptr'. destruct after as [|a after'].
    - cbn. destruct token; [done|by rewrite app_nil_r].
    - specialize (Hstop a after' eq_refl). apply negb_false_iff in Hstop.
      cbn [runs drop]. rewrite Hstop, runs_skip. by destruct token. }
  intros tok Htk. apply elem_of_cons in Htk as [->|Htk].
  - destruct token as [|t0 t1]; [by left|]. right. rewrite Hruns. by left.
  - destruct (Hin tok Htk) as [->|Hi]; [by left|]. right. rewrite Hruns.
    apply elem_of_app. by right.
Qed.

Lemma find_filter {A} (p q : A -> bool) l e :
  List.find p l = Some e -> q e = true -> List.find p (List.filter q l) = Some e.
Proof.
  intros Hf Hq. induction l as [|x l IH]; [done|]. cbn in Hf |- *.
  destruct (p x) eqn:Hp.
  - injection Hf as ->. rewrite Hq. cbn. by rewrite Hp.
  - destruct (q x); [cbn; rewrite Hp|]; by apply IH.
Qed.

(** Removing another key leaves the first entry of a key where it is. *)
Lemma hashmap_remove_keeps m name k e :
  List.find (key_is name) m = Some e -> key_is k e = false ->
  List.find (key_is name) (hashmap_remove m k) = Some e.
Proof.
  intros He Hk. unfold hashmap_remove. apply find_filter; [done|]. by rewrite Hk.
Qed.

Lemma fold_remove_keeps ks m name e :
  List.find (key_is name) m = Some e -> (forall k, k ∈ ks -> key_is k e = false) ->
  List.find (key_is name) (fold_left hashmap_remove ks m) = Some e.
Proof.
  revert m. induction ks as [|k ks IH]; intros m He Hk; cbn; [done|].
  apply IH.
  - apply hashmap_remove_keeps; [done|]. apply Hk. by left.
  - intros k' Hk'. apply Hk. by right.
Qed.

Lemma without_connection_tokens_keeps h name e :
  well_stored h -> List.find (key_is name) h = Some e ->
  (forall k, k ∈ [] :: str "connection"
               :: connection_tokens (header_value h (str "connection")) ->
     key_is k e = false) ->
  List.find (key_is name) (without_connection_tokens h) = Some e.
Proof.
  intros Hw He Hk. unfold without_connection_tokens.
  destruct (hashmap_search h (str "connection")) as [len data] eqn:Hs.
  destruct (len >? 0) eqn:Hlen; [|done]. apply Z.gtb_lt in Hlen.
  apply hashmap_remove_keeps; [|apply Hk; right; by left].
  destruct (search_found _ _ _ _ Hs ltac:(lia)) as (key & Hin & ->).
  unfold well_stored in Hw. rewrite Forall_forall in Hw.
  destruct (Hw _ Hin) as (v & Hd & Hnul). cbn in Hd. subst data.
  assert (Hval : header_value h (str "connection") = v).
  { unfold header_value. rewrite Hs. cbn [snd]. unfold c_string.
    rewrite (span_app (fun c => negb (ascii_eqb c NUL)) v [NUL]); [done| |].
    - eapply Forall_impl; [exact Hnul|]. cbn. intros c Hc. unfold is_nul in Hc.
      by rewrite Hc.
    - by intros c r [= <- _]. }
  rewrite Hval in Hk.
  unfold remove_connection_headers. cbn [snd]. unfold strlen.
  rewrite Nat2Z.id, blank_separators_value by done.
  set (d := map _ v ++ [NUL]).
  assert (Hld : length d = length (v ++ [NUL])).
  { subst d. by rewrite !length_app, length_map. }
  rewrite <- Hld, firstn_all.
  destruct (remove_tokens_only (S (length d)) h d ltac:(lia)) as (toks & -> & Hin').
  apply fold_remove_keeps; [done|].
  intros tok Htok. apply Hk. destruct (Hin' tok Htok) as [->|Hr]; [by left|].
  right. right. subst d. by rewrite runs_blank in Hr.
Qed.

Section KeptFacts.
Context `{Env}.

Lemma remaining_headers_keeps h name e :
  well_stored h -> List.find (key_is name) h = Some e ->
  (forall k, k ∈ dropped_names h -> key_is k e = false) ->
  List.find (key_is name) (remaining_headers h) = Some e.
Proof.
  intros Hw He Hk. unfold remaining_headers.
  apply fold_remove_keeps.
  - assert (Hc : List.find (key_is name) (without_connection_tokens h) = Some e).
    { apply without_connection_tokens_keeps; [done|done|].
      intros k Hin. apply Hk. unfold dropped_names.
      apply elem_of_cons in Hin as [->|Hin]; [by left|].
      apply elem_of_cons in Hin as [->|Hin]; [right; by left|].
      right. right. right. apply elem_of_app. by left. }
    unfold without_via. destruct (hashmap_search _ (str "via")) as [len data].
    destruct (len >? 0); [|done].
    apply hashmap_remove_keeps; [done|]. apply Hk. unfold dropped_names.
    right. right. by left.
  - intros k Hin. apply Hk. unfold dropped_names. right. right. right.
    apply elem_of_app. by right.
Qed.

(** X28. In normal (not anonymous) mode nothing else is dropped: the
    first header the client sent under a name that matches, in any case
    of the letters, none of the dropped names (the tokens of the
    [Connection] value, the empty name, [connection], [via] and the
    names of [skipheaders]) is among the headers that are written to the
    server, under its name and with the value the client gave it. *)
Theorem other_headers_forwarded st sc ss lines t rest name value :
  fds st !! client_fd (conn st) = Some sc ->
  s_in sc = octets (concat lines ++ t) ++ rest ->
  Forall header_line lines -> end_of_headers t ->
  server_fd (conn st) <> -1 ->
  connect_method (conn st) && negb UPSTREAM_CONFIGURED = false ->
  server_fd (conn st) <> client_fd (conn st) ->
  fds st !! server_fd (conn st) = Some ss -> takes_writes ss ->
  is_anonymous_enabled = 0 ->
  let h := header_map lines in
  List.find (key_is name) h = Some (name, value ++ [NUL]) ->
  (forall k, k ∈ dropped_names h -> strcasecmp name k <> 0) ->
  (exists st1,
      sent_to (server_fd (conn st))
        (render_headers ([(str "Via", via_value (conn st) (without_connection_tokens h))]
                         ++ forwarded_headers h ++ xtinyproxy_headers (conn st)) ++ CRLF)
        (client_read_to rest sc st) st1
      /\ process_client_headers st
         = (if content_length_of (without_connection_tokens h) >=? 0
            then pull_client_data (content_length_of (without_connection_tokens h))
            else ret 0) st1)
  /\ (name, value) ∈ forwarded_headers h.
Proof.
  intros Hc Hin Hl Ht Hsfd Hcm Hne Hs Hts Han h He Hk.
  split; [by eapply process_client_headers_forward|].
  pose proof (well_stored_header_map lines) as Hw. fold h in Hw.
  assert (Hrem : List.find (key_is name) (remaining_headers h) = Some (name, value ++ [NUL])).
  { apply remaining_headers_keeps; [done|done|].
    intros k Hin'. unfold key_is. cbn [fst]. apply Z.eqb_neq. by apply Hk. }
  assert (Hval : header_value (remaining_headers h) name = value).
  { unfold header_value, hashmap_search. rewrite Hrem. cbn [snd].
    apply find_some in He as [Hmem _]. apply list_elem_of_In in Hmem.
    unfold well_stored in Hw. rewrite Forall_forall in Hw.
    destruct (Hw _ Hmem) as (v & Hd & Hnul). cbn [snd] in Hd.
    apply app_inj_tail in Hd as [-> _].
    unfold c_string.
    rewrite (span_app (fun c => negb (ascii_eqb c NUL)) v [NUL]); [done| |].
    - eapply Forall_impl; [exact Hnul|]. cbn. intros c Hc'. unfold is_nul in Hc'.
      by rewrite Hc'.
    - by intros c r [= <- _]. }
  unfold forwarded_headers. apply list_elem_of_In, in_map_iff.
  exists name. split; [by rewrite Hval|].
  unfold allowed_keys. apply filter_In. split.
  - unfold hashmap_keys. apply in_map_iff. exists (name, value ++ [NUL]).
    split; [done|]. by apply find_some in Hrem as [Hmem _].
  - rewrite Han. reflexivity.
Qed.

End KeptFacts.

Lemma other_headers_forwarded_witness :
  let E := Sample.env Sample.cfg [] in
  (str "accept", str "x") ∈ forwarded_headers (header_map SampleHeaders.lines).
Proof.
  intros E.
  pose proof (other_headers_forwarded (H:=E) (Sample.connected SampleHeaders.block [])
                (Sample.peer SampleHeaders.block) (Sample.peer [])
                SampleHeaders.lines CRLF [] (str "accept") (str "x")) as Hw.
  cbn zeta in Hw.
  destruct Hw as (_ & Hv).
  - reflexivity.
  - reflexivity.
  - apply header_lines_ok. reflexivity.
  - split; [by right|]. vm_compute. discriminate.
  - vm_compute. discriminate.
  - reflexivity.
  - vm_compute. discriminate.
  - reflexivity.
  - apply not_elem_of_nil.
  - reflexivity.
  - vm_compute. reflexivity.
  - intros k Hk. apply list_elem_of_In in Hk. vm_compute in Hk.
    repeat (destruct Hk as [<-|Hk]; [vm_compute; discriminate|]). destruct Hk.
  - exact Hv.
Defined.
